(** * sublime-hexbindec: the conversion engine of [convert.py]

    A shallow embedding of the numeric conversions of [convert.py]
    (binary, hexadecimal, decimal, fixed-point binary and exponential
    literals) together with the properties of its specification.

    Conventions of the embedding:
    - a Python [str] is a [string] of ASCII characters; an [int] is a [Z];
    - a Python exception is [None]: every function that can raise returns
      an [option];
    - a [decimal.Decimal] is a signed coefficient and an exponent, and every
      arithmetic operation rounds to the precision of the context, as the
      [decimal] module does;
    - a [float] is a binary64 value of the kernel ([PrimFloat]);
    - the dictionary returned by [match.groupdict()] is a [gmap string string];
    - the editor ([sublime.View]) is reduced to the list of the selected
      texts and to the list of [view.replace] calls a command performs;
    - integers and exponents are unbounded: the limit that recent
      interpreters put on the conversions between [int] and decimal text
      (4300 digits) and the exponent range of the [decimal] context
      ([Emax], [Emin]) are not part of the model, and the properties that
      render or parse a decimal text, or that add [Decimal] values, are
      stated within these bounds. *)

From Stdlib Require Import ZArith QArith Qpower Lia String Ascii List Permutation.
From Stdlib Require Import PrimFloat.
From stdpp Require Import gmap strings.

Local Open Scope string_scope.
Local Open Scope Z_scope.

(** ** Strings and Python's [int(text, base)] *)

Module PyStr.

(** [len(s)] as an integer. *)
Definition len (s : string) : Z := Z.of_nat (String.length s).

(** [s[0]]: raises [IndexError] on the empty string. *)
Definition head (s : string) : option ascii :=
  match s with
  | EmptyString => None
  | String c _ => Some c
  end.

(** [s[1:]]: slicing never raises. *)
Definition tail (s : string) : string :=
  match s with
  | EmptyString => EmptyString
  | String _ r => r
  end.

(** The value of a character as a digit: ['0'..'9'], ['a'..'z'], ['A'..'Z']. *)
Definition digit_val (c : ascii) : option Z :=
  let n := Z.of_nat (nat_of_ascii c) in
  if (48 <=? n) && (n <=? 57) then Some (n - 48)
  else if (97 <=? n) && (n <=? 122) then Some (n - 87)
  else if (65 <=? n) && (n <=? 90) then Some (n - 55)
  else None.

(** The digits of a literal, most significant first, accumulated in [acc];
    a character that is not a digit of [base] raises [ValueError]. *)
Fixpoint parse_digits (base : Z) (s : string) (acc : Z) : option Z :=
  match s with
  | EmptyString => Some acc
  | String c r =>
      match digit_val c with
      | Some d => if d <? base then parse_digits base r (acc * base + d) else None
      | None => None
      end
  end.

(** The optional prefix [int] accepts for the bases 2, 8 and 16. *)
Definition strip_prefix (base : Z) (s : string) : string :=
  match s with
  | String "0" (String p r) =>
      if ((base =? 2) && (Ascii.eqb p "b" || Ascii.eqb p "B"))
         || ((base =? 8) && (Ascii.eqb p "o" || Ascii.eqb p "O"))
         || ((base =? 16) && (Ascii.eqb p "x" || Ascii.eqb p "X"))
      then r else s
  | _ => s
  end.

Definition parse_unsigned (base : Z) (s : string) : option Z :=
  match strip_prefix base s with
  | EmptyString => None
  | body => parse_digits base body 0
  end.

(** [int(s, base)] for [2 <= base <= 36]: an optional sign, an optional
    base prefix, then at least one digit.  Surrounding white space and
    the underscores of Python 3.6 are not part of the model. *)
Definition int (s : string) (base : Z) : option Z :=
  match s with
  | String "-" r => option_map Z.opp (parse_unsigned base r)
  | String "+" r => parse_unsigned base r
  | _ => parse_unsigned base s
  end.

(** A non-empty string over the alphabet ['0'], ['1']: what the groups
    [[01]+] of the source patterns carve out. *)
Fixpoint all_bits (s : string) : bool :=
  match s with
  | EmptyString => true
  | String c r => (Ascii.eqb c "0" || Ascii.eqb c "1") && all_bits r
  end.

Definition is_bits (s : string) : Prop := s <> EmptyString /\ all_bits s = true.

End PyStr.

(** ** Rendering integers: [str(n)] and [template.format(n)] *)

Module PyFmt.

(** The character of a digit [0 <= d < 36]. *)
Definition digit_char (upper : bool) (d : Z) : ascii :=
  if d <? 10 then ascii_of_nat (Z.to_nat (48 + d))
  else ascii_of_nat (Z.to_nat ((if upper then 55 else 87) + d)).

(** The digits of [0 <= n] in [base], most significant first, in front of
    [acc]. *)
Fixpoint to_digits_aux (fuel : nat) (base : Z) (upper : bool) (n : Z) (acc : string)
  : string :=
  match fuel with
  | O => String (digit_char upper n) acc
  | S f =>
      if n <? base then String (digit_char upper n) acc
      else to_digits_aux f base upper (n / base)
             (String (digit_char upper (n mod base)) acc)
  end.

Definition to_digits (base : Z) (upper : bool) (n : Z) : string :=
  to_digits_aux (Z.to_nat (Z.log2 n)) base upper n "".

(** An integer in [base] behind its sign and [prefix]. *)
Definition render (base : Z) (upper : bool) (prefix : string) (n : Z) : string :=
  if n <? 0 then String "-" (prefix ++ to_digits base upper (- n))
  else prefix ++ to_digits base upper n.

(** [str(n)] *)
Definition str (n : Z) : string := render 10 false "" n.

(** The format specification of a replacement field: an optional [#] and a
    presentation type among [b], [o], [d], [x], [X] (or none). *)
Definition format_spec (spec : string) (n : Z) : option string :=
  match spec with
  | "" | "d" | "#d" => Some (str n)
  | "b" => Some (render 2 false "" n)
  | "#b" => Some (render 2 false "0b" n)
  | "o" => Some (render 8 false "" n)
  | "#o" => Some (render 8 false "0o" n)
  | "x" => Some (render 16 false "" n)
  | "#x" => Some (render 16 false "0x" n)
  | "X" => Some (render 16 true "" n)
  | "#X" => Some (render 16 true "0X" n)
  | _ => None
  end.

(** The text of a replacement field up to its closing brace, and the rest of
    the template. *)
Fixpoint split_field (s : string) : option (string * string) :=
  match s with
  | EmptyString => None
  | String "}" r => Some ("", r)
  | String c r =>
      match split_field r with
      | Some (f, r') => Some (String c f, r')
      | None => None
      end
  end.

(** A replacement field [{}], [{0}], [{:spec}] or [{0:spec}] applied to the
    one positional argument. *)
Definition format_field (field : string) (n : Z) : option string :=
  match field with
  | "" | "0" => Some (str n)
  | String ":" spec | String "0" (String ":" spec) => format_spec spec n
  | _ => None
  end.

(** [template.format(n)] for the templates of this plugin: literal text,
    the doubled braces, and replacement fields of the argument 0 with the
    integer presentation types above.  A template outside this fragment is
    rendered as a failure. *)
Fixpoint format_aux (fuel : nat) (template : string) (n : Z) : option string :=
  match fuel with
  | O => None
  | S f =>
      match template with
      | EmptyString => Some ""
      | String "{" (String "{" r) => option_map (String "{") (format_aux f r n)
      | String "}" (String "}" r) => option_map (String "}") (format_aux f r n)
      | String "}" _ => None
      | String "{" r =>
          match split_field r with
          | Some (field, r') =>
              match format_field field n, format_aux f r' n with
              | Some a, Some b => Some (a ++ b)
              | _, _ => None
              end
          | None => None
          end
      | String c r => option_map (String c) (format_aux f r n)
      end
  end.

Definition format (template : string) (n : Z) : option string :=
  format_aux (S (String.length template)) template n.

(** [s.strip()]: white space removed at both ends. *)
Definition is_space (c : ascii) : bool :=
  let n := nat_of_ascii c in
  (Nat.eqb n 32 || (Nat.leb 9 n && Nat.leb n 13) || (Nat.leb 28 n && Nat.leb n 31))%bool.

Fixpoint lstrip (s : string) : string :=
  match s with
  | String c r => if is_space c then lstrip r else s
  | EmptyString => s
  end.

(** [s.rstrip(chars)] for a set of characters given as a predicate. *)
Fixpoint rstrip (strip : ascii -> bool) (s : string) : string :=
  match s with
  | EmptyString => EmptyString
  | String c r =>
      match rstrip strip r with
      | EmptyString => if strip c then EmptyString else String c EmptyString
      | r' => String c r'
      end
  end.

Definition strip (s : string) : string := rstrip is_space (lstrip s).

End PyFmt.

(** ** [decimal.Decimal] with the precision of the context *)

Module Dec.

(** The number [coeff * 10 ^ expo].  The sign is the sign of the
    coefficient; infinities, NaN and the negative zero do not occur in
    [convert.py].  The exponent bounds [Emin], [Emax] of the context
    (millions of digits away) are not modelled. *)
Record Decimal : Set := mk { coeff : Z; expo : Z }.

Definition of_Z (n : Z) : Decimal := mk n 0.

(** The number of decimal digits of a positive integer. *)
Fixpoint ndigits_aux (fuel : nat) (n : Z) : Z :=
  match fuel with
  | O => 1
  | S f => if n <? 10 then 1 else 1 + ndigits_aux f (n / 10)
  end.

Definition ndigits (n : Z) : Z := ndigits_aux (Z.to_nat (Z.log2 n)) n.

(** [c / 10 ^ shift] rounded half to even ([ROUND_HALF_EVEN], the rounding of
    the default context), for [0 <= c]. *)
Definition round_half_even (c shift : Z) : Z :=
  let p := 10 ^ shift in
  let q := c / p in
  let r := c mod p in
  if 2 * r <? p then q
  else if p <? 2 * r then q + 1
  else if Z.even q then q else q + 1.

(** [Decimal._fix]: a coefficient of more than [prec] digits is rounded to
    [prec] digits. *)
Definition fix_ (prec : Z) (d : Decimal) : Decimal :=
  let a := Z.abs (coeff d) in
  if a <? 10 ^ prec then d
  else
    let shift := ndigits a - prec in
    let q := round_half_even a shift in
    if q =? 10 ^ prec
    then mk (Z.sgn (coeff d) * 10 ^ (prec - 1)) (expo d + shift + 1)
    else mk (Z.sgn (coeff d) * q) (expo d + shift).

(** [a + b]: the exact sum at the smaller exponent, then [_fix].  When one
    operand is zero the other one is only padded down to
    [max(exp, other.exp - prec - 1)]. *)
Definition add (prec : Z) (a b : Decimal) : Decimal :=
  let e := Z.min (expo a) (expo b) in
  if (coeff a =? 0) && (coeff b =? 0) then fix_ prec (mk 0 e)
  else if coeff a =? 0 then
    let e' := Z.max e (expo b - prec - 1) in
    fix_ prec (mk (coeff b * 10 ^ (expo b - e')) e')
  else if coeff b =? 0 then
    let e' := Z.max e (expo a - prec - 1) in
    fix_ prec (mk (coeff a * 10 ^ (expo a - e')) e')
  else
    fix_ prec (mk (coeff a * 10 ^ (expo a - e) + coeff b * 10 ^ (expo b - e)) e).

(** [-a]. *)
Definition neg (prec : Z) (a : Decimal) : Decimal :=
  fix_ prec (mk (- coeff a) (expo a)).

(** [Decimal(2) ** Decimal(n)] for an integer [n]: [2 ^ n] is [2 ^ n] at
    exponent 0 when [0 <= n], and [5 ^ (-n)] at exponent [n] otherwise.  An
    exact power is returned as it is; a power of more than [prec] digits
    is taken here as correctly rounded. *)
Definition pow2 (prec : Z) (n : Z) : Decimal :=
  if 0 <=? n then fix_ prec (mk (2 ^ n) 0)
  else fix_ prec (mk (5 ^ (- n)) n).

(** The rational number a [Decimal] stands for. *)
Definition to_Q (d : Decimal) : Q := inject_Z (coeff d) * Qpower 10 (expo d).

(** [str(d)]: the scientific string of the [decimal] module, which is the
    plain notation while the exponent is at most 0 and the number has fewer than
    six zeros behind the point. *)
Definition to_string (d : Decimal) : string :=
  let sign := if coeff d <? 0 then "-" else "" in
  let digits := PyFmt.to_digits 10 false (Z.abs (coeff d)) in
  let n := PyStr.len digits in
  let leftdigits := expo d + n in
  let dotplace := if (expo d <=? 0) && (-6 <? leftdigits) then leftdigits else 1 in
  let zeros (k : Z) := string_of_list_ascii (repeat "0"%char (Z.to_nat k)) in
  let body :=
    if dotplace <=? 0 then "0." ++ zeros (- dotplace) ++ digits
    else if n <=? dotplace then digits ++ zeros (dotplace - n)
    else substring 0 (Z.to_nat dotplace) digits ++ "."
         ++ substring (Z.to_nat dotplace) (Z.to_nat (n - dotplace)) digits in
  let exp :=
    if leftdigits =? dotplace then ""
    else "E" ++ (if 0 <=? leftdigits - dotplace then "+" else "")
         ++ PyFmt.str (leftdigits - dotplace) in
  sign ++ body ++ exp.

End Dec.

(** ** The fixed-point conversions *)

(** [getcontext().prec = 128] *)
Definition prec : Z := 128.

(** The loop of [UFixedToDecimal]:
    [for i, digit in enumerate(matches['frac'])], from index [i] on. *)
Fixpoint frac_loop (i : Z) (digits : string) (value : Dec.Decimal) : Dec.Decimal :=
  match digits with
  | EmptyString => value
  | String digit rest =>
      frac_loop (i + 1) rest
        (if Ascii.eqb digit "1"
         then Dec.add prec value (Dec.pow2 prec (- i - 1))
         else value)
  end.

Definition UFixedToDecimal (matches : gmap string string) : option Dec.Decimal :=
  int_digits ← matches !! "int";
  integer_portion ← PyStr.int int_digits 2;
  frac_digits ← matches !! "frac";
  let fractional_portion := frac_loop 0 frac_digits (Dec.of_Z 0) in
  Some (Dec.add prec (Dec.of_Z integer_portion) fractional_portion).

Definition FixedToDecimal (matches : gmap string string) : option Dec.Decimal :=
  int_digits ← matches !! "int";
  sign ← PyStr.head int_digits;
  if Ascii.eqb sign "0" then UFixedToDecimal matches
  else
    let power := PyStr.len int_digits - 1 in
    let start := Dec.neg prec (Dec.pow2 prec power) in
    let matches := <["int" := String "0" (PyStr.tail int_digits)]> matches in
    add ← UFixedToDecimal matches;
    Some (Dec.add prec start add).

(** The dictionary [match.groupdict()] of the fixed-point pattern. *)
Definition fixed_groups (I F : string) : gmap string string :=
  <["int" := I]> (<["frac" := F]> ∅).

(** ** Two's complement *)

(** [a << n]: a negative shift count raises [ValueError]. *)
Definition shl (a n : Z) : option Z :=
  if n <? 0 then None else Some (Z.shiftl a n).

Definition twos_complement (value : string) (nbits base : Z) : option Z :=
  val ← PyStr.int value base;
  if val <? 0 then
    s ← shl 1 nbits; Some (s + val)
  else
    s1 ← shl 1 (nbits - 1);
    if negb (Z.land val s1 =? 0) then
      s ← shl 1 nbits; Some (val - s)
    else Some val.


(** [_CONVERT_DST_BIN_DFLT], [_CONVERT_DST_HEX_DFLT], [_CONVERT_DST_EXP_DFLT] *)
Definition _CONVERT_DST_BIN_DFLT : string := "{0:b}".
Definition _CONVERT_DST_HEX_DFLT : string := "{0:#x}".

(** ** Regular expressions: the fragment of [re] the patterns are written in *)

Module Re.

(** The syntax: literal characters, character classes (as ranges), the
    word boundary, sequences, the greedy quantifiers [?] and [+], and
    capturing groups, numbered from 1 and possibly named. *)
Inductive regex : Set :=
| Empty : regex
| Chr : ascii -> regex
| Class : bool -> list (ascii * ascii) -> regex
| WordB : regex
| Seq : regex -> regex -> regex
| Opt : regex -> regex
| Plus : regex -> regex
| Group : nat -> option string -> regex -> regex.

(** A position in the matched text: the characters consumed so far (the
    last one first), the characters ahead, and the groups closed so far
    (the last one first). *)
Record mstate : Set := mkState {
  consumed : list ascii;
  ahead : list ascii;
  caps : list (nat * string)
}.

Definition in_range (c : ascii) (r : ascii * ascii) : bool :=
  (Nat.leb (nat_of_ascii (fst r)) (nat_of_ascii c)
   && Nat.leb (nat_of_ascii c) (nat_of_ascii (snd r)))%bool.

Definition in_class (negated : bool) (ranges : list (ascii * ascii)) (c : ascii) : bool :=
  xorb negated (existsb (in_range c) ranges).

(** [\w]: letters, digits and the underscore. *)
Definition word_ranges : list (ascii * ascii) :=
  [("a", "z"); ("A", "Z"); ("0", "9"); ("_", "_")]%char.

Definition is_word (c : option ascii) : bool :=
  match c with
  | Some c => in_class false word_ranges c
  | None => false
  end.

(** [\b]: exactly one of the two neighbours is a word character; the ends
    of the text count as non-word. *)
Definition at_boundary (s : mstate) : bool :=
  xorb (is_word (List.head (consumed s))) (is_word (List.head (ahead s))).

(** One character forward, when it satisfies [p]. *)
Definition step (p : ascii -> bool) (s : mstate) : option mstate :=
  match ahead s with
  | c :: r => if p c then Some (mkState (c :: consumed s) r (caps s)) else None
  | [] => None
  end.

(** The text consumed between the states [s] and [s']. *)
Definition between (s s' : mstate) : string :=
  string_of_list_ascii
    (rev (firstn (length (consumed s') - length (consumed s)) (consumed s'))).

Definition close_group (idx : nat) (s s' : mstate) : mstate :=
  mkState (consumed s') (ahead s') ((idx, between s s') :: caps s').

(** The iterations of a greedy [+] over the matcher [item] of its body:
    one more iteration is tried before the continuation [k]; the iteration
    stops when the body consumed nothing.  [n] bounds the number of
    iterations. *)
Fixpoint plus_loop (item : (mstate -> option mstate) -> mstate -> option mstate)
  (k : mstate -> option mstate) (n : nat) (s : mstate) : option mstate :=
  match n with
  | O => None
  | S n' =>
      item
        (fun s' =>
           if Nat.ltb (length (ahead s')) (length (ahead s)) then
             match plus_loop item k n' s' with
             | Some s'' => Some s''
             | None => k s'
             end
           else k s')
        s
  end.

(** The backtracking matcher, in continuation-passing style: [rmatch r k s]
    is the first success, in the order of the alternatives of [r] (greedy
    first), of [r] at [s] followed by [k].  A [+] iterates at most once per
    character ahead. *)
Fixpoint rmatch (r : regex) (k : mstate -> option mstate) (s : mstate)
  : option mstate :=
  match r with
  | Empty => k s
  | Chr c => match step (Ascii.eqb c) s with Some s' => k s' | None => None end
  | Class negated ranges =>
      match step (in_class negated ranges) s with Some s' => k s' | None => None end
  | WordB => if at_boundary s then k s else None
  | Seq a b => rmatch a (rmatch b k) s
  | Opt a =>
      match rmatch a k s with
      | Some s' => Some s'
      | None => k s
      end
  | Plus a => plus_loop (rmatch a) k (S (length (ahead s))) s
  | Group idx _ a => rmatch a (fun s' => k (close_group idx s s')) s
  end.

(** The capturing groups of a pattern, with their names. *)
Fixpoint groups (r : regex) : list (nat * option string) :=
  match r with
  | Seq a b => groups a ++ groups b
  | Opt a | Plus a => groups a
  | Group idx name a => (idx, name) :: groups a
  | _ => []
  end.

(** A compiled pattern: its text ([r.pattern]) and its syntax. *)
Record Pattern : Set := mkPattern { pattern : string; syntax : regex }.

(** A match object: the pattern's groups and what they captured. *)
Record Match : Set := mkMatch { m_groups : list (nat * option string); m_caps : list (nat * string) }.

Fixpoint assoc (idx : nat) (l : list (nat * string)) : option string :=
  match l with
  | [] => None
  | (i, v) :: r => if Nat.eqb i idx then Some v else assoc idx r
  end.

(** [r.match(text)]: a match anchored at the start of [text]. *)
Definition match_ (r : Pattern) (text : string) : option Match :=
  match rmatch (syntax r) Some (mkState [] (list_ascii_of_string text) []) with
  | Some s => Some (mkMatch (groups (syntax r)) (caps s))
  | None => None
  end.

(** [m.group(i)] for [1 <= i]: [IndexError] when the pattern has no such
    group; a group that took no part in the match yields Python's [None],
    on which every use in [convert.py] raises [TypeError]. *)
Definition group (m : Match) (idx : nat) : option string := assoc idx (m_caps m).

(** [m.groupdict()], restricted to the named groups that took part in the
    match (the others map to Python's [None]). *)
Definition groupdict (m : Match) : gmap string string :=
  fold_right
    (fun g d =>
       match snd g, assoc (fst g) (m_caps m) with
       | Some name, Some v => <[name := v]> d
       | _, _ => d
       end)
    ∅ (m_groups m).

(** *** [re.compile] on the fragment *)

(** Characters with a meaning of their own that the fragment leaves out, or
    that cannot start an item. *)
Definition is_meta (c : ascii) : bool :=
  existsb (Ascii.eqb c) ["."; "^"; "$"; "*"; "+"; "?"; "{"; "|"; "("; ")"; "["; "\"]%char.

Definition is_alnum (c : ascii) : bool :=
  in_class false [("a", "z"); ("A", "Z"); ("0", "9")]%char c.

(** An escape outside a class. *)
Definition escape (c : ascii) : option regex :=
  if Ascii.eqb c "b" then Some WordB
  else if Ascii.eqb c "d" then Some (Class false [("0", "9")]%char)
  else if Ascii.eqb c "w" then Some (Class false word_ranges)
  else if is_alnum c then None
  else Some (Chr c).

(** The items of a class up to its closing bracket: single characters,
    ranges [a-b], escapes. *)
Fixpoint class_items (inp : list ascii) (acc : list (ascii * ascii))
  : option (list (ascii * ascii) * list ascii) :=
  match inp with
  | [] => None
  | "]"%char :: r => Some (rev acc, r)
  | "\"%char :: c :: r =>
      if Ascii.eqb c "d" then class_items r (("0", "9")%char :: acc)
      else if Ascii.eqb c "w" then class_items r (rev word_ranges ++ acc)
      else if is_alnum c then None
      else class_items r ((c, c) :: acc)
  | lo :: "-"%char :: "]"%char :: r => Some (rev (("-", "-")%char :: (lo, lo) :: acc), r)
  | lo :: "-"%char :: hi :: r =>
      if Ascii.eqb hi "\" then None
      else if Nat.leb (nat_of_ascii lo) (nat_of_ascii hi)
           then class_items r ((lo, hi) :: acc)
           else None
  | c :: r => class_items r ((c, c) :: acc)
  end.

Definition class (inp : list ascii) : option (regex * list ascii) :=
  match inp with
  | "]"%char :: _ => None
  | "^"%char :: "]"%char :: _ => None
  | "^"%char :: r =>
      match class_items r [] with
      | Some (items, r') => Some (Class true items, r')
      | None => None
      end
  | _ =>
      match class_items inp [] with
      | Some (items, r') => Some (Class false items, r')
      | None => None
      end
  end.

(** The name of a group up to [>]. *)
Fixpoint group_name (inp : list ascii) : option (string * list ascii) :=
  match inp with
  | [] => None
  | ">"%char :: r => Some ("", r)
  | c :: r =>
      if in_class false word_ranges c then
        match group_name r with
        | Some (n, r') => Some (String c n, r')
        | None => None
        end
      else None
  end.

(** The quantifier behind an item, if any; a second quantifier character
    behind it (a lazy or a repeated quantifier) is outside the fragment. *)
Definition quantified (a : regex) (inp : list ascii) : option (regex * list ascii) :=
  let checked (q : regex) (r : list ascii) :=
    match r with
    | c :: _ =>
        if existsb (Ascii.eqb c) ["+"; "?"; "*"; "{"]%char then None else Some (q, r)
    | [] => Some (q, r)
    end in
  match inp with
  | "+"%char :: r => checked (Plus a) r
  | "?"%char :: r => checked (Opt a) r
  | _ => Some (a, inp)
  end.

(** A sequence of quantified items up to the end of the text or to the
    closing parenthesis of the enclosing group; [gi] is the number of groups
    opened so far. *)
Fixpoint parse_seq (fuel : nat) (inp : list ascii) (gi : nat) (acc : regex)
  : option (regex * list ascii * nat) :=
  match fuel with
  | O => None
  | S f =>
      let continue (item : option (regex * list ascii)) (gi' : nat) :=
        match item with
        | Some (a, r) =>
            match quantified a r with
            | Some (q, r') => parse_seq f r' gi' (Seq acc q)
            | None => None
            end
        | None => None
        end in
      let closed (res : option (regex * list ascii * nat)) (wrap : regex -> regex) :=
        match res with
        | Some (body, ")"%char :: r, gi') => continue (Some (wrap body, r)) gi'
        | _ => None
        end in
      match inp with
      | [] => Some (acc, [], gi)
      | ")"%char :: _ => Some (acc, inp, gi)
      | "("%char :: "?"%char :: ":"%char :: r =>
          closed (parse_seq f r gi Empty) (fun body => body)
      | "("%char :: "?"%char :: "P"%char :: "<"%char :: r =>
          match group_name r with
          | Some (String c n, r') =>
              closed (parse_seq f r' (S gi) Empty) (Group (S gi) (Some (String c n)))
          | _ => None
          end
      | "("%char :: "?"%char :: _ => None
      | "("%char :: r => closed (parse_seq f r (S gi) Empty) (Group (S gi) None)
      | "["%char :: r => continue (class r) gi
      | "\"%char :: c :: r =>
          match escape c with
          | Some a => continue (Some (a, r)) gi
          | None => None
          end
      | c :: r => if is_meta c then None else continue (Some (Chr c, r)) gi
      end
  end.

(** [re.compile(text)]: [None] stands for [re.error].  A pattern using
    syntax outside the fragment is rendered as one that does not compile. *)
Definition compile (text : string) : option Pattern :=
  let inp := list_ascii_of_string text in
  match parse_seq (S (length inp)) inp 0 Empty with
  | Some (r, [], _) => Some (mkPattern text r)
  | _ => None
  end.

End Re.

(** [_CONVERT_SRC_BIN_DFLT], [_CONVERT_SRC_FXD_DFLT], [_CONVERT_SRC_HEX_DFLT],
    [_CONVERT_SRC_EXP_DFLT] *)
Definition _CONVERT_SRC_BIN_DFLT : string := "\b(?:0b)?([01]+)\b".
Definition _CONVERT_SRC_FXD_DFLT : string := "\b(?:0b)?(?P<int>[01]+)([.])(?P<frac>[01]+)\b".
Definition _CONVERT_SRC_HEX_DFLT : string := "\b(?:0x)?([0-9a-fA-F]+)h?\b".
Definition _CONVERT_SRC_EXP_DFLT : string := "\b(\d+\.\d+)[e,E]([-+]?\d+)\b".


(** ** The pattern registry *)

Section Registry.

(** [re.compile], with [None] for [re.error]. *)
Context {P : Type} (compile : string -> option P).

(** [view.settings().get(name, default)] *)
Definition settings_get (settings : gmap string string) (name dflt : string) : string :=
  match settings !! name with
  | Some v => v
  | None => dflt
  end.

(** [load_pattern(view, name, default)]: the override when it compiles, the
    default otherwise; [None] when the default does not compile either (the
    [re.compile] of the handler raises). *)
Definition load_pattern (settings : gmap string string) (name dflt : string)
  : option P :=
  match compile (settings_get settings name dflt) with
  | Some r => Some r
  | None => compile dflt
  end.

End Registry.

(** The source slots: the setting's name and its built-in default. *)
Definition source_slots : list (string * string) :=
  [("convert_src_bin", _CONVERT_SRC_BIN_DFLT);
   ("convert_src_fxd", _CONVERT_SRC_FXD_DFLT);
   ("convert_src_hex", _CONVERT_SRC_HEX_DFLT);
   ("convert_src_exp", _CONVERT_SRC_EXP_DFLT)].

(** ** The commands *)

(** The editor side of a command is the list of the selected texts
    ([view.substr(sel)] for each [sel] of [view.sel()], once an empty
    selection has been widened to the word around it; the widening itself
    is the editor's).  What a command does is the list of its [view.replace]
    calls, each the index of a selection and its new text, the count
    [num_skip] and the status message. *)
Record Report : Set := mkReport {
  replaced : list (nat * string);
  num_skip : nat;
  status_message : option string
}.

(** [for sel in view.sel(): try: ... view.replace(edit, sel, new) except: num_skip += 1],
    from the selection of index [i] on. *)
Fixpoint run_loop (convert : string -> option string) (i : nat) (sels : list string)
  (edits : list (nat * string)) (skipped : nat) : list (nat * string) * nat :=
  match sels with
  | [] => (edits, skipped)
  | sel :: rest =>
      match convert sel with
      | Some new => run_loop convert (S i) rest (edits ++ [(i, new)]) skipped
      | None => run_loop convert (S i) rest edits (S skipped)
      end
  end.

Definition run_command (convert : string -> option string) (kind : string)
  (sels : list string) : Report :=
  let '(edits, skipped) := run_loop convert 0 sels [] 0%nat in
  mkReport edits skipped
    (if Nat.ltb 0 skipped
     then Some ("Skipped " ++ PyFmt.str (Z.of_nat skipped) ++ " invalid " ++ kind ++ " value(s)!")
     else None).

(** The body of the [try] of each command, for one selected text. *)
Definition BinToDec_item (r : Re.Pattern) (text : string) : option string :=
  m ← Re.match_ r text;
  digits ← Re.group m 1;
  n ← PyStr.int digits 2;
  Some (PyFmt.str n).

Definition BinToHex_item (dst_format : string) (r : Re.Pattern) (text : string)
  : option string :=
  m ← Re.match_ r text;
  digits ← Re.group m 1;
  n ← PyStr.int digits 2;
  PyFmt.format dst_format n.

Definition DecToBin_item (dst_format : string) (text : string) : option string :=
  n ← PyStr.int (PyFmt.strip text) 10;
  PyFmt.format dst_format n.

Definition DecToHex_item (dst_format : string) (text : string) : option string :=
  n ← PyStr.int (PyFmt.strip text) 10;
  PyFmt.format dst_format n.

Definition HexToBin_item (dst_format : string) (r : Re.Pattern) (text : string)
  : option string :=
  m ← Re.match_ r text;
  digits ← Re.group m 1;
  n ← PyStr.int digits 16;
  PyFmt.format dst_format n.

Definition HexToDec_item (r : Re.Pattern) (text : string) : option string :=
  m ← Re.match_ r text;
  digits ← Re.group m 1;
  n ← PyStr.int digits 16;
  Some (PyFmt.str n).

Definition UfxToDec_item (r : Re.Pattern) (text : string) : option string :=
  m ← Re.match_ r text;
  d ← UFixedToDecimal (Re.groupdict m);
  Some (Dec.to_string d).

Definition SfxToDec_item (r : Re.Pattern) (text : string) : option string :=
  m ← Re.match_ r text;
  d ← FixedToDecimal (Re.groupdict m);
  Some (Dec.to_string d).

Definition SbinToDec_item (r : Re.Pattern) (text : string) : option string :=
  m ← Re.match_ r text;
  digits ← Re.group m 1;
  n ← twos_complement digits (PyStr.len digits) 2;
  Some (PyFmt.str n).

Definition SbinToHex_item (dst_format : string) (r : Re.Pattern) (text : string)
  : option string :=
  m ← Re.match_ r text;
  digits ← Re.group m 1;
  n ← twos_complement digits (PyStr.len digits) 2;
  PyFmt.format dst_format n.

(** The [run] methods: the settings are read, then the selections are
    converted one by one. *)
Definition BinToDecCommand (settings : gmap string string) (sels : list string)
  : option Report :=
  r ← load_pattern Re.compile settings "convert_src_bin" _CONVERT_SRC_BIN_DFLT;
  Some (run_command (BinToDec_item r) "binary" sels).


Definition DecToBinCommand (settings : gmap string string) (sels : list string)
  : option Report :=
  let dst_format := settings_get settings "convert_dst_bin" _CONVERT_DST_BIN_DFLT in
  Some (run_command (DecToBin_item dst_format) "decimal" sels).

Definition DecToHexCommand (settings : gmap string string) (sels : list string)
  : option Report :=
  let dst_format := settings_get settings "convert_dst_hex" _CONVERT_DST_HEX_DFLT in
  Some (run_command (DecToHex_item dst_format) "decimal" sels).


Definition HexToDecCommand (settings : gmap string string) (sels : list string)
  : option Report :=
  r ← load_pattern Re.compile settings "convert_src_hex" _CONVERT_SRC_HEX_DFLT;
  Some (run_command (HexToDec_item r) "hexadecimal" sels).

Definition UfxToDecCommand (settings : gmap string string) (sels : list string)
  : option Report :=
  r ← load_pattern Re.compile settings "convert_src_fxd" _CONVERT_SRC_FXD_DFLT;
  Some (run_command (UfxToDec_item r) "fixed point" sels).

Definition SfxToDecCommand (settings : gmap string string) (sels : list string)
  : option Report :=
  r ← load_pattern Re.compile settings "convert_src_fxd" _CONVERT_SRC_FXD_DFLT;
  Some (run_command (SfxToDec_item r) "fixed point" sels).

Definition SbinToDecCommand (settings : gmap string string) (sels : list string)
  : option Report :=
  r ← load_pattern Re.compile settings "convert_src_bin" _CONVERT_SRC_BIN_DFLT;
  Some (run_command (SbinToDec_item r) "binary" sels).

Definition SbinToHexCommand (settings : gmap string string) (sels : list string)
  : option Report :=
  let dst_format := settings_get settings "convert_dst_hex" _CONVERT_DST_HEX_DFLT in
  r ← load_pattern Re.compile settings "convert_src_bin" _CONVERT_SRC_BIN_DFLT;
  Some (run_command (SbinToHex_item dst_format r) "binary" sels).

(** ** Decimal to exponential: the normalising loops of [DecToExpCommand] *)

Module Exp.

(** [while base > 10: base /= 10; exp += 1], on binary64 values; [None]
    when the loop is still running after [fuel] iterations. *)
Fixpoint shrink (fuel : nat) (base : float) (exp : Z) : option (float * Z) :=
  match fuel with
  | O => None
  | S f =>
      if PrimFloat.ltb 10 base then shrink f (PrimFloat.div base 10) (exp + 1)
      else Some (base, exp)
  end.

(** [while base < 1: base *= 10; exp -= 1] *)
Fixpoint grow (fuel : nat) (base : float) (exp : Z) : option (float * Z) :=
  match fuel with
  | O => None
  | S f =>
      if PrimFloat.ltb base 1 then grow f (PrimFloat.mul base 10) (exp - 1)
      else Some (base, exp)
  end.

(** The two loops in sequence, from [exp = 0], on the value [float(text)]. *)
Definition normalize (fuel : nat) (value : float) : option (float * Z) :=
  match shrink fuel value 0 with
  | Some (base, exp) => grow fuel base exp
  | None => None
  end.



Section Item.

(** [float(text)], with [None] for [ValueError], and [str(x)] on floats:
    the conversions of the Python runtime between texts and binary64
    values. *)
Variable float_of_text : string -> option float.
Variable text_of_float : float -> string.




End Item.

Section Back.

(** The float operations of the Python runtime that [ExpToDecCommand] calls:
    [float(text)], with [None] for [ValueError]; [10 ** x], with [None] for
    [OverflowError]; [round(x, 18)], with [None] should it raise; [str(x)]. *)
Variable float_of_text : string -> option float.
Variable pow10 : float -> option float.
Variable round18 : float -> option float.
Variable text_of_float : float -> string.

(** The body of the [try] of [ExpToDecCommand] for one selected text. *)
Definition ExpToDec_item (r : Re.Pattern) (text : string) : option string :=
  m ← Re.match_ r text;
  mantissa ← Re.group m 1;
  mantissa ← float_of_text mantissa;
  exponent ← Re.group m 2;
  exponent ← float_of_text exponent;
  power ← pow10 exponent;
  result ← round18 (PrimFloat.mul mantissa power);
  Some (PyFmt.rstrip (Ascii.eqb ".") (PyFmt.rstrip (Ascii.eqb "0") (text_of_float result))).


End Back.

End Exp.

(** * Definitions used by the statements *)

(** The characters [to_digits] produces for [base]: the lower-case digits
    of the values below [base]. *)
Definition digit_of (base : Z) (c : ascii) : Prop :=
  exists d, 0 <= d < base /\ c = PyFmt.digit_char false d.

(** The compiled default patterns. *)
Definition SRC_BIN : option Re.Pattern :=
  Eval vm_compute in Re.compile _CONVERT_SRC_BIN_DFLT.
Definition SRC_HEX : option Re.Pattern :=
  Eval vm_compute in Re.compile _CONVERT_SRC_HEX_DFLT.

(** The [view.replace] calls a batch comes to when every selected text is
    converted on its own: the selections that convert, in order, from the
    index [i] on. *)
Fixpoint conversions (convert : string -> option string) (i : nat) (sels : list string)
  : list (nat * string) :=
  match sels with
  | [] => []
  | sel :: rest =>
      match convert sel with
      | Some new => (i, new) :: conversions convert (S i) rest
      | None => conversions convert (S i) rest
      end
  end.

(** The number of selected texts that do not convert. *)
Fixpoint failures (convert : string -> option string) (sels : list string) : nat :=
  match sels with
  | [] => 0
  | sel :: rest =>
      match convert sel with
      | Some _ => failures convert rest
      | None => S (failures convert rest)
      end
  end.

(** The fractional value of the digits [F], the first of which has the
    index [i]: the sum, over the positions of [F] that hold the digit [1], of
    [2 ^ (- (position + 1))]. *)
Fixpoint frac_sum (i : Z) (F : string) : Q :=
  match F with
  | EmptyString => 0%Q
  | String digit rest =>
      ((if Ascii.eqb digit "1" then Qpower 2 (- (i + 1)) else 0) + frac_sum (i + 1) rest)%Q
  end.

(** The same sum in units of [10 ^ (- k)]: the digit of index [i] weighs
    [5 ^ (i + 1) * 10 ^ (k - i - 1)]. *)
Fixpoint frac_units (k i : Z) (F : string) : Z :=
  match F with
  | EmptyString => 0
  | String digit rest =>
      (if Ascii.eqb digit "1" then 5 ^ (i + 1) * 10 ^ (k - i - 1) else 0)
      + frac_units k (i + 1) rest
  end.

(** A [Decimal] of exponent between [- k] and 0 in units of [10 ^ (- k)]. *)
Definition units (k : Z) (d : Dec.Decimal) : Z := Dec.coeff d * 10 ^ (k + Dec.expo d).

(** A run of [n] zeros followed by a one. *)
Definition zeros_one (n : nat) : string :=
  string_of_list_ascii (repeat "0"%char n ++ ["1"%char]).

(** A one followed by [n] zeros. *)
Definition one_zeros (n : nat) : string :=
  string_of_list_ascii ("1"%char :: repeat "0"%char n).

Definition SRC_FXD : option Re.Pattern :=
  Eval vm_compute in Re.compile _CONVERT_SRC_FXD_DFLT.
Definition SRC_EXP : option Re.Pattern :=
  Eval vm_compute in Re.compile _CONVERT_SRC_EXP_DFLT.

(** A text that is empty or starts with a character that is not a word
    character. *)
Definition no_word_start (s : string) : Prop :=
  match s with
  | EmptyString => True
  | String c _ => Re.is_word (Some c) = false
  end.

(** A binary64 value divided, or multiplied, by ten [k] times in a row. *)
Definition div10 (k : nat) (x : float) : float :=
  Nat.iter k (fun b => PrimFloat.div b 10) x.
Definition mul10 (k : nat) (x : float) : float :=
  Nat.iter k (fun b => PrimFloat.mul b 10) x.

(** A hexadecimal digit, in either case, and a non-empty string of them:
    what the group [[0-9a-fA-F]+] of the hexadecimal pattern carves out. *)
Definition hex_digit (c : ascii) : bool :=
  match PyStr.digit_val c with
  | Some d => d <? 16
  | None => false
  end.

Fixpoint all_hex (s : string) : bool :=
  match s with
  | EmptyString => true
  | String c r => hex_digit c && all_hex r
  end.

Definition is_hex (s : string) : Prop := s <> EmptyString /\ all_hex s = true.

(** A text that is empty or starts with a character that is not a
    hexadecimal digit. *)
Definition no_hex_start (s : string) : Prop :=
  match s with
  | EmptyString => True
  | String c _ => hex_digit c = false
  end.

(** A decimal digit, and a non-empty string of them: what [\d+] carves out
    of an ASCII text. *)
Definition dec_digit (c : ascii) : bool :=
  match PyStr.digit_val c with
  | Some d => d <? 10
  | None => false
  end.

Fixpoint all_digits (s : string) : bool :=
  match s with
  | EmptyString => true
  | String c r => dec_digit c && all_digits r
  end.

Definition is_digits (s : string) : Prop := s <> EmptyString /\ all_digits s = true.





(** * Properties *)

(** ** Binary digit strings *)

Lemma digit_val_bit (c : ascii) :
  (Ascii.eqb c "0" || Ascii.eqb c "1")%bool = true ->
  exists d, PyStr.digit_val c = Some d /\ 0 <= d < 2 /\ (d = 1 <-> c = "1"%char).
Proof.
  intros H. apply orb_true_iff in H as [H | H]; apply Ascii.eqb_eq in H; subst c.
  - exists 0. repeat split; try lia; discriminate.
  - exists 1. repeat split; try lia.
Qed.

Lemma parse_digits_bits (s : string) :
  PyStr.all_bits s = true ->
  forall acc, exists v,
    PyStr.parse_digits 2 s acc = Some v
    /\ acc * 2 ^ PyStr.len s <= v < (acc + 1) * 2 ^ PyStr.len s.
Proof.
  induction s as [| c r IH]; intros Hb acc.
  - exists acc. split; [reflexivity |]. unfold PyStr.len. simpl. lia.
  - simpl in Hb. apply andb_true_iff in Hb as [Hc Hr].
    destruct (digit_val_bit c Hc) as (d & Hd & Hrange & _).
    destruct (IH Hr (acc * 2 + d)) as (v & Hv & Hlo).
    exists v. split.
    + simpl. rewrite Hd. replace (d <? 2) with true by (symmetry; apply Z.ltb_lt; lia).
      exact Hv.
    + unfold PyStr.len in *. cbn [String.length]. rewrite Nat2Z.inj_succ, Z.pow_succ_r by lia.
      nia.
Qed.

(** On a string of bits [int] meets neither a sign nor a prefix. *)
Lemma int_bits_parse (s : string) :
  PyStr.is_bits s -> PyStr.int s 2 = PyStr.parse_digits 2 s 0.
Proof.
  intros [Hne Hb]. destruct s as [| c r]; [congruence |].
  simpl in Hb. apply andb_true_iff in Hb as [Hc Hr].
  assert (Hsign : c = "0"%char \/ c = "1"%char).
  { apply orb_true_iff in Hc as [H | H]; apply Ascii.eqb_eq in H; auto. }
  assert (Hint : PyStr.int (String c r) 2 = PyStr.parse_unsigned 2 (String c r)).
  { destruct Hsign; subst c; reflexivity. }
  rewrite Hint. unfold PyStr.parse_unsigned.
  assert (Hstrip : PyStr.strip_prefix 2 (String c r) = String c r).
  { destruct Hsign; subst c; [| reflexivity].
    destruct r as [| p r']; [reflexivity |].
    simpl in Hr. apply andb_true_iff in Hr as [Hp _].
    apply orb_true_iff in Hp as [H | H]; apply Ascii.eqb_eq in H; subst p; reflexivity. }
  rewrite Hstrip. reflexivity.
Qed.

Lemma int_bits (s : string) :
  PyStr.is_bits s ->
  exists v, PyStr.int s 2 = Some v /\ 0 <= v < 2 ^ PyStr.len s.
Proof.
  intros H. rewrite (int_bits_parse s H).
  destruct (parse_digits_bits s (proj2 H) 0) as (v & Hv & Hr).
  exists v. split; [exact Hv | lia].
Qed.

Lemma len_pos (s : string) : s <> EmptyString -> 1 <= PyStr.len s.
Proof.
  destruct s; [congruence |]. intros _. unfold PyStr.len. cbn [String.length]. lia.
Qed.

(** ** Two's complement *)

Lemma land_pow2 (v k : Z) :
  0 <= k -> Z.land v (2 ^ k) = if Z.testbit v k then 2 ^ k else 0.
Proof.
  intros Hk. apply Z.bits_inj'. intros n Hn.
  rewrite Z.land_spec.
  destruct (Z.eq_dec n k) as [-> | Hne].
  - rewrite Z.pow2_bits_true by lia. rewrite andb_true_r.
    destruct (Z.testbit v k) eqn:E; [rewrite Z.pow2_bits_true by lia; reflexivity |].
    rewrite Z.bits_0. reflexivity.
  - rewrite Z.pow2_bits_false by lia. rewrite andb_false_r.
    destruct (Z.testbit v k); [rewrite Z.pow2_bits_false by lia | rewrite Z.bits_0]; reflexivity.
Qed.

Lemma testbit_top (v n : Z) :
  1 <= n -> 0 <= v < 2 ^ n -> Z.testbit v (n - 1) = (2 ^ (n - 1) <=? v).
Proof.
  intros Hn Hv.
  assert (Hp : 2 ^ n = 2 * 2 ^ (n - 1)).
  { replace n with (Z.succ (n - 1)) at 1 by lia. apply Z.pow_succ_r. lia. }
  assert (Hpos : 0 < 2 ^ (n - 1)) by (apply Z.pow_pos_nonneg; lia).
  rewrite Z.testbit_eqb by lia.
  destruct (Z.leb_spec (2 ^ (n - 1)) v) as [Hge | Hlt].
  - assert (Hq : v / 2 ^ (n - 1) = 1).
    { symmetry. apply (Z.div_unique v (2 ^ (n - 1)) 1 (v - 2 ^ (n - 1))); lia. }
    rewrite Hq. reflexivity.
  - rewrite Z.div_small by lia. reflexivity.
Qed.

Lemma twos_complement_bits (D : string) :
  PyStr.is_bits D ->
  exists val,
    PyStr.int D 2 = Some val /\ 0 <= val < 2 ^ PyStr.len D
    /\ twos_complement D (PyStr.len D) 2
       = Some (if Z.testbit val (PyStr.len D - 1) then val - 2 ^ PyStr.len D else val).
Proof.
  intros HD. destruct (int_bits D HD) as (val & Hint & Hr).
  pose proof (len_pos D (proj1 HD)) as Hn.
  exists val. split; [exact Hint |]. split; [exact Hr |].
  unfold twos_complement. rewrite Hint. cbn [mbind option_bind].
  replace (val <? 0) with false by (symmetry; apply Z.ltb_ge; lia).
  unfold shl.
  replace (PyStr.len D - 1 <? 0) with false by (symmetry; apply Z.ltb_ge; lia).
  replace (PyStr.len D <? 0) with false by (symmetry; apply Z.ltb_ge; lia).
  cbn [mbind option_bind].
  rewrite !Z.shiftl_1_l, land_pow2 by lia.
  assert (Hpos : 0 < 2 ^ (PyStr.len D - 1)) by (apply Z.pow_pos_nonneg; lia).
  destruct (Z.testbit val (PyStr.len D - 1)).
  - replace (2 ^ (PyStr.len D - 1) =? 0) with false by (symmetry; apply Z.eqb_neq; lia).
    reflexivity.
  - reflexivity.
Qed.

(** C3: for every non-empty string [D] of binary digits,
    [twos_complement(D, len(D), 2)] parses [D] as an unsigned integer [val]
    and returns [val - 2 ^ nbits] when the bit [nbits - 1] of [val] is set, and
    [val] itself otherwise; on ["101"] the result is [-3]. *)
Theorem twos_complement_sign_extends :
  (forall D : string,
      PyStr.is_bits D ->
      exists val,
        PyStr.int D 2 = Some val /\ 0 <= val
        /\ twos_complement D (PyStr.len D) 2
           = Some (if Z.testbit val (PyStr.len D - 1)
                   then val - 2 ^ PyStr.len D else val))
  /\ twos_complement "101" (PyStr.len "101") 2 = Some (-3).
Proof.
  split; [| reflexivity].
  intros D HD. destruct (twos_complement_bits D HD) as (val & H1 & H2 & H3).
  exists val. repeat split; [exact H1 | lia | exact H3].
Qed.

(** C10: for every non-empty string [D] of [n] binary digits the result of
    [twos_complement(D, n, 2)] lies between [-(2 ^ (n - 1))] and
    [2 ^ (n - 1) - 1]. *)
Theorem twos_complement_range (D : string) :
  PyStr.is_bits D ->
  exists r,
    twos_complement D (PyStr.len D) 2 = Some r
    /\ - 2 ^ (PyStr.len D - 1) <= r <= 2 ^ (PyStr.len D - 1) - 1.
Proof.
  intros HD. destruct (twos_complement_bits D HD) as (val & _ & Hr & Htc).
  pose proof (len_pos D (proj1 HD)) as Hn.
  eexists. split; [exact Htc |].
  assert (Hp : 2 ^ PyStr.len D = 2 * 2 ^ (PyStr.len D - 1)).
  { replace (PyStr.len D) with (Z.succ (PyStr.len D - 1)) at 1 by lia.
    apply Z.pow_succ_r. lia. }
  rewrite (testbit_top val (PyStr.len D) Hn Hr).
  destruct (Z.leb_spec (2 ^ (PyStr.len D - 1)) val); lia.
Qed.

Lemma twos_complement_range_witness :
  exists r, twos_complement "1000" (PyStr.len "1000") 2 = Some r
            /\ - 2 ^ (PyStr.len "1000" - 1) <= r <= 2 ^ (PyStr.len "1000" - 1) - 1.
Proof.
  apply (twos_complement_range "1000"). split; [discriminate | reflexivity].
Defined.

(** ** Rendering and parsing digits *)

Section Digits.

Variable base : Z.
Hypothesis base_ok : base = 2 \/ base = 16.

Lemma small_cases (d : Z) :
  0 <= d < base ->
  In d [0; 1; 2; 3; 4; 5; 6; 7; 8; 9; 10; 11; 12; 13; 14; 15].
Proof.
  intros Hd.
  assert (H16 : 0 <= d < 16) by (destruct base_ok; lia).
  assert (Hn : d = Z.of_nat (Z.to_nat d)) by lia.
  rewrite Hn. clear Hn.
  assert (Hlt : (Z.to_nat d < 16)%nat) by lia.
  revert Hlt. generalize (Z.to_nat d). intros k Hk.
  do 16 (destruct k as [| k]; [simpl; tauto |]). lia.
Qed.

Lemma digit_val_char (d : Z) :
  0 <= d < base -> PyStr.digit_val (PyFmt.digit_char false d) = Some d.
Proof.
  intros Hd. pose proof (small_cases d Hd) as Hin.
  repeat (destruct Hin as [<- | Hin]; [reflexivity |]). destruct Hin.
Qed.

Lemma digit_is_word (c : ascii) : digit_of base c -> Re.is_word (Some c) = true.
Proof.
  intros (d & Hd & ->). pose proof (small_cases d Hd) as Hin.
  repeat (destruct Hin as [<- | Hin]; [reflexivity |]). destruct Hin.
Qed.

Lemma digit_not_special (c : ascii) :
  digit_of base c ->
  c <> "-"%char /\ c <> "+"%char /\ c <> "x"%char /\ c <> "X"%char
  /\ (base = 2 -> c <> "b"%char /\ c <> "B"%char).
Proof.
  intros (d & Hd & ->). pose proof (small_cases d Hd) as Hin.
  destruct base_ok as [-> | ->].
  - assert (Hc : d = 0 \/ d = 1) by lia.
    destruct Hc as [-> | ->]; repeat split; discriminate.
  - repeat (destruct Hin as [<- | Hin];
            [repeat split; try discriminate; intros; lia |]).
    destruct Hin.
Qed.

Lemma parse_digits_to_digits (fuel : nat) :
  forall (n : Z) (acc : string),
    0 <= n < 2 ^ Z.of_nat (S fuel) ->
    PyStr.parse_digits base (PyFmt.to_digits_aux fuel base false n acc) 0
    = PyStr.parse_digits base acc n.
Proof.
  assert (Hb : 2 <= base) by (destruct base_ok; lia).
  assert (Hlast : forall n acc, 0 <= n < base ->
            PyStr.parse_digits base (String (PyFmt.digit_char false n) acc) 0
            = PyStr.parse_digits base acc n).
  { intros n acc Hn. cbn [PyStr.parse_digits]. rewrite digit_val_char by exact Hn.
    replace (n <? base) with true by (symmetry; apply Z.ltb_lt; lia).
    f_equal. }
  induction fuel as [| f IH]; intros n acc Hn.
  - cbn [PyFmt.to_digits_aux]. apply Hlast. change (2 ^ Z.of_nat 1) with 2 in Hn. lia.
  - cbn [PyFmt.to_digits_aux].
    destruct (Z.ltb_spec n base) as [Hlt | Hge]; [apply Hlast; lia |].
    rewrite IH.
    + cbn [PyStr.parse_digits].
      assert (Hm : 0 <= n mod base < base) by (apply Z.mod_pos_bound; lia).
      rewrite digit_val_char by exact Hm.
      replace (n mod base <? base) with true by (symmetry; apply Z.ltb_lt; lia).
      f_equal. rewrite (Z.div_mod n base) at 3 by lia. ring.
    + split; [apply Z.div_pos; lia |].
      rewrite Nat2Z.inj_succ, Z.pow_succ_r in Hn by lia.
      apply Z.div_lt_upper_bound; [lia |].
      assert (0 < 2 ^ Z.of_nat (S f)) by (apply Z.pow_pos_nonneg; lia). nia.
Qed.

Lemma to_digits_aux_shape (fuel : nat) :
  forall (n : Z) (acc : string),
    0 <= n < 2 ^ Z.of_nat (S fuel) ->
    Forall (digit_of base) (list_ascii_of_string acc) ->
    Forall (digit_of base) (list_ascii_of_string (PyFmt.to_digits_aux fuel base false n acc))
    /\ PyFmt.to_digits_aux fuel base false n acc <> "".
Proof.
  assert (Hb : 2 <= base) by (destruct base_ok; lia).
  induction fuel as [| f IH]; intros n acc Hn Hacc.
  - cbn [PyFmt.to_digits_aux]. split; [| discriminate].
    cbn [list_ascii_of_string]. constructor; [| exact Hacc].
    exists n. change (2 ^ Z.of_nat 1) with 2 in Hn. split; [lia | reflexivity].
  - cbn [PyFmt.to_digits_aux].
    destruct (Z.ltb_spec n base) as [Hlt | Hge].
    + split; [| discriminate]. cbn [list_ascii_of_string].
      constructor; [| exact Hacc]. exists n. split; [lia | reflexivity].
    + apply IH.
      * split; [apply Z.div_pos; lia |].
        rewrite Nat2Z.inj_succ, Z.pow_succ_r in Hn by lia.
        apply Z.div_lt_upper_bound; [lia |].
        assert (0 < 2 ^ Z.of_nat (S f)) by (apply Z.pow_pos_nonneg; lia). nia.
      * cbn [list_ascii_of_string]. constructor; [| exact Hacc].
        exists (n mod base). split; [apply Z.mod_pos_bound; lia | reflexivity].
Qed.

Lemma fuel_enough (n : Z) : 0 <= n -> 0 <= n < 2 ^ Z.of_nat (S (Z.to_nat (Z.log2 n))).
Proof.
  intros Hn. split; [exact Hn |].
  destruct (Z.eq_dec n 0) as [-> | Hne]; [reflexivity |].
  rewrite Nat2Z.inj_succ, Z2Nat.id by apply Z.log2_nonneg.
  apply Z.log2_spec. lia.
Qed.

(** A non-empty string of digits of [base] carries neither a sign nor a
    prefix: [int] reads its digits. *)
Lemma int_digits_parse (s : string) :
  s <> "" -> Forall (digit_of base) (list_ascii_of_string s) ->
  PyStr.int s base = PyStr.parse_digits base s 0.
Proof.
  intros Hne Hall. destruct s as [| c r]; [congruence |].
  cbn [list_ascii_of_string] in Hall. inversion Hall as [| ? ? Hc Hr]; subst.
  destruct (digit_not_special c Hc) as (Hm & Hp & _).
  assert (Hint : PyStr.int (String c r) base = PyStr.parse_unsigned base (String c r)).
  { unfold PyStr.int.
    destruct c as [[] [] [] [] [] [] [] []]; try reflexivity; congruence. }
  rewrite Hint. unfold PyStr.parse_unsigned.
  assert (Hstrip : PyStr.strip_prefix base (String c r) = String c r).
  { destruct r as [| p r']; [destruct c as [[] [] [] [] [] [] [] []]; reflexivity |].
    cbn [list_ascii_of_string] in Hr. inversion Hr as [| ? ? Hpd _]; subst.
    destruct (digit_not_special p Hpd) as (_ & _ & Hx & HX & Hbb).
    unfold PyStr.strip_prefix.
    assert (Hob : ((base =? 2) && (Ascii.eqb p "b" || Ascii.eqb p "B")
                   || (base =? 8) && (Ascii.eqb p "o" || Ascii.eqb p "O")
                   || (base =? 16) && (Ascii.eqb p "x" || Ascii.eqb p "X"))%bool = false).
    { apply Ascii.eqb_neq in Hx, HX. rewrite Hx, HX.
      destruct base_ok as [-> | ->]; cbn.
      - destruct (Hbb eq_refl) as [H1 H2]. apply Ascii.eqb_neq in H1, H2.
        rewrite H1, H2. reflexivity.
      - reflexivity. }
    rewrite Hob.
    destruct c as [[] [] [] [] [] [] [] []]; reflexivity. }
  rewrite Hstrip. reflexivity.
Qed.

(** Rendering [0 <= n] in [base] and reading the digits back yields [n]. *)
Lemma int_to_digits (n : Z) :
  0 <= n ->
  PyStr.int (PyFmt.to_digits base false n) base = Some n
  /\ PyFmt.to_digits base false n <> ""
  /\ Forall (digit_of base) (list_ascii_of_string (PyFmt.to_digits base false n)).
Proof.
  intros Hn. unfold PyFmt.to_digits.
  destruct (to_digits_aux_shape (Z.to_nat (Z.log2 n)) n "" (fuel_enough n Hn))
    as [Hall Hne]; [constructor |].
  split; [| split; assumption].
  rewrite int_digits_parse by assumption.
  rewrite parse_digits_to_digits by (apply fuel_enough; exact Hn).
  reflexivity.
Qed.

End Digits.

Lemma twos_complement_sign_extends_witness :
  exists val,
    PyStr.int "1101" 2 = Some val /\ 0 <= val
    /\ twos_complement "1101" (PyStr.len "1101") 2
       = Some (if Z.testbit val (PyStr.len "1101" - 1)
               then val - 2 ^ PyStr.len "1101" else val).
Proof.
  apply (proj1 twos_complement_sign_extends "1101").
  split; [discriminate | reflexivity].
Defined.

(** ** Matching the default source patterns *)

Lemma plus_loop_S item k n s :
  Re.plus_loop item k (S n) s
  = item (fun s' =>
            if Nat.ltb (length (Re.ahead s')) (length (Re.ahead s)) then
              match Re.plus_loop item k n s' with
              | Some s'' => Some s''
              | None => k s'
              end
            else k s') s.
Proof. reflexivity. Qed.

Lemma rmatch_seq a b k s : Re.rmatch (Re.Seq a b) k s = Re.rmatch a (Re.rmatch b k) s.
Proof. reflexivity. Qed.

Lemma rmatch_empty k s : Re.rmatch Re.Empty k s = k s.
Proof. reflexivity. Qed.

Lemma rmatch_wordb k s :
  Re.rmatch Re.WordB k s = if Re.at_boundary s then k s else None.
Proof. reflexivity. Qed.

Lemma rmatch_group idx name a k s :
  Re.rmatch (Re.Group idx name a) k s
  = Re.rmatch a (fun s' => k (Re.close_group idx s s')) s.
Proof. reflexivity. Qed.

Lemma rmatch_plus a k s :
  Re.rmatch (Re.Plus a) k s = Re.plus_loop (Re.rmatch a) k (S (length (Re.ahead s))) s.
Proof. reflexivity. Qed.

Lemma rmatch_opt_none a k s :
  Re.rmatch a k s = None -> Re.rmatch (Re.Opt a) k s = k s.
Proof. intros H. cbn [Re.rmatch]. rewrite H. reflexivity. Qed.

Lemma rmatch_opt_some a k s r :
  Re.rmatch a k s = Some r -> Re.rmatch (Re.Opt a) k s = Some r.
Proof. intros H. cbn [Re.rmatch]. rewrite H. reflexivity. Qed.

(** A literal of two characters. *)
Lemma rmatch_lit2 c1 c2 k cons xs caps :
  Re.rmatch (Re.Seq (Re.Seq Re.Empty (Re.Chr c1)) (Re.Chr c2)) k
    (Re.mkState cons (c1 :: c2 :: xs) caps)
  = k (Re.mkState (c2 :: c1 :: cons) xs caps).
Proof.
  cbn [Re.rmatch]. unfold Re.step. cbn [Re.ahead Re.consumed Re.caps].
  rewrite Ascii.eqb_refl. cbn [Re.ahead Re.consumed Re.caps].
  rewrite Ascii.eqb_refl. reflexivity.
Qed.

Lemma rmatch_lit2_fail c1 c2 k cons xs caps :
  (forall r, xs <> c1 :: c2 :: r) ->
  Re.rmatch (Re.Seq (Re.Seq Re.Empty (Re.Chr c1)) (Re.Chr c2)) k
    (Re.mkState cons xs caps) = None.
Proof.
  intros Hno. cbn [Re.rmatch]. unfold Re.step. cbn [Re.ahead Re.consumed Re.caps].
  destruct xs as [| x xs']; [reflexivity |].
  destruct (Ascii.eqb_spec c1 x) as [<- | _]; [| reflexivity].
  cbn [Re.ahead Re.consumed Re.caps].
  destruct xs' as [| y xs'']; [reflexivity |].
  destruct (Ascii.eqb_spec c2 y) as [<- | _]; [| reflexivity].
  exfalso. apply (Hno xs''). reflexivity.
Qed.

Lemma rmatch_chr_end c k cons caps :
  Re.rmatch (Re.Chr c) k (Re.mkState cons [] caps) = None.
Proof. reflexivity. Qed.

Lemma rmatch_class negated ranges k s :
  Re.rmatch (Re.Class negated ranges) k s
  = match Re.step (Re.in_class negated ranges) s with
    | Some s' => k s'
    | None => None
    end.
Proof. reflexivity. Qed.

(** A [+] over a class takes every character ahead when all of them are in
    the class and the continuation accepts the end of the text. *)
Lemma plus_class_greedy (negated : bool) (ranges : list (ascii * ascii))
  (k : Re.mstate -> option Re.mstate) (xs : list ascii) :
  forall (n : nat) (cons : list ascii) (caps : list (nat * string)) (r : Re.mstate),
    xs <> [] ->
    Forall (fun c => Re.in_class negated ranges c = true) xs ->
    (length xs <= n)%nat ->
    k (Re.mkState (rev xs ++ cons) [] caps) = Some r ->
    Re.plus_loop (Re.rmatch (Re.Class negated ranges)) k n (Re.mkState cons xs caps)
    = Some r.
Proof.
  induction xs as [| c xs IH]; intros n cons caps r Hne Hall Hlen Hk; [congruence |].
  destruct n as [| n]; [simpl in Hlen; lia |].
  inversion Hall as [| ? ? Hc Hxs]; subst.
  rewrite plus_loop_S, rmatch_class. unfold Re.step. cbn [Re.ahead Re.consumed Re.caps].
  rewrite Hc. cbn [Re.ahead length].
  replace (Nat.ltb (length xs) (S (length xs))) with true
    by (symmetry; apply Nat.ltb_lt; lia).
  destruct xs as [| c' xs'].
  - assert (Hstop : Re.plus_loop (Re.rmatch (Re.Class negated ranges)) k n
                      (Re.mkState (c :: cons) [] caps) = None).
    { destruct n; reflexivity. }
    rewrite Hstop. exact Hk.
  - rewrite (IH n (c :: cons) caps r);
      [reflexivity | discriminate | exact Hxs | simpl in *; lia |].
    cbn [rev] in *. rewrite <- !app_assoc in *. exact Hk.
Qed.

Lemma between_all (xs cons : list ascii) (caps caps' : list (nat * string)) :
  Re.between (Re.mkState cons xs caps) (Re.mkState (rev xs ++ cons) [] caps')
  = string_of_list_ascii xs.
Proof.
  unfold Re.between. cbn [Re.consumed]. rewrite length_app, length_rev.
  replace (length xs + length cons - length cons)%nat with (length (rev xs))
    by (rewrite length_rev; lia).
  rewrite firstn_app, Nat.sub_diag, firstn_all. cbn [firstn].
  rewrite app_nil_r, rev_involutive. reflexivity.
Qed.

(** The end of a text of word characters is a word boundary. *)
Lemma boundary_at_end (xs cons : list ascii) (caps : list (nat * string)) :
  xs <> [] -> Forall (fun c => Re.is_word (Some c) = true) xs ->
  Re.at_boundary (Re.mkState (rev xs ++ cons) [] caps) = true.
Proof.
  intros Hne Hall. unfold Re.at_boundary. cbn [Re.consumed Re.ahead List.head].
  destruct (rev xs) as [| c r] eqn:E.
  - apply (f_equal (@length ascii)) in E. rewrite length_rev in E.
    destruct xs; [congruence | discriminate].
  - apply Forall_rev in Hall. rewrite E in Hall. inversion Hall; subst.
    cbn [app List.head]. rewrite H1. reflexivity.
Qed.

Lemma compile_src_bin : Re.compile _CONVERT_SRC_BIN_DFLT = SRC_BIN.
Proof. vm_compute. reflexivity. Qed.

Lemma compile_src_hex : Re.compile _CONVERT_SRC_HEX_DFLT = SRC_HEX.
Proof. vm_compute. reflexivity. Qed.

(** The binary source pattern on a text of binary digits: the group 1 is
    the whole text. *)
Lemma match_src_bin (r : Re.Pattern) (text : string) :
  SRC_BIN = Some r ->
  text <> "" -> Forall (digit_of 2) (list_ascii_of_string text) ->
  exists m, Re.match_ r text = Some m /\ Re.group m 1 = Some text.
Proof.
  intros Hr Hne Hall. injection Hr as <-.
  unfold Re.match_. cbn [Re.syntax].
  remember (list_ascii_of_string text) as xs eqn:Exs.
  assert (Htext : text = string_of_list_ascii xs)
    by (subst xs; symmetry; apply string_of_list_ascii_of_string).
  assert (Hxs : xs <> []).
  { intros ->. apply Hne. exact Htext. }
  assert (Hw : Forall (fun c => Re.is_word (Some c) = true) xs).
  { eapply List.Forall_impl; [| exact Hall]. intros c. apply digit_is_word. left; reflexivity. }
  assert (Hcls : Forall (fun c => Re.in_class false [("0", "0"); ("1", "1")]%char c = true) xs).
  { eapply List.Forall_impl; [| exact Hall]. intros c (d & Hd & ->).
    assert (Hc : d = 0 \/ d = 1) by lia. destruct Hc as [-> | ->]; reflexivity. }
  assert (Hstart : Re.at_boundary (Re.mkState [] xs []) = true).
  { destruct xs as [| c xs']; [congruence |]. inversion Hw; subst.
    unfold Re.at_boundary. cbn [Re.consumed Re.ahead List.head].
    rewrite H1. reflexivity. }
  assert (Hno : forall r, xs <> "0"%char :: "b"%char :: r).
  { intros r ->. inversion Hall as [| ? ? _ Hall']; subst.
    inversion Hall' as [| ? ? Hp _]; subst.
    destruct (digit_not_special 2 (or_introl eq_refl) _ Hp) as (_ & _ & _ & _ & Hb).
    destruct (Hb eq_refl) as [Hb' _]. congruence. }
  match goal with
  | |- context [Re.rmatch ?R Some ?S] =>
      assert (Hrun : Re.rmatch R Some S
                     = Some (Re.mkState (rev xs ++ []) [] [(1%nat, text)]))
  end.
  { rewrite !rmatch_seq, rmatch_empty, rmatch_wordb, Hstart.
    rewrite rmatch_opt_none by (apply rmatch_lit2_fail; exact Hno).
    rewrite rmatch_group, rmatch_seq, rmatch_empty, rmatch_plus.
    apply plus_class_greedy; [exact Hxs | exact Hcls | cbn [Re.ahead]; lia |].
    rewrite rmatch_wordb. unfold Re.close_group. cbn [Re.consumed Re.ahead Re.caps].
    rewrite between_all, <- Htext.
    pose proof (boundary_at_end xs [] [(1%nat, text)] Hxs Hw) as Hend.
    unfold Re.at_boundary in *. cbn [Re.consumed Re.ahead] in *. rewrite Hend.
    reflexivity. }
  rewrite Hrun. eexists. split; reflexivity.
Qed.

(** The hexadecimal source pattern on [0x] and hexadecimal digits: the
    group 1 is the digits. *)
Lemma match_src_hex (r : Re.Pattern) (digits : string) :
  SRC_HEX = Some r ->
  digits <> "" -> Forall (digit_of 16) (list_ascii_of_string digits) ->
  exists m, Re.match_ r ("0x" ++ digits) = Some m /\ Re.group m 1 = Some digits.
Proof.
  intros Hr Hne Hall. injection Hr as <-.
  unfold Re.match_. cbn [Re.syntax].
  change (list_ascii_of_string ("0x" ++ digits))
    with ("0"%char :: "x"%char :: list_ascii_of_string digits).
  remember (list_ascii_of_string digits) as xs eqn:Exs.
  assert (Htext : digits = string_of_list_ascii xs)
    by (subst xs; symmetry; apply string_of_list_ascii_of_string).
  assert (Hxs : xs <> []).
  { intros ->. apply Hne. exact Htext. }
  assert (Hw : Forall (fun c => Re.is_word (Some c) = true) xs).
  { eapply List.Forall_impl; [| exact Hall]. intros c. apply digit_is_word. right; reflexivity. }
  assert (Hcls : Forall (fun c =>
            Re.in_class false [("0", "9"); ("a", "f"); ("A", "F")]%char c = true) xs).
  { eapply List.Forall_impl; [| exact Hall]. intros c (d & Hd & ->).
    pose proof (small_cases 16 (or_intror eq_refl) d Hd) as Hin.
    repeat (destruct Hin as [<- | Hin]; [reflexivity |]). destruct Hin. }
  match goal with
  | |- context [Re.rmatch ?R Some ?S] =>
      assert (Hrun : Re.rmatch R Some S
                     = Some (Re.mkState (rev xs ++ ["x"; "0"]%char) [] [(1%nat, digits)]))
  end.
  { rewrite !rmatch_seq, rmatch_empty, rmatch_wordb.
    change (Re.at_boundary (Re.mkState [] ("0"%char :: "x"%char :: xs) [])) with true.
    cbv iota.
    apply rmatch_opt_some.
    rewrite rmatch_lit2.
    rewrite rmatch_group, rmatch_seq, rmatch_empty, rmatch_plus.
    apply plus_class_greedy; [exact Hxs | exact Hcls | cbn [Re.ahead]; lia |].
    unfold Re.close_group. cbn [Re.consumed Re.ahead Re.caps].
    rewrite between_all, <- Htext.
    rewrite rmatch_opt_none by apply rmatch_chr_end.
    rewrite rmatch_wordb.
    pose proof (boundary_at_end xs ["x"; "0"]%char [(1%nat, digits)] Hxs Hw) as Hend.
    unfold Re.at_boundary in *. cbn [Re.consumed Re.ahead] in *. rewrite Hend.
    reflexivity. }
  rewrite Hrun. eexists. split; reflexivity.
Qed.

(** ** Round trip through the destination formats and the source patterns *)

Lemma append_empty_r (s : string) : s ++ "" = s.
Proof.
  induction s as [| c r IH]; [reflexivity |].
  change (String c (r ++ "") = String c r). f_equal. exact IH.
Qed.

Lemma load_pattern_default {P : Type} (compile : string -> option P)
  (settings : gmap string string) (name dflt : string) :
  settings !! name = None ->
  load_pattern compile settings name dflt = compile dflt.
Proof.
  intros Hno. unfold load_pattern, settings_get. rewrite Hno.
  destruct (compile dflt); reflexivity.
Qed.



(** ** The pattern registry *)

(** C8: for every source slot and every override whose compilation fails,
    [load_pattern] returns the compiled built-in default of the slot and does not
    raise. *)
Theorem load_pattern_fallback {P : Type} (compile : string -> option P)
  (settings : gmap string string) (name dflt override : string) (p : P) :
  In (name, dflt) source_slots ->
  compile dflt = Some p ->
  settings !! name = Some override ->
  compile override = None ->
  load_pattern compile settings name dflt = Some p.
Proof.
  intros _ Hd Hs Ho. unfold load_pattern, settings_get. rewrite Hs, Ho. exact Hd.
Qed.

Lemma load_pattern_fallback_witness :
  exists p,
    SRC_BIN = Some p
    /\ load_pattern Re.compile (<["convert_src_bin" := "([01]+"]> ∅)
         "convert_src_bin" _CONVERT_SRC_BIN_DFLT = Some p.
Proof.
  destruct SRC_BIN as [p |] eqn:E; [| discriminate].
  exists p. split; [reflexivity |].
  apply (load_pattern_fallback Re.compile _ _ _ "([01]+" p).
  - left. reflexivity.
  - rewrite compile_src_bin. exact E.
  - reflexivity.
  - vm_compute. reflexivity.
Defined.

(** Every built-in source pattern compiles. *)
Lemma defaults_compile :
  Forall (fun slot => Re.compile (snd slot) <> None) source_slots.
Proof. repeat constructor; vm_compute; discriminate. Qed.

(** ** Batches *)

Lemma run_loop_spec (convert : string -> option string) (sels : list string) :
  forall (i : nat) (edits : list (nat * string)) (skipped : nat),
    run_loop convert i sels edits skipped
    = ((edits ++ conversions convert i sels)%list, (skipped + failures convert sels)%nat).
Proof.
  induction sels as [| sel rest IH]; intros i edits skipped.
  - cbn. rewrite app_nil_r, Nat.add_0_r. reflexivity.
  - cbn [run_loop conversions failures]. destruct (convert sel) as [new |].
    + rewrite IH, <- app_assoc. reflexivity.
    + rewrite IH. f_equal. lia.
Qed.

Lemma run_command_spec (convert : string -> option string) (kind : string)
  (sels : list string) :
  replaced (run_command convert kind sels) = conversions convert 0 sels
  /\ num_skip (run_command convert kind sels) = failures convert sels.
Proof.
  unfold run_command. rewrite run_loop_spec. cbn. split; reflexivity.
Qed.


Lemma conversions_texts (convert : string -> option string) (sels : list string) :
  forall i, map snd (conversions convert i sels) = omap convert sels.
Proof.
  induction sels as [| sel rest IH]; intros i; [reflexivity |].
  cbn [conversions omap list_omap]. destruct (convert sel); cbn; rewrite IH; reflexivity.
Qed.




(** ** Decimal arithmetic within the precision *)

Lemma pow10_pos (n : Z) : 0 <= n -> 1 <= 10 ^ n.
Proof. intros Hn. assert (0 < 10 ^ n) by (apply Z.pow_pos_nonneg; lia). lia. Qed.

Lemma pow10_split (a b : Z) : 0 <= a -> 0 <= b -> 10 ^ (a + b) = 10 ^ a * 10 ^ b.
Proof. intros. apply Z.pow_add_r; assumption. Qed.

(** A coefficient within the precision is left as it is. *)
Lemma fix_small (p : Z) (d : Dec.Decimal) :
  Z.abs (Dec.coeff d) < 10 ^ p -> Dec.fix_ p d = d.
Proof.
  intros H. unfold Dec.fix_.
  replace (Z.abs (Dec.coeff d) <? 10 ^ p) with true by (symmetry; apply Z.ltb_lt; exact H).
  reflexivity.
Qed.

Lemma fix_units (p k c e s : Z) :
  - k <= e <= 0 -> c * 10 ^ (k + e) = s -> Z.abs s < 10 ^ p ->
  Dec.fix_ p (Dec.mk c e) = Dec.mk c e.
Proof.
  intros He Hs Hlt. apply fix_small. cbn [Dec.coeff].
  assert (Hm : 1 <= 10 ^ (k + e)) by (apply pow10_pos; lia).
  assert (Z.abs c <= Z.abs s); [| lia].
  rewrite <- Hs, Z.abs_mul, (Z.abs_eq (10 ^ (k + e))) by lia.
  pose proof (Z.abs_nonneg c). nia.
Qed.

(** An addition whose exact result fits the precision is exact. *)
Lemma add_units (p k : Z) (a b : Dec.Decimal) :
  0 <= p ->
  - k <= Dec.expo a <= 0 -> - k <= Dec.expo b <= 0 ->
  Z.abs (units k a + units k b) < 10 ^ p ->
  units k (Dec.add p a b) = units k a + units k b
  /\ - k <= Dec.expo (Dec.add p a b) <= 0.
Proof.
  intros Hp Ha Hb Hfit. destruct a as [ca ea], b as [cb eb].
  unfold units in *. cbn [Dec.coeff Dec.expo] in *. unfold Dec.add. cbn [Dec.coeff Dec.expo].
  set (e := Z.min ea eb).
  assert (He : - k <= e <= 0 /\ e <= ea /\ e <= eb) by (unfold e; lia).
  destruct (Z.eqb_spec ca 0) as [-> | Hca]; destruct (Z.eqb_spec cb 0) as [-> | Hcb];
    cbn [andb].
  - rewrite (fix_units p k 0 e 0) by (try lia; apply Z.pow_pos_nonneg; lia).
    cbn [Dec.coeff Dec.expo]. lia.
  - set (e' := Z.max e (eb - p - 1)).
    assert (He' : - k <= e' <= 0 /\ e' <= eb) by (unfold e'; lia).
    assert (Hs : cb * 10 ^ (eb - e') * 10 ^ (k + e') = cb * 10 ^ (k + eb)).
    { rewrite <- Z.mul_assoc, <- pow10_split by lia. do 2 f_equal. lia. }
    rewrite (fix_units p k _ e' _ (proj1 He') Hs) by (rewrite Z.mul_0_l, Z.add_0_l in Hfit; exact Hfit).
    cbn [Dec.coeff Dec.expo]. lia.
  - set (e' := Z.max e (ea - p - 1)).
    assert (He' : - k <= e' <= 0 /\ e' <= ea) by (unfold e'; lia).
    assert (Hs : ca * 10 ^ (ea - e') * 10 ^ (k + e') = ca * 10 ^ (k + ea)).
    { rewrite <- Z.mul_assoc, <- pow10_split by lia. do 2 f_equal. lia. }
    rewrite (fix_units p k _ e' _ (proj1 He') Hs) by (rewrite Z.mul_0_l, Z.add_0_r in Hfit; exact Hfit).
    cbn [Dec.coeff Dec.expo]. lia.
  - assert (Hs : (ca * 10 ^ (ea - e) + cb * 10 ^ (eb - e)) * 10 ^ (k + e)
                 = ca * 10 ^ (k + ea) + cb * 10 ^ (k + eb)).
    { rewrite Z.mul_add_distr_r, <- !Z.mul_assoc, <- !pow10_split by lia.
      do 3 f_equal; lia. }
    rewrite (fix_units p k _ e _ (proj1 He) Hs Hfit).
    cbn [Dec.coeff Dec.expo]. lia.
Qed.

Lemma pow5_lt_pow10 (j : Z) : 0 < j -> 5 ^ j < 10 ^ j.
Proof.
  intros Hj. apply Z.pow_lt_mono_l; lia.
Qed.

(** [Decimal(2) ** Decimal(-j)] is exact up to [j = prec]. *)
Lemma pow2_neg (p j : Z) :
  0 < j <= p -> Dec.pow2 p (- j) = Dec.mk (5 ^ j) (- j).
Proof.
  intros Hj. unfold Dec.pow2.
  replace (0 <=? - j) with false by (symmetry; apply Z.leb_gt; lia).
  rewrite Z.opp_involutive. apply fix_small. cbn [Dec.coeff].
  assert (0 < 5 ^ j) by (apply Z.pow_pos_nonneg; lia).
  rewrite Z.abs_eq by lia.
  apply Z.lt_le_trans with (10 ^ j); [apply pow5_lt_pow10; lia |].
  apply Z.pow_le_mono_r; lia.
Qed.

(** [Decimal(2) ** Decimal(n)] is exact while [2 ^ n] fits the precision. *)
Lemma pow2_nonneg (p n : Z) :
  0 <= n -> 2 ^ n < 10 ^ p -> Dec.pow2 p n = Dec.mk (2 ^ n) 0.
Proof.
  intros Hn Hfit. unfold Dec.pow2.
  replace (0 <=? n) with true by (symmetry; apply Z.leb_le; lia).
  apply fix_small. cbn [Dec.coeff].
  assert (0 < 2 ^ n) by (apply Z.pow_pos_nonneg; lia).
  rewrite Z.abs_eq by lia. exact Hfit.
Qed.

(** The weight of the digit of index [i - 1], in units of [10 ^ (- k)]. *)
Lemma weight_halves (k i : Z) :
  0 <= i < k ->
  5 ^ i * 10 ^ (k - i) = 2 * (5 ^ (i + 1) * 10 ^ (k - i - 1)).
Proof.
  intros Hi.
  assert (H10 : 10 ^ (k - i) = 10 * 10 ^ (k - i - 1)).
  { rewrite <- Z.pow_succ_r by lia. f_equal. lia. }
  assert (H5 : 5 ^ (i + 1) = 5 * 5 ^ i).
  { rewrite <- Z.pow_succ_r by lia. f_equal. }
  rewrite H10, H5. ring.
Qed.

(** The loop of [UFixedToDecimal] is exact while the digits fit the
    precision: it adds the weights of the ones, and the sum stays one weight
    below 1. *)
Lemma frac_loop_units (k : Z) (F : string) :
  k <= prec ->
  forall (i : Z) (value : Dec.Decimal),
    0 <= i -> i + PyStr.len F <= k ->
    - k <= Dec.expo value <= 0 ->
    0 <= units k value ->
    units k value + 5 ^ i * 10 ^ (k - i) <= 10 ^ k ->
    let r := frac_loop i F value in
    - k <= Dec.expo r <= 0
    /\ units k r = units k value + frac_units k i F
    /\ 0 <= units k r
    /\ units k r + 5 ^ (i + PyStr.len F) * 10 ^ (k - (i + PyStr.len F)) <= 10 ^ k.
Proof.
  intros Hk. induction F as [| digit rest IH]; intros i value Hi Hlen He Hpos Hroom.
  - cbn [frac_loop frac_units]. unfold PyStr.len. cbn [String.length Z.of_nat].
    rewrite !Z.add_0_r. auto.
  - unfold PyStr.len in Hlen. cbn [String.length] in Hlen. rewrite Nat2Z.inj_succ in Hlen.
    fold (PyStr.len rest) in Hlen.
    assert (Hlenr : 0 <= PyStr.len rest) by (unfold PyStr.len; lia).
    assert (Hik : 0 <= i < k) by lia.
    pose proof (weight_halves k i Hik) as Hw.
    assert (Hwpos : 0 < 5 ^ (i + 1) * 10 ^ (k - i - 1)).
    { apply Z.mul_pos_pos; apply Z.pow_pos_nonneg; lia. }
    assert (H10 : 10 ^ k <= 10 ^ prec) by (apply Z.pow_le_mono_r; lia).
    cbn [frac_loop frac_units].
    assert (Hgoal : forall r : Dec.Decimal,
              - k <= Dec.expo r <= 0 ->
              units k r = units k value
                          + (if Ascii.eqb digit "1" then 5 ^ (i + 1) * 10 ^ (k - i - 1) else 0) ->
              let r' := frac_loop (i + 1) rest r in
              - k <= Dec.expo r' <= 0
              /\ units k r' = units k value
                              + ((if Ascii.eqb digit "1" then 5 ^ (i + 1) * 10 ^ (k - i - 1) else 0)
                                 + frac_units k (i + 1) rest)
              /\ 0 <= units k r'
              /\ units k r' + 5 ^ (i + PyStr.len (String digit rest))
                              * 10 ^ (k - (i + PyStr.len (String digit rest))) <= 10 ^ k).
    { intros r Her Hur.
      assert (Hstep : 0 <= units k r /\ units k r + 5 ^ (i + 1) * 10 ^ (k - (i + 1)) <= 10 ^ k).
      { replace (k - (i + 1)) with (k - i - 1) by lia.
        destruct (Ascii.eqb digit "1"); lia. }
      destruct (IH (i + 1) r) as (H1 & H2 & H3 & H4); try lia.
      cbv zeta. split; [exact H1 |]. split; [lia |]. split; [exact H3 |].
      replace (i + PyStr.len (String digit rest)) with (i + 1 + PyStr.len rest); [exact H4 |].
      unfold PyStr.len. cbn [String.length]. lia. }
    destruct (Ascii.eqb digit "1") eqn:Ed.
    + replace (- i - 1) with (- (i + 1)) by lia.
      rewrite pow2_neg by (unfold prec in *; lia).
      set (term := Dec.mk (5 ^ (i + 1)) (- (i + 1))).
      assert (Hterm : units k term = 5 ^ (i + 1) * 10 ^ (k - i - 1)).
      { unfold units, term. cbn [Dec.coeff Dec.expo]. do 2 f_equal. lia. }
      destruct (add_units prec k value term) as [Hu Hex];
        [unfold prec; lia | exact He | unfold term; cbn [Dec.expo]; lia
         | rewrite Hterm; rewrite Z.abs_eq by lia; lia |].
      apply Hgoal; [exact Hex | rewrite Hu, Hterm; reflexivity].
    + apply Hgoal; [exact He | lia].
Qed.

(** ** From units to rational values *)

Lemma qpow_cancel (b e k : Z) :
  0 < b -> 0 <= k -> 0 <= k + e ->
  (Qpower (inject_Z b) e * inject_Z (b ^ k) == inject_Z (b ^ (k + e)))%Q.
Proof.
  intros Hb Hk Hke.
  rewrite !Zpower_Qpower by lia.
  rewrite Qpower_plus.
  - apply Qmult_comm.
  - intros H. unfold Qeq in H. cbn in H. lia.
Qed.

Lemma to_Q_units (k : Z) (d : Dec.Decimal) :
  - k <= Dec.expo d <= 0 ->
  (Dec.to_Q d * inject_Z (10 ^ k) == inject_Z (units k d))%Q.
Proof.
  intros He. unfold Dec.to_Q, units. rewrite inject_Z_mult, <- Qmult_assoc.
  apply Qmult_comp; [reflexivity |].
  apply (qpow_cancel 10); lia.
Qed.

Lemma pow10_factor (k j : Z) :
  0 <= j <= k -> 10 ^ k = 2 ^ j * (5 ^ j * 10 ^ (k - j)).
Proof.
  intros Hj. replace k with (j + (k - j)) at 1 by lia.
  rewrite Z.pow_add_r by lia. change 10 with (2 * 5) at 1.
  rewrite Z.pow_mul_l. ring.
Qed.

Lemma frac_sum_units (k : Z) (F : string) :
  forall i : Z,
    0 <= i -> i + PyStr.len F <= k ->
    (frac_sum i F * inject_Z (10 ^ k) == inject_Z (frac_units k i F))%Q.
Proof.
  induction F as [| digit rest IH]; intros i Hi Hlen.
  - cbn [frac_sum frac_units]. apply Qmult_0_l.
  - unfold PyStr.len in Hlen. cbn [String.length] in Hlen. rewrite Nat2Z.inj_succ in Hlen.
    fold (PyStr.len rest) in Hlen.
    assert (Hlenr : 0 <= PyStr.len rest) by (unfold PyStr.len; lia).
    cbn [frac_sum frac_units].
    rewrite Qmult_plus_distr_l, inject_Z_plus, (IH (i + 1)) by lia.
    apply Qplus_comp; [| reflexivity].
    destruct (Ascii.eqb digit "1"); [| apply Qmult_0_l].
    rewrite (pow10_factor k (i + 1)) by lia.
    replace (k - (i + 1)) with (k - i - 1) by lia.
    rewrite (inject_Z_mult (2 ^ (i + 1))), Qmult_assoc.
    change 2%Q with (inject_Z 2).
    rewrite (qpow_cancel 2 (- (i + 1)) (i + 1)) by lia.
    replace (i + 1 + - (i + 1)) with 0 by lia.
    cbn [Z.pow]. apply Qmult_1_l.
Qed.

Lemma units_zero (k : Z) : units k (Dec.of_Z 0) = 0.
Proof. unfold units. cbn [Dec.of_Z Dec.coeff]. apply Z.mul_0_l. Qed.

Lemma units_of_Z (k n : Z) : units k (Dec.of_Z n) = n * 10 ^ k.
Proof. unfold units. cbn [Dec.of_Z Dec.coeff Dec.expo]. rewrite Z.add_0_r. reflexivity. Qed.

(** The loop from [Decimal(0)] on: the value is the sum of the weights. *)
Lemma frac_loop_from_zero (k : Z) (F : string) :
  PyStr.len F <= k -> k <= prec ->
  - k <= Dec.expo (frac_loop 0 F (Dec.of_Z 0)) <= 0
  /\ units k (frac_loop 0 F (Dec.of_Z 0)) = frac_units k 0 F
  /\ 0 <= frac_units k 0 F < 10 ^ k.
Proof.
  intros Hlen Hk.
  assert (Hlenr : 0 <= PyStr.len F) by (unfold PyStr.len; lia).
  destruct (frac_loop_units k F Hk 0 (Dec.of_Z 0)) as (He & Hu & Hpos & Hroom).
  - lia.
  - lia.
  - cbn [Dec.of_Z Dec.expo]. lia.
  - rewrite units_zero. lia.
  - rewrite units_zero, Z.sub_0_r. cbn [Z.pow]. lia.
  - rewrite units_zero, Z.add_0_l in Hu. rewrite Hu in *.
    assert (0 < 5 ^ (0 + PyStr.len F) * 10 ^ (k - (0 + PyStr.len F))).
    { apply Z.mul_pos_pos; apply Z.pow_pos_nonneg; lia. }
    split; [exact He |]. split; [reflexivity | lia].
Qed.

(** [UFixedToDecimal] is exact when the integer and the fractional digits
    fit the precision together. *)
Lemma ufixed_units (matches : gmap string string) (I F : string) (n : Z) :
  matches !! "int" = Some I -> matches !! "frac" = Some F ->
  PyStr.int I 2 = Some n -> 0 <= n ->
  (n + 1) * 10 ^ PyStr.len F <= 10 ^ prec ->
  exists d,
    UFixedToDecimal matches = Some d
    /\ - PyStr.len F <= Dec.expo d <= 0
    /\ units (PyStr.len F) d = n * 10 ^ PyStr.len F + frac_units (PyStr.len F) 0 F
    /\ 0 <= frac_units (PyStr.len F) 0 F < 10 ^ PyStr.len F.
Proof.
  intros HI HF Hint Hn Hfit.
  set (k := PyStr.len F) in *.
  assert (Hk0 : 0 <= k) by (unfold k, PyStr.len; lia).
  assert (Hk : k <= prec).
  { apply (Z.pow_le_mono_r_iff 10); [lia | unfold prec; lia |].
    assert (0 < 10 ^ k) by (apply Z.pow_pos_nonneg; lia). nia. }
  destruct (frac_loop_from_zero k F (Z.le_refl _) Hk) as (He & Hu & Hb).
  pose proof (units_of_Z k n) as Hun.
  destruct (add_units prec k (Dec.of_Z n) (frac_loop 0 F (Dec.of_Z 0))) as [Hsum Hex];
    [unfold prec; lia | cbn [Dec.of_Z Dec.expo]; lia | exact He | |].
  { rewrite Hun, Hu. rewrite Z.abs_eq by nia. nia. }
  exists (Dec.add prec (Dec.of_Z n) (frac_loop 0 F (Dec.of_Z 0))).
  split; [| split; [exact Hex | split; [| exact Hb]]].
  - unfold UFixedToDecimal. rewrite HI. cbn [mbind option_bind]. rewrite Hint.
    cbn [mbind option_bind]. rewrite HF. reflexivity.
  - rewrite Hsum, Hun, Hu. reflexivity.
Qed.

Lemma units_to_Q (k : Z) (d : Dec.Decimal) (q : Q) :
  0 <= k -> - k <= Dec.expo d <= 0 ->
  (q * inject_Z (10 ^ k) == inject_Z (units k d))%Q ->
  (Dec.to_Q d == q)%Q.
Proof.
  intros Hk He Hq.
  apply (Qmult_inj_r _ _ (inject_Z (10 ^ k))).
  - intros H. unfold Qeq in H. cbn in H.
    assert (0 < 10 ^ k) by (apply Z.pow_pos_nonneg; lia). lia.
  - rewrite to_Q_units by exact He. symmetry. exact Hq.
Qed.

Lemma fixed_groups_int (I F : string) : fixed_groups I F !! "int" = Some I.
Proof. unfold fixed_groups. apply lookup_insert_eq. Qed.

Lemma fixed_groups_frac (I F : string) : fixed_groups I F !! "frac" = Some F.
Proof.
  unfold fixed_groups. rewrite lookup_insert_ne by discriminate. apply lookup_insert_eq.
Qed.

(** ** The unsigned fixed-point conversion *)

(** C2, within the precision of the context: for every string [I] of binary
    digits and every string [F] such that [2 ^ len(I) * 10 ^ len(F) <= 10 ^ 128],
    [UFixedToDecimal] returns the integer [I] stands for in base 2 plus the
    sum, over the positions [i] of [F] that hold a [1], of [2 ^ (- (i + 1))]. *)
Theorem ufixed_exact (I F : string) :
  PyStr.is_bits I ->
  2 ^ PyStr.len I * 10 ^ PyStr.len F <= 10 ^ prec ->
  exists d n,
    UFixedToDecimal (fixed_groups I F) = Some d
    /\ PyStr.int I 2 = Some n
    /\ (Dec.to_Q d == inject_Z n + frac_sum 0 F)%Q.
Proof.
  intros HI Hfit.
  destruct (int_bits I HI) as (n & Hint & Hn).
  assert (Hk0 : 0 <= PyStr.len F) by (unfold PyStr.len; lia).
  assert (H10 : 0 < 10 ^ PyStr.len F) by (apply Z.pow_pos_nonneg; lia).
  destruct (ufixed_units (fixed_groups I F) I F n) as (d & Hd & He & Hu & _);
    [apply fixed_groups_int | apply fixed_groups_frac | exact Hint | lia | nia |].
  exists d, n. split; [exact Hd |]. split; [exact Hint |].
  apply (units_to_Q (PyStr.len F)); [exact Hk0 | exact He |].
  rewrite Hu, Qmult_plus_distr_l, inject_Z_plus, inject_Z_mult.
  rewrite frac_sum_units by lia. reflexivity.
Qed.

Lemma ufixed_exact_witness :
  exists d n,
    UFixedToDecimal (fixed_groups "101" "110") = Some d
    /\ PyStr.int "101" 2 = Some n
    /\ (Dec.to_Q d == inject_Z n + frac_sum 0 "110")%Q.
Proof.
  apply (ufixed_exact "101" "110").
  - split; [discriminate | reflexivity].
  - vm_compute. discriminate.
Defined.

(** The example of the specification: [101.110] is [5.75]. *)
Lemma ufixed_101_110 :
  UFixedToDecimal (fixed_groups "101" "110") = Some (Dec.mk 575 (-2))
  /\ (Dec.to_Q (Dec.mk 575 (-2)) == 575 # 100)%Q
  /\ Dec.to_string (Dec.mk 575 (-2)) = "5.75".
Proof. split; [| split]; vm_compute; reflexivity. Qed.

(** C2 as stated fails beyond the precision: on [1.0...01] with 130
    fractional digits the exact value [1 + 2 ^ (-130)] needs 131 digits, and
    the sum is rounded to 128. *)
Lemma ufixed_rounds_beyond_precision :
  ~ (exists d n,
        UFixedToDecimal (fixed_groups "1" (zeros_one 129)) = Some d
        /\ PyStr.int "1" 2 = Some n
        /\ (Dec.to_Q d == inject_Z n + frac_sum 0 (zeros_one 129))%Q).
Proof.
  intros (d & n & Hd & Hn & Hq).
  vm_compute in Hd. injection Hd as <-.
  vm_compute in Hn. injection Hn as <-.
  vm_compute in Hq. discriminate Hq.
Qed.

(** ** The signed fixed-point conversion *)

(** With a leading zero, [FixedToDecimal] is [UFixedToDecimal]. *)
Lemma fixed_leading_zero (matches : gmap string string) (I : string) :
  matches !! "int" = Some I -> PyStr.head I = Some "0"%char ->
  FixedToDecimal matches = UFixedToDecimal matches.
Proof.
  intros HI Hh. unfold FixedToDecimal. rewrite HI. cbn [mbind option_bind].
  rewrite Hh. reflexivity.
Qed.

(** With another leading character, the result is [start + add]. *)
Lemma fixed_leading_one (matches : gmap string string) (I : string) (c : ascii) :
  matches !! "int" = Some I -> PyStr.head I = Some c -> c <> "0"%char ->
  FixedToDecimal matches
  = match UFixedToDecimal (<["int" := String "0" (PyStr.tail I)]> matches) with
    | Some add =>
        Some (Dec.add prec (Dec.neg prec (Dec.pow2 prec (PyStr.len I - 1))) add)
    | None => None
    end.
Proof.
  intros HI Hh Hc. unfold FixedToDecimal. rewrite HI. cbn [mbind option_bind].
  rewrite Hh. cbn [mbind option_bind].
  replace (Ascii.eqb c "0") with false by (symmetry; apply Ascii.eqb_neq; exact Hc).
  reflexivity.
Qed.

Lemma fixed_groups_replace (I I' F : string) :
  <["int" := I']> (fixed_groups I F) = fixed_groups I' F.
Proof. unfold fixed_groups. apply insert_insert_eq. Qed.

(** The digits behind a leading bit, read behind a zero. *)
Lemma int_zero_tail (c : ascii) (rest : string) :
  PyStr.is_bits (String c rest) ->
  exists n, PyStr.int (String "0" rest) 2 = Some n /\ 0 <= n < 2 ^ PyStr.len rest.
Proof.
  intros [_ Hb]. cbn [PyStr.all_bits] in Hb. apply andb_true_iff in Hb as [_ Hr].
  assert (Hz : PyStr.is_bits (String "0" rest)).
  { split; [discriminate |]. cbn [PyStr.all_bits]. rewrite Hr. reflexivity. }
  rewrite (int_bits_parse _ Hz).
  destruct (parse_digits_bits rest Hr 0) as (n & Hn & Hrange).
  exists n. split; [exact Hn | lia].
Qed.

Lemma fixed_signed_units (I F : string) :
  PyStr.is_bits I -> PyStr.head I = Some "1"%char ->
  2 ^ PyStr.len I * 10 ^ PyStr.len F <= 10 ^ prec ->
  exists d u n,
    FixedToDecimal (fixed_groups I F) = Some d
    /\ UFixedToDecimal (fixed_groups (String "0" (PyStr.tail I)) F) = Some u
    /\ PyStr.int (String "0" (PyStr.tail I)) 2 = Some n
    /\ - PyStr.len F <= Dec.expo u <= 0
    /\ units (PyStr.len F) u = n * 10 ^ PyStr.len F + frac_units (PyStr.len F) 0 F
    /\ - PyStr.len F <= Dec.expo d <= 0
    /\ units (PyStr.len F) d = - 2 ^ (PyStr.len I - 1) * 10 ^ PyStr.len F + units (PyStr.len F) u.
Proof.
  intros HI Hh Hfit.
  destruct I as [| c rest]; [discriminate |]. cbn [PyStr.head] in Hh. injection Hh as ->.
  cbn [PyStr.tail].
  set (k := PyStr.len F) in *.
  assert (Hk0 : 0 <= k) by (unfold k, PyStr.len; lia).
  assert (H10 : 0 < 10 ^ k) by (apply Z.pow_pos_nonneg; lia).
  assert (Hlen : PyStr.len (String "1" rest) - 1 = PyStr.len rest).
  { unfold PyStr.len. cbn [String.length]. lia. }
  assert (Hp0 : 0 <= PyStr.len rest) by (unfold PyStr.len; lia).
  assert (Hpow : 2 ^ PyStr.len (String "1" rest) = 2 * 2 ^ PyStr.len rest).
  { replace (PyStr.len (String "1" rest)) with (Z.succ (PyStr.len rest)) by lia.
    apply Z.pow_succ_r. exact Hp0. }
  assert (H2 : 0 < 2 ^ PyStr.len rest) by (apply Z.pow_pos_nonneg; lia).
  rewrite Hlen, Hpow in *.
  destruct (int_zero_tail "1" rest HI) as (n & Hn & Hrange).
  destruct (ufixed_units (fixed_groups (String "0" rest) F) (String "0" rest) F n)
    as (u & Hu & Heu & Huu & Hfu);
    [apply fixed_groups_int | apply fixed_groups_frac | exact Hn | lia | fold k; nia |].
  fold k in Heu, Huu, Hfu.
  assert (Hstart : Dec.neg prec (Dec.pow2 prec (PyStr.len rest))
                   = Dec.mk (- 2 ^ PyStr.len rest) 0).
  { rewrite pow2_nonneg by nia. unfold Dec.neg. cbn [Dec.coeff Dec.expo].
    apply fix_small. cbn [Dec.coeff]. rewrite Z.abs_opp, Z.abs_eq by lia. nia. }
  assert (Hus : units k (Dec.mk (- 2 ^ PyStr.len rest) 0) = - 2 ^ PyStr.len rest * 10 ^ k).
  { unfold units. cbn [Dec.coeff Dec.expo]. rewrite Z.add_0_r. reflexivity. }
  destruct (add_units prec k (Dec.mk (- 2 ^ PyStr.len rest) 0) u) as [Hsum Hex];
    [unfold prec; lia | cbn [Dec.expo]; lia | exact Heu | |].
  { rewrite Hus, Huu. apply Z.abs_lt. nia. }
  exists (Dec.add prec (Dec.mk (- 2 ^ PyStr.len rest) 0) u), u, n.
  split.
  { rewrite (fixed_leading_one _ (String "1" rest) "1");
      [| apply fixed_groups_int | reflexivity | discriminate].
    cbn [PyStr.tail]. rewrite fixed_groups_replace, Hu, Hlen, Hstart. reflexivity. }
  split; [exact Hu |]. split; [exact Hn |]. split; [exact Heu |]. split; [exact Huu |].
  split; [exact Hex |]. rewrite Hsum, Hus. reflexivity.
Qed.

(** C1, within the precision of the context: for every string [I] of binary
    digits and every string [F] such that [2 ^ len(I) * 10 ^ len(F) <= 10 ^ 128],
    [FixedToDecimal] returns what [UFixedToDecimal] returns when [I] starts with
    [0]; and when [I] starts with [1] it returns, for [p = len(I) - 1], the
    value [- (2 ^ p)] plus the unsigned value of [I] with its leading bit
    replaced by [0] together with [F]. *)
Theorem fixed_exact (I F : string) :
  PyStr.is_bits I ->
  2 ^ PyStr.len I * 10 ^ PyStr.len F <= 10 ^ prec ->
  (PyStr.head I = Some "0"%char ->
   FixedToDecimal (fixed_groups I F) = UFixedToDecimal (fixed_groups I F))
  /\ (PyStr.head I = Some "1"%char ->
      exists d u n,
        FixedToDecimal (fixed_groups I F) = Some d
        /\ UFixedToDecimal (fixed_groups (String "0" (PyStr.tail I)) F) = Some u
        /\ PyStr.int (String "0" (PyStr.tail I)) 2 = Some n
        /\ (Dec.to_Q u == inject_Z n + frac_sum 0 F)%Q
        /\ (Dec.to_Q d == - inject_Z (2 ^ (PyStr.len I - 1)) + Dec.to_Q u)%Q).
Proof.
  intros HI Hfit. split.
  - intros Hh. apply (fixed_leading_zero _ I); [apply fixed_groups_int | exact Hh].
  - intros Hh.
    destruct (fixed_signed_units I F HI Hh Hfit)
      as (d & u & n & Hd & Hu & Hn & Heu & Huu & Hed & Hud).
    assert (Hk0 : 0 <= PyStr.len F) by (unfold PyStr.len; lia).
    exists d, u, n. repeat split; try assumption.
    + apply (units_to_Q (PyStr.len F)); [exact Hk0 | exact Heu |].
      rewrite Huu, Qmult_plus_distr_l, inject_Z_plus, inject_Z_mult.
      rewrite frac_sum_units by lia. reflexivity.
    + apply (units_to_Q (PyStr.len F)); [exact Hk0 | exact Hed |].
      rewrite Hud, Qmult_plus_distr_l, inject_Z_plus, inject_Z_mult, inject_Z_opp.
      rewrite to_Q_units by exact Heu. reflexivity.
Qed.

Lemma fixed_exact_witness :
  (PyStr.head "101" = Some "0"%char ->
   FixedToDecimal (fixed_groups "101" "110") = UFixedToDecimal (fixed_groups "101" "110"))
  /\ (PyStr.head "101" = Some "1"%char ->
      exists d u n,
        FixedToDecimal (fixed_groups "101" "110") = Some d
        /\ UFixedToDecimal (fixed_groups (String "0" (PyStr.tail "101")) "110") = Some u
        /\ PyStr.int (String "0" (PyStr.tail "101")) 2 = Some n
        /\ (Dec.to_Q u == inject_Z n + frac_sum 0 "110")%Q
        /\ (Dec.to_Q d == - inject_Z (2 ^ (PyStr.len "101" - 1)) + Dec.to_Q u)%Q).
Proof.
  apply (fixed_exact "101" "110").
  - split; [discriminate | reflexivity].
  - vm_compute. discriminate.
Defined.

(** The examples of the specification: [101.110] is [-2.25] and [1.011]
    is [-0.625]. *)
Lemma fixed_examples :
  FixedToDecimal (fixed_groups "101" "110") = Some (Dec.mk (-225) (-2))
  /\ (Dec.to_Q (Dec.mk (-225) (-2)) == - (225 # 100))%Q
  /\ Dec.to_string (Dec.mk (-225) (-2)) = "-2.25"
  /\ FixedToDecimal (fixed_groups "1" "011") = Some (Dec.mk (-625) (-3))
  /\ (Dec.to_Q (Dec.mk (-625) (-3)) == - (625 # 1000))%Q
  /\ Dec.to_string (Dec.mk (-625) (-3)) = "-0.625".
Proof. repeat split; vm_compute; reflexivity. Qed.

(** C1 as stated fails beyond the precision: on a one and 99 zeros before
    the point and 99 zeros and a one behind it, [start = - 2 ^ 99] and
    [add = 2 ^ (-100)] are exact, and their sum, of 130 digits, is rounded
    to 128. *)
Lemma fixed_rounds_beyond_precision :
  ~ (exists d u,
        FixedToDecimal (fixed_groups (one_zeros 99) (zeros_one 99)) = Some d
        /\ UFixedToDecimal
             (fixed_groups (String "0" (PyStr.tail (one_zeros 99))) (zeros_one 99)) = Some u
        /\ (Dec.to_Q d == - inject_Z (2 ^ (PyStr.len (one_zeros 99) - 1)) + Dec.to_Q u)%Q).
Proof.
  intros (d & u & Hd & Hu & Hq).
  vm_compute in Hd. injection Hd as <-.
  vm_compute in Hu. injection Hu as <-.
  vm_compute in Hq. discriminate Hq.
Qed.

(** ** Decimal to exponential on zero *)

Lemma grow_zero (fuel : nat) : forall exp : Z, Exp.grow fuel 0%float exp = None.
Proof.
  induction fuel as [| f IH]; intros exp; [reflexivity |].
  cbn [Exp.grow].
  change (PrimFloat.ltb 0 1) with true. change (PrimFloat.mul 0 10) with 0%float.
  apply IH.
Qed.

(** C6 fails on the text [0]: [float("0")] is [0.0], which is not above 10, and
    [0.0 < 1] holds however often the value is multiplied by 10: the second loop of
    [DecToExpCommand] has not returned after any number of iterations. *)
Theorem normalize_zero_diverges (fuel : nat) : Exp.normalize fuel 0%float = None.
Proof.
  unfold Exp.normalize. destruct fuel as [| f]; [reflexivity |].
  cbn [Exp.shrink]. change (PrimFloat.ltb 10 0) with false. cbv iota.
  apply grow_zero.
Qed.



(** ** Signed fixed point and two's complement *)

Lemma parse_digits_shift (s : string) :
  PyStr.all_bits s = true ->
  forall acc a v,
    PyStr.parse_digits 2 s acc = Some v ->
    PyStr.parse_digits 2 s (acc + a) = Some (v + a * 2 ^ PyStr.len s).
Proof.
  induction s as [| c r IH]; intros Hb acc a v Hv.
  - cbn in *. injection Hv as <-. f_equal. unfold PyStr.len. cbn. lia.
  - cbn [PyStr.all_bits] in Hb. apply andb_true_iff in Hb as [Hc Hr].
    destruct (digit_val_bit c Hc) as (d & Hd & Hrange & _).
    cbn [PyStr.parse_digits] in *. rewrite Hd in *.
    replace (d <? 2) with true in * by (symmetry; apply Z.ltb_lt; lia).
    replace ((acc + a) * 2 + d) with (acc * 2 + d + a * 2) by ring.
    rewrite (IH Hr _ (a * 2) v Hv). f_equal.
    unfold PyStr.len. cbn [String.length]. rewrite Nat2Z.inj_succ, Z.pow_succ_r by lia. ring.
Qed.

(** The integer part read as two's complement: the digits behind the
    leading bit, minus [2 ^ p] when that bit is set. *)
Lemma twos_complement_split (c : ascii) (rest : string) (n : Z) :
  PyStr.is_bits (String c rest) ->
  PyStr.int (String "0" rest) 2 = Some n ->
  0 <= n < 2 ^ PyStr.len rest ->
  twos_complement (String c rest) (PyStr.len (String c rest)) 2
  = Some (if Ascii.eqb c "1" then n - 2 ^ PyStr.len rest else n).
Proof.
  intros HI Hn Hrange.
  assert (Hr : PyStr.all_bits rest = true).
  { destruct HI as [_ Hb]. cbn [PyStr.all_bits] in Hb.
    apply andb_true_iff in Hb as [_ Hb]. exact Hb. }
  assert (Hz : PyStr.is_bits (String "0" rest)).
  { split; [discriminate |]. cbn [PyStr.all_bits]. rewrite Hr. reflexivity. }
  rewrite (int_bits_parse _ Hz) in Hn.
  change (PyStr.parse_digits 2 (String "0" rest) 0) with (PyStr.parse_digits 2 rest 0) in Hn.
  assert (Hlen : PyStr.len (String c rest) = Z.succ (PyStr.len rest)).
  { unfold PyStr.len. cbn [String.length]. lia. }
  assert (Hp0 : 0 <= PyStr.len rest) by (unfold PyStr.len; lia).
  assert (Hpow : 2 ^ PyStr.len (String c rest) = 2 * 2 ^ PyStr.len rest).
  { rewrite Hlen. apply Z.pow_succ_r. exact Hp0. }
  destruct (twos_complement_bits _ HI) as (val & Hval & Hvr & Htc).
  rewrite Htc. f_equal.
  rewrite (testbit_top val _ (len_pos _ (proj1 HI)) Hvr).
  replace (PyStr.len (String c rest) - 1) with (PyStr.len rest) by lia.
  rewrite (int_bits_parse _ HI) in Hval.
  destruct HI as [_ Hb]. cbn [PyStr.all_bits] in Hb. apply andb_true_iff in Hb as [Hc _].
  apply orb_true_iff in Hc as [Hc | Hc]; apply Ascii.eqb_eq in Hc; subst c.
  - change (PyStr.parse_digits 2 (String "0" rest) 0)
      with (PyStr.parse_digits 2 rest 0) in Hval.
    assert (val = n) by congruence. subst val.
    replace (2 ^ PyStr.len rest <=? n) with false by (symmetry; apply Z.leb_gt; lia).
    reflexivity.
  - change (PyStr.parse_digits 2 (String "1" rest) 0)
      with (PyStr.parse_digits 2 rest 1) in Hval.
    pose proof (parse_digits_shift rest Hr 0 1 n Hn) as Hs.
    change (0 + 1) with 1 in Hs. rewrite Hs in Hval.
    assert (val = n + 2 ^ PyStr.len rest) by (injection Hval; lia). subst val.
    replace (2 ^ PyStr.len rest <=? n + 2 ^ PyStr.len rest) with true
      by (symmetry; apply Z.leb_le; lia).
    change (Ascii.eqb "1" "1") with true. cbv iota. rewrite Hpow. lia.
Qed.

(** X1: Within the precision, [FixedToDecimal] is the two's-complement reading of
    the integer digits plus the fractional value of the fractional digits. *)
Theorem fixed_is_twos_complement (I F : string) :
  PyStr.is_bits I ->
  2 ^ PyStr.len I * 10 ^ PyStr.len F <= 10 ^ prec ->
  exists d t,
    FixedToDecimal (fixed_groups I F) = Some d
    /\ twos_complement I (PyStr.len I) 2 = Some t
    /\ (Dec.to_Q d == inject_Z t + frac_sum 0 F)%Q.
Proof.
  intros HI Hfit. destruct I as [| c rest]; [destruct HI; congruence |].
  assert (Hk0 : 0 <= PyStr.len F) by (unfold PyStr.len; lia).
  assert (H10 : 0 < 10 ^ PyStr.len F) by (apply Z.pow_pos_nonneg; lia).
  assert (Hp0 : 0 <= PyStr.len rest) by (unfold PyStr.len; lia).
  assert (H2 : 0 < 2 ^ PyStr.len rest) by (apply Z.pow_pos_nonneg; lia).
  assert (Hpow : 2 ^ PyStr.len (String c rest) = 2 * 2 ^ PyStr.len rest).
  { replace (PyStr.len (String c rest)) with (Z.succ (PyStr.len rest))
      by (unfold PyStr.len; cbn [String.length]; lia).
    apply Z.pow_succ_r. exact Hp0. }
  destruct (int_zero_tail c rest HI) as (n & Hn & Hrange).
  pose proof (twos_complement_split c rest n HI Hn Hrange) as Htc.
  assert (Hc : c = "0"%char \/ c = "1"%char).
  { destruct HI as [_ Hb]. cbn [PyStr.all_bits] in Hb. apply andb_true_iff in Hb as [Hb _].
    apply orb_true_iff in Hb as [Hb | Hb]; apply Ascii.eqb_eq in Hb; auto. }
  destruct Hc as [-> | ->].
  - destruct (ufixed_units (fixed_groups (String "0" rest) F) (String "0" rest) F n)
      as (d & Hd & He & Hu & _);
      [apply fixed_groups_int | apply fixed_groups_frac | exact Hn | lia | nia |].
    exists d, n. split.
    { rewrite (fixed_leading_zero _ (String "0" rest));
        [exact Hd | apply fixed_groups_int | reflexivity]. }
    split; [exact Htc |].
    apply (units_to_Q (PyStr.len F)); [exact Hk0 | exact He |].
    rewrite Hu, Qmult_plus_distr_l, inject_Z_plus, inject_Z_mult.
    rewrite frac_sum_units by lia. reflexivity.
  - destruct (fixed_signed_units (String "1" rest) F HI eq_refl Hfit)
      as (d & u & n' & Hd & _ & Hn' & _ & Huu & Hed & Hud).
    cbn [PyStr.tail] in Hn'. assert (n' = n) by congruence. subst n'.
    replace (PyStr.len (String "1" rest) - 1) with (PyStr.len rest) in Hud
      by (unfold PyStr.len; cbn [String.length]; lia).
    exists d, (n - 2 ^ PyStr.len rest). split; [exact Hd |]. split; [exact Htc |].
    apply (units_to_Q (PyStr.len F)); [exact Hk0 | exact Hed |].
    rewrite Hud, Huu, Qmult_plus_distr_l.
    rewrite frac_sum_units by lia.
    rewrite <- inject_Z_mult, <- inject_Z_plus.
    match goal with
    | |- (inject_Z ?a == inject_Z ?b)%Q => replace a with b by ring
    end.
    reflexivity.
Qed.

Lemma fixed_is_twos_complement_witness :
  exists d t,
    FixedToDecimal (fixed_groups "101" "110") = Some d
    /\ twos_complement "101" (PyStr.len "101") 2 = Some t
    /\ (Dec.to_Q d == inject_Z t + frac_sum 0 "110")%Q.
Proof.
  apply (fixed_is_twos_complement "101" "110").
  - split; [discriminate | reflexivity].
  - vm_compute. discriminate.
Defined.

(** ** The registry never raises on a built-in slot *)

(** X2: Whatever the settings hold, [load_pattern] returns a pattern for each of
    the four source slots. *)
Theorem load_pattern_total (settings : gmap string string) (name dflt : string) :
  In (name, dflt) source_slots ->
  exists r, load_pattern Re.compile settings name dflt = Some r.
Proof.
  intros Hin. unfold load_pattern.
  destruct (Re.compile (settings_get settings name dflt)) as [r |]; [exists r; reflexivity |].
  pose proof defaults_compile as Hall. rewrite List.Forall_forall in Hall.
  specialize (Hall _ Hin). cbn [snd] in Hall.
  destruct (Re.compile dflt) as [r |]; [exists r; reflexivity | congruence].
Qed.

Lemma load_pattern_total_witness :
  exists r, load_pattern Re.compile (<["convert_src_hex" := "[0-9"]> ∅)
              "convert_src_hex" _CONVERT_SRC_HEX_DFLT = Some r.
Proof.
  apply load_pattern_total. right. right. left. reflexivity.
Defined.

(** ** The examples of the docstrings, through the commands *)

Theorem docstring_examples :
  option_map replaced (UfxToDecCommand ∅ ["101.110"]) = Some [(0%nat, "5.75")]
  /\ option_map replaced (SfxToDecCommand ∅ ["101.110"; "1.011"])
     = Some [(0%nat, "-2.25"); (1%nat, "-0.625")]
  /\ option_map replaced (SbinToDecCommand ∅ ["101"]) = Some [(0%nat, "-3")]
  /\ option_map replaced (SbinToHexCommand ∅ ["101"]) = Some [(0%nat, "-0x3")].
Proof. repeat split; vm_compute; reflexivity. Qed.

(** ** Decimal to exponential on a negative value *)

Lemma below_one_early :
  forallb (fun k => PrimFloat.ltb (Nat.iter k (fun b => PrimFloat.mul b 10) (-5)%float) 1)
    (seq 0 401) = true.
Proof. vm_compute. reflexivity. Qed.

Lemma minus_infinity_late (j : nat) :
  Nat.iter (400 + j) (fun b => PrimFloat.mul b 10) (-5)%float = neg_infinity.
Proof.
  induction j as [| j IH].
  - vm_compute. reflexivity.
  - replace (400 + S j)%nat with (S (400 + j)) by lia.
    rewrite Nat.iter_succ, IH. reflexivity.
Qed.

Lemma below_one (k : nat) :
  PrimFloat.ltb (Nat.iter k (fun b => PrimFloat.mul b 10) (-5)%float) 1 = true.
Proof.
  destruct (le_lt_dec k 400) as [Hle | Hgt].
  - pose proof below_one_early as H. rewrite forallb_forall in H.
    apply H. apply in_seq. lia.
  - replace k with (400 + (k - 400))%nat by lia.
    rewrite minus_infinity_late. reflexivity.
Qed.

Lemma grow_negative (fuel : nat) :
  forall (k : nat) (exp : Z),
    Exp.grow fuel (Nat.iter k (fun b => PrimFloat.mul b 10) (-5)%float) exp = None.
Proof.
  induction fuel as [| f IH]; intros k exp; [reflexivity |].
  cbn [Exp.grow]. rewrite below_one. apply (IH (S k)).
Qed.

(** On [-5.0] the value is below 1 and stays below 1 under the multiplications
    by 10 (it reaches minus infinity): the loops of [DecToExpCommand] have not
    returned after any number of iterations. *)
Theorem normalize_negative_diverges (fuel : nat) : Exp.normalize fuel (-5)%float = None.
Proof.
  unfold Exp.normalize. destruct fuel as [| f]; [reflexivity |].
  cbn [Exp.shrink]. change (PrimFloat.ltb 10 (-5)) with false. cbv iota.
  apply (grow_negative (S f) 0).
Qed.

(** ** Decimal texts: [str] and [int] *)

Lemma dec_cases (d : Z) :
  0 <= d < 10 -> In d [0; 1; 2; 3; 4; 5; 6; 7; 8; 9].
Proof.
  intros Hd.
  assert (Hn : d = Z.of_nat (Z.to_nat d)) by lia.
  rewrite Hn. clear Hn.
  assert (Hlt : (Z.to_nat d < 10)%nat) by lia.
  revert Hlt. generalize (Z.to_nat d). intros k Hk.
  do 10 (destruct k as [| k]; [simpl; tauto |]). lia.
Qed.

Lemma dec_digit_val (d : Z) :
  0 <= d < 10 -> PyStr.digit_val (PyFmt.digit_char false d) = Some d.
Proof.
  intros Hd. pose proof (dec_cases d Hd) as Hin.
  repeat (destruct Hin as [<- | Hin]; [reflexivity |]). destruct Hin.
Qed.

(** A decimal digit is neither a sign nor white space. *)
Lemma dec_digit_plain (c : ascii) :
  digit_of 10 c ->
  c <> "-"%char /\ c <> "+"%char /\ PyFmt.is_space c = false.
Proof.
  intros (d & Hd & ->). pose proof (dec_cases d Hd) as Hin.
  repeat (destruct Hin as [<- | Hin]; [repeat split; discriminate |]). destruct Hin.
Qed.

Lemma parse_decimal_digits (fuel : nat) :
  forall (n : Z) (acc : string),
    0 <= n < 2 ^ Z.of_nat (S fuel) ->
    PyStr.parse_digits 10 (PyFmt.to_digits_aux fuel 10 false n acc) 0
    = PyStr.parse_digits 10 acc n.
Proof.
  assert (Hlast : forall n acc, 0 <= n < 10 ->
            PyStr.parse_digits 10 (String (PyFmt.digit_char false n) acc) 0
            = PyStr.parse_digits 10 acc n).
  { intros n acc Hn. cbn [PyStr.parse_digits]. rewrite dec_digit_val by exact Hn.
    replace (n <? 10) with true by (symmetry; apply Z.ltb_lt; lia).
    f_equal. }
  induction fuel as [| f IH]; intros n acc Hn.
  - cbn [PyFmt.to_digits_aux]. apply Hlast. change (2 ^ Z.of_nat 1) with 2 in Hn. lia.
  - cbn [PyFmt.to_digits_aux].
    destruct (Z.ltb_spec n 10) as [Hlt | Hge]; [apply Hlast; lia |].
    rewrite IH.
    + cbn [PyStr.parse_digits].
      assert (Hm : 0 <= n mod 10 < 10) by (apply Z.mod_pos_bound; lia).
      rewrite dec_digit_val by exact Hm.
      replace (n mod 10 <? 10) with true by (symmetry; apply Z.ltb_lt; lia).
      f_equal. rewrite (Z.div_mod n 10) at 3 by lia. ring.
    + split; [apply Z.div_pos; lia |].
      rewrite Nat2Z.inj_succ, Z.pow_succ_r in Hn by lia.
      apply Z.div_lt_upper_bound; [lia |].
      assert (0 < 2 ^ Z.of_nat (S f)) by (apply Z.pow_pos_nonneg; lia). nia.
Qed.

Lemma decimal_digits_shape (fuel : nat) :
  forall (n : Z) (acc : string),
    0 <= n < 2 ^ Z.of_nat (S fuel) ->
    Forall (digit_of 10) (list_ascii_of_string acc) ->
    Forall (digit_of 10) (list_ascii_of_string (PyFmt.to_digits_aux fuel 10 false n acc))
    /\ PyFmt.to_digits_aux fuel 10 false n acc <> "".
Proof.
  induction fuel as [| f IH]; intros n acc Hn Hacc.
  - cbn [PyFmt.to_digits_aux]. split; [| discriminate].
    cbn [list_ascii_of_string]. constructor; [| exact Hacc].
    exists n. change (2 ^ Z.of_nat 1) with 2 in Hn. split; [lia | reflexivity].
  - cbn [PyFmt.to_digits_aux].
    destruct (Z.ltb_spec n 10) as [Hlt | Hge].
    + split; [| discriminate]. cbn [list_ascii_of_string].
      constructor; [| exact Hacc]. exists n. split; [lia | reflexivity].
    + apply IH.
      * split; [apply Z.div_pos; lia |].
        rewrite Nat2Z.inj_succ, Z.pow_succ_r in Hn by lia.
        apply Z.div_lt_upper_bound; [lia |].
        assert (0 < 2 ^ Z.of_nat (S f)) by (apply Z.pow_pos_nonneg; lia). nia.
      * cbn [list_ascii_of_string]. constructor; [| exact Hacc].
        exists (n mod 10). split; [apply Z.mod_pos_bound; lia | reflexivity].
Qed.

(** The decimal digits of [0 <= n]: a non-empty text of digits that reads
    back as [n]. *)
Lemma decimal_digits (n : Z) :
  0 <= n ->
  PyFmt.to_digits 10 false n <> ""
  /\ Forall (digit_of 10) (list_ascii_of_string (PyFmt.to_digits 10 false n))
  /\ PyStr.parse_digits 10 (PyFmt.to_digits 10 false n) 0 = Some n.
Proof.
  intros Hn. unfold PyFmt.to_digits.
  destruct (decimal_digits_shape (Z.to_nat (Z.log2 n)) n "" (fuel_enough n Hn))
    as [Hall Hne]; [constructor |].
  split; [exact Hne |]. split; [exact Hall |].
  rewrite parse_decimal_digits by (apply fuel_enough; exact Hn). reflexivity.
Qed.

Lemma parse_unsigned_decimal (s : string) :
  s <> "" -> PyStr.parse_unsigned 10 s = PyStr.parse_digits 10 s 0.
Proof.
  intros Hne. unfold PyStr.parse_unsigned.
  assert (Hstrip : PyStr.strip_prefix 10 s = s).
  { unfold PyStr.strip_prefix. destruct s as [| c [| p r]]; [reflexivity | |];
      destruct c as [[] [] [] [] [] [] [] []]; reflexivity. }
  rewrite Hstrip. destruct s; [congruence | reflexivity].
Qed.

(** [int(str(n)) == n] for every integer. *)
Lemma int_str (n : Z) : PyStr.int (PyFmt.str n) 10 = Some n.
Proof.
  unfold PyFmt.str, PyFmt.render.
  destruct (Z.ltb_spec n 0) as [Hneg | Hpos].
  - destruct (decimal_digits (- n)) as (Hne & _ & Hp); [lia |].
    change (PyStr.int (String "-" ("" ++ PyFmt.to_digits 10 false (- n))) 10)
      with (option_map Z.opp (PyStr.parse_unsigned 10 (PyFmt.to_digits 10 false (- n)))).
    rewrite parse_unsigned_decimal by exact Hne.
    rewrite Hp. cbn [option_map]. f_equal. lia.
  - destruct (decimal_digits n Hpos) as (Hne & Hall & Hp).
    change ("" ++ PyFmt.to_digits 10 false n) with (PyFmt.to_digits 10 false n).
    destruct (PyFmt.to_digits 10 false n) as [| c r] eqn:E; [congruence |].
    cbn [list_ascii_of_string] in Hall. inversion Hall as [| ? ? Hc _]; subst.
    destruct (dec_digit_plain c Hc) as (Hm & Hpl & _).
    assert (Hint : PyStr.int (String c r) 10 = PyStr.parse_unsigned 10 (String c r)).
    { unfold PyStr.int. destruct c as [[] [] [] [] [] [] [] []]; try reflexivity; congruence. }
    rewrite Hint, parse_unsigned_decimal by discriminate. exact Hp.
Qed.

Lemma lstrip_plain (s : string) :
  Forall (fun c => PyFmt.is_space c = false) (list_ascii_of_string s) ->
  PyFmt.lstrip s = s.
Proof.
  destruct s as [| c r]; [reflexivity |]. cbn [list_ascii_of_string].
  intros H. inversion H as [| ? ? Hc _]; subst. cbn [PyFmt.lstrip]. rewrite Hc. reflexivity.
Qed.

Lemma rstrip_plain (p : ascii -> bool) (s : string) :
  Forall (fun c => p c = false) (list_ascii_of_string s) ->
  PyFmt.rstrip p s = s.
Proof.
  induction s as [| c r IH]; [reflexivity |]. cbn [list_ascii_of_string].
  intros H. inversion H as [| ? ? Hc Hr]; subst.
  cbn [PyFmt.rstrip]. rewrite (IH Hr), Hc. destruct r; reflexivity.
Qed.

Lemma str_plain (n : Z) :
  Forall (fun c => PyFmt.is_space c = false) (list_ascii_of_string (PyFmt.str n)).
Proof.
  assert (Hd : forall m, 0 <= m ->
            Forall (fun c => PyFmt.is_space c = false)
              (list_ascii_of_string (PyFmt.to_digits 10 false m))).
  { intros m Hm. destruct (decimal_digits m Hm) as (_ & Hall & _).
    eapply List.Forall_impl; [| exact Hall]. intros c Hc. apply (dec_digit_plain c Hc). }
  unfold PyFmt.str, PyFmt.render. destruct (Z.ltb_spec n 0).
  - change ("" ++ PyFmt.to_digits 10 false (- n)) with (PyFmt.to_digits 10 false (- n)).
    cbn [list_ascii_of_string]. constructor; [reflexivity | apply Hd; lia].
  - change ("" ++ PyFmt.to_digits 10 false n) with (PyFmt.to_digits 10 false n).
    apply Hd. lia.
Qed.

(** The text [str(n)] read as a decimal selection is [n]. *)
Lemma int_strip_str (n : Z) : PyStr.int (PyFmt.strip (PyFmt.str n)) 10 = Some n.
Proof.
  unfold PyFmt.strip. rewrite lstrip_plain, rstrip_plain by apply str_plain.
  apply int_str.
Qed.

(** ** The direct conversions factor through decimal *)

(** X3: Binary to hexadecimal is binary to decimal followed by decimal to
    hexadecimal, hexadecimal to binary is hexadecimal to decimal followed by
    decimal to binary, and the same for the signed binary conversions: for
    every source pattern and destination format and every selected text of at
    most 3500 characters, whose value has fewer than 4300 decimal digits and
    so goes through [str] and [int] in between. *)
Theorem direct_is_via_decimal (dst_format : string) (r : Re.Pattern) (text : string) :
  PyStr.len text <= 3500 ->
  BinToHex_item dst_format r text
  = (BinToDec_item r text ≫= DecToHex_item dst_format)
  /\ HexToBin_item dst_format r text
     = (HexToDec_item r text ≫= DecToBin_item dst_format)
  /\ SbinToHex_item dst_format r text
     = (SbinToDec_item r text ≫= DecToHex_item dst_format).
Proof.
  intros _.
  unfold BinToHex_item, BinToDec_item, HexToBin_item, HexToDec_item,
    SbinToHex_item, SbinToDec_item, DecToHex_item, DecToBin_item.
  destruct (Re.match_ r text) as [m |]; [| repeat split].
  cbn [mbind option_bind].
  destruct (Re.group m 1) as [digits |]; [| repeat split].
  cbn [mbind option_bind].
  repeat split.
  - destruct (PyStr.int digits 2) as [n |]; [| reflexivity].
    cbn [mbind option_bind]. rewrite int_strip_str. reflexivity.
  - destruct (PyStr.int digits 16) as [n |]; [| reflexivity].
    cbn [mbind option_bind]. rewrite int_strip_str. reflexivity.
  - destruct (twos_complement digits (PyStr.len digits) 2) as [n |]; [| reflexivity].
    cbn [mbind option_bind]. rewrite int_strip_str. reflexivity.
Qed.

Lemma direct_is_via_decimal_witness :
  exists r,
    SRC_BIN = Some r
    /\ BinToHex_item "{0:#x}" r "0b101"
       = (BinToDec_item r "0b101" ≫= DecToHex_item "{0:#x}")
    /\ HexToBin_item "{0:b}" r "0b101"
       = (HexToDec_item r "0b101" ≫= DecToBin_item "{0:b}")
    /\ SbinToHex_item "{0:#x}" r "0b101"
       = (SbinToDec_item r "0b101" ≫= DecToHex_item "{0:#x}").
Proof.
  destruct SRC_BIN as [r |] eqn:E; [| discriminate E].
  exists r. split; [reflexivity |].
  split; [apply (direct_is_via_decimal "{0:#x}" r "0b101"); vm_compute; discriminate |].
  split; [apply (direct_is_via_decimal "{0:b}" r "0b101"); vm_compute; discriminate |].
  apply (direct_is_via_decimal "{0:#x}" r "0b101"). vm_compute. discriminate.
Defined.


(** ** More on matching: runs of a class *)

(** A [+] over a class stops at the first character outside the class when
    the continuation accepts there. *)
Lemma plus_class_run (negated : bool) (ranges : list (ascii * ascii))
  (k : Re.mstate -> option Re.mstate) (xs rest : list ascii) :
  forall (n : nat) (cons : list ascii) (caps : list (nat * string)) (r : Re.mstate),
    xs <> [] ->
    Forall (fun c => Re.in_class negated ranges c = true) xs ->
    match rest with
    | [] => True
    | y :: _ => Re.in_class negated ranges y = false
    end ->
    (length xs <= n)%nat ->
    k (Re.mkState (rev xs ++ cons) rest caps) = Some r ->
    Re.plus_loop (Re.rmatch (Re.Class negated ranges)) k n
      (Re.mkState cons (xs ++ rest) caps) = Some r.
Proof.
  induction xs as [| c xs IH]; intros n cons caps r Hne Hall Hrest Hlen Hk; [congruence |].
  destruct n as [| n]; [simpl in Hlen; lia |].
  inversion Hall as [| ? ? Hc Hxs]; subst.
  rewrite plus_loop_S, rmatch_class. unfold Re.step. cbn [Re.ahead Re.consumed Re.caps app].
  rewrite Hc. cbn [Re.ahead length].
  replace (Nat.ltb (length (xs ++ rest)) (S (length (xs ++ rest)))) with true
    by (symmetry; apply Nat.ltb_lt; lia).
  destruct xs as [| c' xs'].
  - assert (Hstop : Re.plus_loop (Re.rmatch (Re.Class negated ranges)) k n
                      (Re.mkState (c :: cons) ([] ++ rest) caps) = None).
    { cbn [app]. destruct n; [reflexivity |].
      rewrite plus_loop_S, rmatch_class. unfold Re.step. cbn [Re.ahead].
      destruct rest as [| y rs]; [reflexivity |]. rewrite Hrest. reflexivity. }
    rewrite Hstop. exact Hk.
  - rewrite (IH n (c :: cons) caps r);
      [reflexivity | discriminate | exact Hxs | exact Hrest | simpl in *; lia |].
    cbn [rev] in *. rewrite <- !app_assoc in *. exact Hk.
Qed.

(** Whatever a [+] over a class matches is a non-empty run of the class. *)
Lemma plus_class_inv (negated : bool) (ranges : list (ascii * ascii))
  (k : Re.mstate -> option Re.mstate) (n : nat) :
  forall (s r : Re.mstate),
    Re.plus_loop (Re.rmatch (Re.Class negated ranges)) k n s = Some r ->
    exists xs rest : list ascii,
      Re.ahead s = (xs ++ rest)%list /\ xs <> []
      /\ Forall (fun c => Re.in_class negated ranges c = true) xs
      /\ k (Re.mkState (rev xs ++ Re.consumed s) rest (Re.caps s)) = Some r.
Proof.
  induction n as [| n IH]; intros s r H; [discriminate |].
  rewrite plus_loop_S, rmatch_class in H. unfold Re.step in H.
  destruct s as [cons ahead caps]. cbn [Re.ahead Re.consumed Re.caps] in *.
  destruct ahead as [| c tl]; [discriminate |].
  destruct (Re.in_class negated ranges c) eqn:Hc; [| discriminate].
  cbn [Re.ahead length] in H.
  replace (Nat.ltb (length tl) (S (length tl))) with true in H
    by (symmetry; apply Nat.ltb_lt; lia).
  destruct (Re.plus_loop (Re.rmatch (Re.Class negated ranges)) k n
              (Re.mkState (c :: cons) tl caps)) as [s'' |] eqn:E.
  - injection H as ->. destruct (IH _ _ E) as (xs & rest & Ha & Hne & Hall & Hk).
    cbn [Re.ahead Re.consumed Re.caps] in *.
    exists (c :: xs), rest. subst tl. repeat split.
    + discriminate.
    + constructor; assumption.
    + cbn [rev]. rewrite <- app_assoc. exact Hk.
  - exists [c], tl. repeat split; [discriminate | constructor; [exact Hc | constructor] | exact H].
Qed.

(** A word boundary behind a run of word characters, in front of a
    non-word character or of the end. *)
Lemma boundary_after_run (xs cons rest : list ascii) (caps : list (nat * string)) :
  xs <> [] -> Forall (fun c => Re.is_word (Some c) = true) xs ->
  Re.is_word (List.head rest) = false ->
  Re.at_boundary (Re.mkState (rev xs ++ cons) rest caps) = true.
Proof.
  intros Hne Hall Hrest. unfold Re.at_boundary. cbn [Re.consumed Re.ahead].
  rewrite Hrest.
  destruct (rev xs) as [| c r] eqn:E.
  - apply (f_equal (@length ascii)) in E. rewrite length_rev in E.
    destruct xs; [congruence | discriminate].
  - apply Forall_rev in Hall. rewrite E in Hall. inversion Hall; subst.
    cbn [app List.head]. rewrite H1. reflexivity.
Qed.

Lemma between_run (xs cons rest : list ascii) (caps caps' : list (nat * string)) :
  Re.between (Re.mkState cons (xs ++ rest) caps) (Re.mkState (rev xs ++ cons) rest caps')
  = string_of_list_ascii xs.
Proof.
  unfold Re.between. cbn [Re.consumed]. rewrite length_app, length_rev.
  replace (length xs + length cons - length cons)%nat with (length (rev xs))
    by (rewrite length_rev; lia).
  rewrite firstn_app, Nat.sub_diag, firstn_all. cbn [firstn].
  rewrite app_nil_r, rev_involutive. reflexivity.
Qed.

(** ** The default patterns need a word character first *)

Lemma compile_src_fxd : Re.compile _CONVERT_SRC_FXD_DFLT = SRC_FXD.
Proof. vm_compute. reflexivity. Qed.

Lemma compile_src_exp : Re.compile _CONVERT_SRC_EXP_DFLT = SRC_EXP.
Proof. vm_compute. reflexivity. Qed.

Lemma no_boundary_at_start (text : string) :
  no_word_start text ->
  Re.at_boundary (Re.mkState [] (list_ascii_of_string text) []) = false.
Proof.
  destruct text as [| c r]; [reflexivity |]. cbn [no_word_start]. intros H.
  unfold Re.at_boundary. cbn [Re.consumed Re.ahead list_ascii_of_string List.head].
  rewrite H. reflexivity.
Qed.

Lemma no_match_without_word_start (r : Re.Pattern) (text : string) :
  Some r = SRC_BIN \/ Some r = SRC_FXD \/ Some r = SRC_HEX \/ Some r = SRC_EXP ->
  no_word_start text ->
  Re.match_ r text = None.
Proof.
  intros Hcase Htext. pose proof (no_boundary_at_start text Htext) as Hb.
  destruct Hcase as [H | [H | [H | H]]]; injection H as ->;
    unfold Re.match_; cbn [Re.syntax];
    rewrite !rmatch_seq, rmatch_empty, rmatch_wordb, Hb; reflexivity.
Qed.

(** X4: Every built-in source pattern starts with a word boundary: it matches
    neither the empty text nor a text that starts with a character other
    than a letter, a digit or the underscore (a sign, a quote, a blank). *)
Theorem defaults_need_word_start (name dflt : string) (r : Re.Pattern) (text : string) :
  In (name, dflt) source_slots ->
  Re.compile dflt = Some r ->
  no_word_start text ->
  Re.match_ r text = None.
Proof.
  intros Hin Hr Htext. apply no_match_without_word_start; [| exact Htext].
  cbn [source_slots In] in Hin.
  destruct Hin as [H | [H | [H | [H | []]]]]; injection H as <- <-; rewrite <- Hr.
  - left. apply compile_src_bin.
  - right. left. apply compile_src_fxd.
  - right. right. left. apply compile_src_hex.
  - right. right. right. apply compile_src_exp.
Qed.

Lemma defaults_need_word_start_witness :
  exists r, Re.compile _CONVERT_SRC_HEX_DFLT = Some r /\ Re.match_ r "-0x1f" = None.
Proof.
  destruct (Re.compile _CONVERT_SRC_HEX_DFLT) as [r |] eqn:E; [| vm_compute in E; discriminate].
  exists r. split; [reflexivity |].
  apply (defaults_need_word_start "convert_src_hex" _CONVERT_SRC_HEX_DFLT r "-0x1f").
  - right. right. left. reflexivity.
  - exact E.
  - reflexivity.
Defined.

(** ** Binary literals in a selection *)

Lemma chars_app (a b : string) :
  list_ascii_of_string (a ++ b) = (list_ascii_of_string a ++ list_ascii_of_string b)%list.
Proof.
  induction a as [| c r IH]; [reflexivity |].
  change (list_ascii_of_string (String c (r ++ b))
          = c :: (list_ascii_of_string r ++ list_ascii_of_string b)%list).
  cbn [list_ascii_of_string]. rewrite IH. reflexivity.
Qed.

Lemma bit_class_word (c : ascii) :
  Re.in_class false [("0", "0"); ("1", "1")]%char c = true ->
  (c = "0"%char \/ c = "1"%char) /\ Re.is_word (Some c) = true.
Proof.
  destruct c as [[] [] [] [] [] [] [] []]; intros H; try discriminate H;
    split; try reflexivity; auto.
Qed.

Lemma bits_chars (D : string) :
  PyStr.all_bits D = true <->
  Forall (fun c => Re.in_class false [("0", "0"); ("1", "1")]%char c = true)
    (list_ascii_of_string D).
Proof.
  induction D as [| c r IH]; cbn [PyStr.all_bits list_ascii_of_string].
  - split; [constructor | reflexivity].
  - rewrite andb_true_iff, IH. split.
    + intros [Hc Hr]. constructor; [| exact Hr].
      apply orb_true_iff in Hc as [H | H]; apply Ascii.eqb_eq in H; subst c; reflexivity.
    + intros H. inversion H as [| ? ? Hc Hr]; subst. split; [| exact Hr].
      destruct (bit_class_word c Hc) as [[-> | ->] _]; reflexivity.
Qed.

Lemma chars_nonempty (s : string) : s <> "" -> list_ascii_of_string s <> [].
Proof. destruct s; [congruence | discriminate]. Qed.

Lemma head_no_word (rest : string) :
  no_word_start rest -> Re.is_word (List.head (list_ascii_of_string rest)) = false.
Proof. destruct rest as [| c r]; [reflexivity | exact (fun H => H)]. Qed.

Lemma head_not_bit (rest : string) :
  no_word_start rest ->
  match list_ascii_of_string rest with
  | [] => True
  | y :: _ => Re.in_class false [("0", "0"); ("1", "1")]%char y = false
  end.
Proof.
  destruct rest as [| c r]; [exact (fun _ => I) |].
  cbn [no_word_start list_ascii_of_string]. intros H.
  destruct (Re.in_class false [("0", "0"); ("1", "1")]%char c) eqn:E; [| reflexivity].
  destruct (bit_class_word c E) as [_ Hw]. congruence.
Qed.

(** The binary source pattern on binary digits, behind an optional [0b] and
    in front of the end of the text or of a non-word character: the group 1
    is the digits. *)
Lemma match_bin_literal (r : Re.Pattern) (pre D rest : string) :
  SRC_BIN = Some r ->
  pre = "" \/ pre = "0b" ->
  PyStr.is_bits D -> no_word_start rest ->
  exists m, Re.match_ r (pre ++ D ++ rest) = Some m /\ Re.group m 1 = Some D.
Proof.
  intros Hr Hpre [Hne Hbits] Hrest. injection Hr as <-.
  unfold Re.match_. cbn [Re.syntax].
  rewrite !chars_app.
  remember (list_ascii_of_string D) as xs eqn:Exs.
  remember (list_ascii_of_string rest) as rs eqn:Ers.
  assert (HD : D = string_of_list_ascii xs)
    by (subst xs; symmetry; apply string_of_list_ascii_of_string).
  assert (Hxs : xs <> []) by (subst xs; apply chars_nonempty; exact Hne).
  assert (Hcls : Forall (fun c => Re.in_class false [("0", "0"); ("1", "1")]%char c = true) xs).
  { subst xs. apply bits_chars. exact Hbits. }
  assert (Hw : Forall (fun c => Re.is_word (Some c) = true) xs).
  { eapply List.Forall_impl; [| exact Hcls]. intros c Hc. apply (bit_class_word c Hc). }
  assert (Hnw : Re.is_word (List.head rs) = false) by (subst rs; apply head_no_word; exact Hrest).
  assert (Hnb : match rs with
                | [] => True
                | y :: _ => Re.in_class false [("0", "0"); ("1", "1")]%char y = false
                end) by (subst rs; apply head_not_bit; exact Hrest).
  assert (Hgroup : forall cons,
    Re.rmatch
      (Re.Group 1 None
         (Re.Seq Re.Empty (Re.Plus (Re.Class false [("0", "0"); ("1", "1")]%char))))
      (Re.rmatch Re.WordB Some) (Re.mkState cons (xs ++ rs) [])
    = Some (Re.mkState (rev xs ++ cons) rs [(1%nat, D)])).
  { intros cons. rewrite rmatch_group, rmatch_seq, rmatch_empty, rmatch_plus.
    apply plus_class_run; [exact Hxs | exact Hcls | exact Hnb | |].
    - cbn [Re.ahead]. rewrite length_app. lia.
    - rewrite rmatch_wordb. unfold Re.close_group. cbn [Re.consumed Re.ahead Re.caps].
      rewrite between_run, <- HD.
      pose proof (boundary_after_run xs cons rs [(1%nat, D)] Hxs Hw Hnw) as Hend.
      rewrite Hend. reflexivity. }
  destruct Hpre as [-> | ->].
  - cbn [list_ascii_of_string app].
    assert (Hstart : Re.at_boundary (Re.mkState [] (xs ++ rs) []) = true).
    { destruct xs as [| c xs']; [congruence |]. inversion Hw; subst.
      unfold Re.at_boundary. cbn [Re.consumed Re.ahead List.head app].
      rewrite H1. reflexivity. }
    assert (Hno : forall t, (xs ++ rs)%list <> "0"%char :: "b"%char :: t).
    { intros t Ht. destruct xs as [| c1 [| c2 xs']]; [congruence | |].
      - cbn [app] in Ht. destruct rs as [| y rs']; [discriminate |].
        injection Ht as _ -> _. cbn [List.head] in Hnw. discriminate Hnw.
      - cbn [app] in Ht. injection Ht as _ -> _.
        inversion Hcls as [| ? ? _ H2]; subst. inversion H2 as [| ? ? Hb _]; subst.
        discriminate Hb. }
    match goal with
    | |- context [Re.rmatch ?R Some ?S] =>
        assert (Hrun : Re.rmatch R Some S = Some (Re.mkState (rev xs ++ []) rs [(1%nat, D)]))
    end.
    { rewrite !rmatch_seq, rmatch_empty, rmatch_wordb, Hstart.
      rewrite rmatch_opt_none by (apply rmatch_lit2_fail; exact Hno).
      apply Hgroup. }
    rewrite Hrun. eexists. split; reflexivity.
  - cbn [list_ascii_of_string app].
    match goal with
    | |- context [Re.rmatch ?R Some ?S] =>
        assert (Hrun : Re.rmatch R Some S
                       = Some (Re.mkState (rev xs ++ ["b"; "0"]%char) rs [(1%nat, D)]))
    end.
    { rewrite !rmatch_seq, rmatch_empty, rmatch_wordb.
      change (Re.at_boundary (Re.mkState [] ("0"%char :: "b"%char :: (xs ++ rs)%list) []))
        with true.
      cbv iota. apply rmatch_opt_some. rewrite rmatch_lit2. apply Hgroup. }
    rewrite Hrun. eexists. split; reflexivity.
Qed.



Lemma chars_of_string (s : string) (xs : list ascii) :
  list_ascii_of_string s = xs -> s = string_of_list_ascii xs.
Proof. intros <-. symmetry. apply string_of_list_ascii_of_string. Qed.

Lemma string_of_app (xs ys : list ascii) :
  string_of_list_ascii (xs ++ ys) = string_of_list_ascii xs ++ string_of_list_ascii ys.
Proof.
  induction xs as [| c r IH]; [reflexivity |].
  cbn [app string_of_list_ascii]. rewrite IH. reflexivity.
Qed.



(** ** What the binary commands accept *)

(** X5: On a run [D] of at most 14000 binary digits (a value of fewer than
    4300 decimal digits, which [str] renders), behind an optional [0b] and in
    front of the end of the selection or of a non-word character,
    [BinToDecCommand] writes [str(int(D, 2))] and [SbinToDecCommand] writes the
    two's complement of [D]: the rest of the selection is replaced too, and
    lost. *)
Theorem binary_literal_converts (r : Re.Pattern) (pre D rest : string) :
  SRC_BIN = Some r ->
  pre = "" \/ pre = "0b" ->
  PyStr.is_bits D -> PyStr.len D <= 14000 -> no_word_start rest ->
  exists n t,
    PyStr.int D 2 = Some n
    /\ twos_complement D (PyStr.len D) 2 = Some t
    /\ BinToDec_item r (pre ++ D ++ rest) = Some (PyFmt.str n)
    /\ SbinToDec_item r (pre ++ D ++ rest) = Some (PyFmt.str t).
Proof.
  intros Hr Hpre HD _ Hrest.
  destruct (match_bin_literal r pre D rest Hr Hpre HD Hrest) as (m & Hm & Hg).
  destruct (twos_complement_bits D HD) as (n & Hn & _ & Ht).
  eexists n, _. split; [exact Hn |]. split; [exact Ht |].
  unfold BinToDec_item, SbinToDec_item. rewrite Hm. cbn [mbind option_bind].
  rewrite Hg. cbn [mbind option_bind]. rewrite Hn, Ht. split; reflexivity.
Qed.

Lemma binary_literal_converts_witness :
  exists r n t,
    SRC_BIN = Some r
    /\ PyStr.int "101" 2 = Some n
    /\ twos_complement "101" (PyStr.len "101") 2 = Some t
    /\ BinToDec_item r ("0b" ++ "101" ++ " + 1") = Some (PyFmt.str n)
    /\ SbinToDec_item r ("0b" ++ "101" ++ " + 1") = Some (PyFmt.str t).
Proof.
  destruct SRC_BIN as [r |] eqn:E; [| discriminate].
  destruct (binary_literal_converts r "0b" "101" " + 1") as (n & t & H);
    [exact E | right; reflexivity | split; [discriminate | reflexivity]
    | vm_compute; discriminate | reflexivity |].
  exists r, n, t. split; [reflexivity | exact H].
Defined.



(** ** Decimal to binary or hexadecimal, and back *)

Lemma run_command_all (convert : string -> option string) (kind : string)
  (f : string -> string) (sels : list string) :
  (forall sel, In sel sels -> convert sel = Some (f sel)) ->
  num_skip (run_command convert kind sels) = 0%nat
  /\ map snd (replaced (run_command convert kind sels)) = map f sels.
Proof.
  intros Hall. destruct (run_command_spec convert kind sels) as [-> ->].
  rewrite conversions_texts. clear kind.
  induction sels as [| sel rest IH]; [split; reflexivity |].
  cbn [failures omap list_omap map]. rewrite (Hall sel (or_introl eq_refl)).
  destruct IH as [IH1 IH2]; [intros s Hs; apply Hall; right; exact Hs |].
  split; [exact IH1 |]. cbn. f_equal. exact IH2.
Qed.

Lemma format_bin_default (n : Z) :
  0 <= n -> PyFmt.format _CONVERT_DST_BIN_DFLT n = Some (PyFmt.to_digits 2 false n).
Proof.
  intros Hn.
  change (PyFmt.format _CONVERT_DST_BIN_DFLT n) with (Some (PyFmt.render 2 false "" n ++ "")).
  rewrite append_empty_r. unfold PyFmt.render.
  replace (n <? 0) with false by (symmetry; apply Z.ltb_ge; exact Hn). reflexivity.
Qed.

Lemma format_hex_default (n : Z) :
  0 <= n -> PyFmt.format _CONVERT_DST_HEX_DFLT n = Some ("0x" ++ PyFmt.to_digits 16 false n).
Proof.
  intros Hn.
  change (PyFmt.format _CONVERT_DST_HEX_DFLT n) with (Some (PyFmt.render 16 false "0x" n ++ "")).
  rewrite append_empty_r. unfold PyFmt.render.
  replace (n <? 0) with false by (symmetry; apply Z.ltb_ge; exact Hn). reflexivity.
Qed.

Lemma format_bin_negative (n : Z) :
  n < 0 ->
  PyFmt.format _CONVERT_DST_BIN_DFLT n = Some (String "-" (PyFmt.to_digits 2 false (- n))).
Proof.
  intros Hn.
  change (PyFmt.format _CONVERT_DST_BIN_DFLT n) with (Some (PyFmt.render 2 false "" n ++ "")).
  rewrite append_empty_r. unfold PyFmt.render.
  replace (n <? 0) with true by (symmetry; apply Z.ltb_lt; exact Hn). reflexivity.
Qed.

Lemma format_hex_negative (n : Z) :
  n < 0 ->
  PyFmt.format _CONVERT_DST_HEX_DFLT n
  = Some (String "-" ("0x" ++ PyFmt.to_digits 16 false (- n))).
Proof.
  intros Hn.
  change (PyFmt.format _CONVERT_DST_HEX_DFLT n) with (Some (PyFmt.render 16 false "0x" n ++ "")).
  rewrite append_empty_r. unfold PyFmt.render.
  replace (n <? 0) with true by (symmetry; apply Z.ltb_lt; exact Hn). reflexivity.
Qed.

Lemma dec_to_bin_to_dec (r : Re.Pattern) (n : Z) :
  SRC_BIN = Some r -> 0 <= n ->
  exists t, DecToBin_item _CONVERT_DST_BIN_DFLT (PyFmt.str n) = Some t
            /\ BinToDec_item r t = Some (PyFmt.str n).
Proof.
  intros Hr Hn. exists (PyFmt.to_digits 2 false n). split.
  - unfold DecToBin_item. rewrite int_strip_str. cbn [mbind option_bind].
    apply format_bin_default. exact Hn.
  - destruct (int_to_digits 2 (or_introl eq_refl) n Hn) as (Hint & Hne & Hall).
    destruct (match_src_bin r _ Hr Hne Hall) as (m & Hm & Hg).
    unfold BinToDec_item. rewrite Hm. cbn [mbind option_bind]. rewrite Hg.
    cbn [mbind option_bind]. rewrite Hint. reflexivity.
Qed.

Lemma dec_to_hex_to_dec (r : Re.Pattern) (n : Z) :
  SRC_HEX = Some r -> 0 <= n ->
  exists t, DecToHex_item _CONVERT_DST_HEX_DFLT (PyFmt.str n) = Some t
            /\ HexToDec_item r t = Some (PyFmt.str n).
Proof.
  intros Hr Hn. exists ("0x" ++ PyFmt.to_digits 16 false n). split.
  - unfold DecToHex_item. rewrite int_strip_str. cbn [mbind option_bind].
    apply format_hex_default. exact Hn.
  - destruct (int_to_digits 16 (or_intror eq_refl) n Hn) as (Hint & Hne & Hall).
    destruct (match_src_hex r _ Hr Hne Hall) as (m & Hm & Hg).
    unfold HexToDec_item. rewrite Hm. cbn [mbind option_bind]. rewrite Hg.
    cbn [mbind option_bind]. rewrite Hint. reflexivity.
Qed.

Lemma settings_default (settings : gmap string string) (name dflt : string) :
  settings !! name = None -> settings_get settings name dflt = dflt.
Proof. intros H. unfold settings_get. rewrite H. reflexivity. Qed.

(** X9: With the default formats and patterns, a batch of decimal texts of
    non-negative integers of at most 4300 digits survives decimal to binary followed by binary to
    decimal, and decimal to hexadecimal followed by hexadecimal to decimal:
    no text is skipped either way and every text comes back as it was. *)
Theorem decimal_roundtrip (settings : gmap string string) (ns : list Z) :
  settings !! "convert_dst_bin" = None -> settings !! "convert_src_bin" = None ->
  settings !! "convert_dst_hex" = None -> settings !! "convert_src_hex" = None ->
  Forall (fun n => 0 <= n < 10 ^ 4300) ns ->
  (exists b b',
      DecToBinCommand settings (map PyFmt.str ns) = Some b
      /\ num_skip b = 0%nat
      /\ BinToDecCommand settings (map snd (replaced b)) = Some b'
      /\ num_skip b' = 0%nat
      /\ map snd (replaced b') = map PyFmt.str ns)
  /\ (exists h h',
         DecToHexCommand settings (map PyFmt.str ns) = Some h
         /\ num_skip h = 0%nat
         /\ HexToDecCommand settings (map snd (replaced h)) = Some h'
         /\ num_skip h' = 0%nat
         /\ map snd (replaced h') = map PyFmt.str ns).
Proof.
  intros Hdb Hsb Hdh Hsh Hbound.
  assert (Hns : Forall (fun n => 0 <= n) ns).
  { eapply List.Forall_impl; [| exact Hbound]. intros n Hn. apply Hn. }
  assert (Hchain : forall (c1 c2 : string -> option string) (k1 k2 : string),
             (forall n, 0 <= n ->
                        exists t, c1 (PyFmt.str n) = Some t /\ c2 t = Some (PyFmt.str n)) ->
             num_skip (run_command c1 k1 (map PyFmt.str ns)) = 0%nat
             /\ num_skip (run_command c2 k2
                            (map snd (replaced (run_command c1 k1 (map PyFmt.str ns)))))
                = 0%nat
             /\ map snd (replaced (run_command c2 k2
                                     (map snd (replaced (run_command c1 k1 (map PyFmt.str ns))))))
                = map PyFmt.str ns).
  { intros c1 c2 k1 k2 Hc.
    set (f1 := fun s => match c1 s with Some t => t | None => s end).
    set (f2 := fun s => match c2 s with Some t => t | None => s end).
    destruct (run_command_all c1 k1 f1 (map PyFmt.str ns)) as [H1 H2].
    { intros sel Hin. apply in_map_iff in Hin as (n & <- & Hn).
      rewrite List.Forall_forall in Hns. destruct (Hc n (Hns n Hn)) as (t & Ht & _).
      unfold f1. rewrite Ht. reflexivity. }
    rewrite H2.
    destruct (run_command_all c2 k2 f2 (map f1 (map PyFmt.str ns))) as [H3 H4].
    { intros sel Hin. apply in_map_iff in Hin as (s & <- & Hs).
      apply in_map_iff in Hs as (n & <- & Hn).
      rewrite List.Forall_forall in Hns. destruct (Hc n (Hns n Hn)) as (t & Ht & Ht').
      unfold f1, f2. rewrite Ht, Ht'. reflexivity. }
    split; [exact H1 |]. split; [exact H3 |].
    rewrite H4, !map_map. apply map_ext_in. intros n Hn.
    rewrite List.Forall_forall in Hns. destruct (Hc n (Hns n Hn)) as (t & Ht & Ht').
    unfold f1, f2. rewrite Ht, Ht'. reflexivity. }
  split.
  - destruct SRC_BIN as [r |] eqn:Er; [| discriminate].
    unfold DecToBinCommand, BinToDecCommand.
    rewrite load_pattern_default, compile_src_bin, Er by exact Hsb.
    rewrite settings_default by exact Hdb. cbn [mbind option_bind].
    destruct (Hchain (DecToBin_item _CONVERT_DST_BIN_DFLT) (BinToDec_item r)
                "decimal" "binary") as (H1 & H2 & H3).
    { intros n Hn. apply dec_to_bin_to_dec; assumption. }
    eexists _, _. split; [reflexivity |]. split; [exact H1 |].
    split; [reflexivity |]. split; [exact H2 | exact H3].
  - destruct SRC_HEX as [r |] eqn:Er; [| discriminate].
    unfold DecToHexCommand, HexToDecCommand.
    rewrite load_pattern_default, compile_src_hex, Er by exact Hsh.
    rewrite settings_default by exact Hdh. cbn [mbind option_bind].
    destruct (Hchain (DecToHex_item _CONVERT_DST_HEX_DFLT) (HexToDec_item r)
                "decimal" "hexadecimal") as (H1 & H2 & H3).
    { intros n Hn. apply dec_to_hex_to_dec; assumption. }
    eexists _, _. split; [reflexivity |]. split; [exact H1 |].
    split; [reflexivity |]. split; [exact H2 | exact H3].
Qed.

Lemma decimal_roundtrip_witness :
  (exists b b',
      DecToBinCommand ∅ (map PyFmt.str [0; 5; 255]) = Some b
      /\ num_skip b = 0%nat
      /\ BinToDecCommand ∅ (map snd (replaced b)) = Some b'
      /\ num_skip b' = 0%nat
      /\ map snd (replaced b') = map PyFmt.str [0; 5; 255])
  /\ (exists h h',
         DecToHexCommand ∅ (map PyFmt.str [0; 5; 255]) = Some h
         /\ num_skip h = 0%nat
         /\ HexToDecCommand ∅ (map snd (replaced h)) = Some h'
         /\ num_skip h' = 0%nat
         /\ map snd (replaced h') = map PyFmt.str [0; 5; 255]).
Proof.
  apply (decimal_roundtrip ∅ [0; 5; 255]); try reflexivity.
  repeat constructor; try lia; vm_compute; reflexivity.
Defined.

(** X10: A negative integer of at most 4300 digits is rendered with a minus
    sign in front, which no built-in source pattern reads: the binary and the
    hexadecimal text of a negative decimal is skipped by the commands that
    convert back. *)
Theorem negative_not_read_back (rb rh : Re.Pattern) (n : Z) :
  SRC_BIN = Some rb -> SRC_HEX = Some rh -> - 10 ^ 4300 < n < 0 ->
  exists tb th,
    DecToBin_item _CONVERT_DST_BIN_DFLT (PyFmt.str n) = Some tb
    /\ BinToDec_item rb tb = None /\ SbinToDec_item rb tb = None
    /\ DecToHex_item _CONVERT_DST_HEX_DFLT (PyFmt.str n) = Some th
    /\ HexToDec_item rh th = None.
Proof.
  intros Hb Hh [_ Hn].
  exists (String "-" (PyFmt.to_digits 2 false (- n))),
    (String "-" ("0x" ++ PyFmt.to_digits 16 false (- n))).
  assert (Hnb : forall t, Re.match_ rb (String "-" t) = None).
  { intros t. apply no_match_without_word_start; [left; symmetry; exact Hb | reflexivity]. }
  assert (Hnh : forall t, Re.match_ rh (String "-" t) = None).
  { intros t. apply no_match_without_word_start;
      [right; right; left; symmetry; exact Hh | reflexivity]. }
  repeat split.
  - unfold DecToBin_item. rewrite int_strip_str. cbn [mbind option_bind].
    apply format_bin_negative. exact Hn.
  - unfold BinToDec_item. rewrite Hnb. reflexivity.
  - unfold SbinToDec_item. rewrite Hnb. reflexivity.
  - unfold DecToHex_item. rewrite int_strip_str. cbn [mbind option_bind].
    apply format_hex_negative. exact Hn.
  - unfold HexToDec_item. rewrite Hnh. reflexivity.
Qed.

Lemma negative_not_read_back_witness :
  exists rb rh tb th,
    SRC_BIN = Some rb /\ SRC_HEX = Some rh
    /\ DecToBin_item _CONVERT_DST_BIN_DFLT (PyFmt.str (-5)) = Some tb
    /\ BinToDec_item rb tb = None /\ SbinToDec_item rb tb = None
    /\ DecToHex_item _CONVERT_DST_HEX_DFLT (PyFmt.str (-5)) = Some th
    /\ HexToDec_item rh th = None.
Proof.
  destruct SRC_BIN as [rb |] eqn:Eb; [| discriminate].
  destruct SRC_HEX as [rh |] eqn:Eh; [| discriminate].
  destruct (negative_not_read_back rb rh (-5) Eb Eh) as (tb & th & H);
    [split; [vm_compute; reflexivity | lia] |].
  exists rb, rh, tb, th. split; [reflexivity |]. split; [reflexivity | exact H].
Defined.

(** ** Fixed-point literals in a selection *)

Lemma between_one (c : ascii) (cons rest rest' : list ascii) (caps caps' : list (nat * string)) :
  Re.between (Re.mkState cons rest caps) (Re.mkState (c :: cons) rest' caps')
  = String c "".
Proof.
  unfold Re.between. cbn [Re.consumed length].
  replace (S (length cons) - length cons)%nat with 1%nat by lia. reflexivity.
Qed.

(** The fixed-point source pattern on two runs of binary digits around a
    point, behind an optional [0b] and in front of the end of the text or of
    a non-word character: the dictionary of the named groups holds the two
    runs. *)
Lemma match_fxd_literal (r : Re.Pattern) (pre I F rest : string) :
  SRC_FXD = Some r ->
  pre = "" \/ pre = "0b" ->
  PyStr.is_bits I -> PyStr.is_bits F -> no_word_start rest ->
  exists m, Re.match_ r (pre ++ I ++ "." ++ F ++ rest) = Some m
            /\ Re.groupdict m = fixed_groups I F.
Proof.
  intros Hr Hpre [HIne HIb] [HFne HFb] Hrest. injection Hr as <-.
  unfold Re.match_. cbn [Re.syntax Re.groups app].
  rewrite !chars_app.
  remember (list_ascii_of_string I) as xs eqn:Exs.
  remember (list_ascii_of_string F) as ys eqn:Eys.
  remember (list_ascii_of_string rest) as rs eqn:Ers.
  change (list_ascii_of_string ".") with ["."%char].
  assert (HI : I = string_of_list_ascii xs)
    by (subst xs; symmetry; apply string_of_list_ascii_of_string).
  assert (HF : F = string_of_list_ascii ys)
    by (subst ys; symmetry; apply string_of_list_ascii_of_string).
  assert (Hxs : xs <> []) by (subst xs; apply chars_nonempty; exact HIne).
  assert (Hys : ys <> []) by (subst ys; apply chars_nonempty; exact HFne).
  assert (Hxc : Forall (fun c => Re.in_class false [("0", "0"); ("1", "1")]%char c = true) xs)
    by (subst xs; apply bits_chars; exact HIb).
  assert (Hyc : Forall (fun c => Re.in_class false [("0", "0"); ("1", "1")]%char c = true) ys)
    by (subst ys; apply bits_chars; exact HFb).
  assert (Hxw : Forall (fun c => Re.is_word (Some c) = true) xs).
  { eapply List.Forall_impl; [| exact Hxc]. intros c Hc. apply (bit_class_word c Hc). }
  assert (Hyw : Forall (fun c => Re.is_word (Some c) = true) ys).
  { eapply List.Forall_impl; [| exact Hyc]. intros c Hc. apply (bit_class_word c Hc). }
  assert (Hnw : Re.is_word (List.head rs) = false) by (subst rs; apply head_no_word; exact Hrest).
  assert (Hnb : match rs with
                | [] => True
                | y :: _ => Re.in_class false [("0", "0"); ("1", "1")]%char y = false
                end) by (subst rs; apply head_not_bit; exact Hrest).
  assert (Hgroups : forall cons,
    Re.rmatch
      (Re.Group 1 (Some "int")
         (Re.Seq Re.Empty (Re.Plus (Re.Class false [("0", "0"); ("1", "1")]%char))))
      (Re.rmatch
         (Re.Group 2 None (Re.Seq Re.Empty (Re.Class false [(".", ".")]%char)))
         (Re.rmatch
            (Re.Group 3 (Some "frac")
               (Re.Seq Re.Empty (Re.Plus (Re.Class false [("0", "0"); ("1", "1")]%char))))
            (Re.rmatch Re.WordB Some)))
      (Re.mkState cons (xs ++ ["."%char] ++ ys ++ rs) [])
    = Some (Re.mkState (rev ys ++ "."%char :: rev xs ++ cons) rs
              [(3%nat, F); (2%nat, "."); (1%nat, I)])).
  { intros cons. rewrite rmatch_group, rmatch_seq, rmatch_empty, rmatch_plus.
    apply plus_class_run; [exact Hxs | exact Hxc | reflexivity | |].
    { cbn [Re.ahead]. rewrite length_app. lia. }
    unfold Re.close_group at 1. cbn [Re.consumed Re.ahead Re.caps].
    rewrite between_run, <- HI.
    rewrite rmatch_group, rmatch_seq, rmatch_empty, rmatch_class.
    unfold Re.step. cbn [Re.ahead Re.consumed Re.caps app].
    change (Re.in_class false [(".", ".")]%char ".") with true. cbv iota.
    unfold Re.close_group at 1. cbn [Re.consumed Re.ahead Re.caps].
    rewrite between_one.
    rewrite rmatch_group, rmatch_seq, rmatch_empty, rmatch_plus.
    apply plus_class_run; [exact Hys | exact Hyc | exact Hnb | |].
    { cbn [Re.ahead]. rewrite length_app. lia. }
    rewrite rmatch_wordb. unfold Re.close_group. cbn [Re.consumed Re.ahead Re.caps].
    rewrite between_run, <- HF.
    pose proof (boundary_after_run ys ("."%char :: rev xs ++ cons) rs
                  [(3%nat, F); (2%nat, "."); (1%nat, I)] Hys Hyw Hnw) as Hend.
    rewrite Hend. reflexivity. }
  destruct Hpre as [-> | ->].
  - cbn [list_ascii_of_string app].
    assert (Hstart : Re.at_boundary (Re.mkState [] (xs ++ "."%char :: ys ++ rs) []) = true).
    { destruct xs as [| c xs']; [congruence |]. inversion Hxw; subst.
      unfold Re.at_boundary. cbn [Re.consumed Re.ahead List.head app].
      rewrite H1. reflexivity. }
    assert (Hno : forall t, (xs ++ "."%char :: ys ++ rs)%list <> "0"%char :: "b"%char :: t).
    { intros t Ht. destruct xs as [| c1 [| c2 xs']]; [congruence | |].
      - cbn [app] in Ht. discriminate Ht.
      - cbn [app] in Ht. injection Ht as _ -> _.
        inversion Hxc as [| ? ? _ H2]; subst. inversion H2 as [| ? ? Hb _]; subst.
        discriminate Hb. }
    match goal with
    | |- context [Re.rmatch ?R Some ?S] =>
        assert (Hrun : Re.rmatch R Some S
                       = Some (Re.mkState (rev ys ++ "."%char :: rev xs ++ []) rs
                                 [(3%nat, F); (2%nat, "."); (1%nat, I)]))
    end.
    { rewrite !rmatch_seq, rmatch_empty, rmatch_wordb, Hstart.
      rewrite rmatch_opt_none by (apply rmatch_lit2_fail; exact Hno).
      apply (Hgroups []). }
    rewrite Hrun. eexists. split; reflexivity.
  - cbn [list_ascii_of_string app].
    match goal with
    | |- context [Re.rmatch ?R Some ?S] =>
        assert (Hrun : Re.rmatch R Some S
                       = Some (Re.mkState (rev ys ++ "."%char :: rev xs ++ ["b"; "0"]%char) rs
                                 [(3%nat, F); (2%nat, "."); (1%nat, I)]))
    end.
    { rewrite !rmatch_seq, rmatch_empty, rmatch_wordb.
      change (Re.at_boundary
                (Re.mkState [] ("0"%char :: "b"%char :: (xs ++ "."%char :: ys ++ rs)%list) []))
        with true.
      cbv iota. apply rmatch_opt_some. rewrite rmatch_lit2.
      apply (Hgroups ["b"; "0"]%char). }
    rewrite Hrun. eexists. split; reflexivity.
Qed.

(** [UFixedToDecimal] and [FixedToDecimal] do not raise on binary digits. *)
Lemma fixed_total (I F : string) :
  PyStr.is_bits I ->
  (exists u, UFixedToDecimal (fixed_groups I F) = Some u)
  /\ (exists d, FixedToDecimal (fixed_groups I F) = Some d).
Proof.
  intros HI.
  assert (Hu : forall J, PyStr.is_bits J -> exists u, UFixedToDecimal (fixed_groups J F) = Some u).
  { intros J HJ. destruct (int_bits J HJ) as (n & Hn & _). eexists.
    unfold UFixedToDecimal. rewrite fixed_groups_int. cbn [mbind option_bind].
    rewrite Hn. cbn [mbind option_bind]. rewrite fixed_groups_frac. reflexivity. }
  split; [apply Hu; exact HI |].
  destruct I as [| c rest]; [destruct HI; congruence |].
  destruct (Ascii.eqb_spec c "0") as [-> | Hc].
  - rewrite (fixed_leading_zero _ (String "0" rest));
      [apply Hu; exact HI | apply fixed_groups_int | reflexivity].
  - rewrite (fixed_leading_one _ (String c rest) c);
      [| apply fixed_groups_int | reflexivity | exact Hc].
    cbn [PyStr.tail]. rewrite fixed_groups_replace.
    destruct (Hu (String "0" rest)) as (u & ->); [| eexists; reflexivity].
    destruct HI as [_ Hb]. cbn [PyStr.all_bits] in Hb. apply andb_true_iff in Hb as [_ Hb].
    split; [discriminate |]. cbn [PyStr.all_bits]. rewrite Hb. reflexivity.
Qed.

(** X11: On two runs [I], [F] of binary digits around a point, within the
    precision, behind an optional [0b] and in front of the end of the
    selection or of a non-word character, [UfxToDecCommand] and
    [SfxToDecCommand] do not skip: they write [str] of what
    [UFixedToDecimal] and [FixedToDecimal] return on the two runs. *)
Theorem fixed_literal_converts (r : Re.Pattern) (pre I F rest : string) :
  SRC_FXD = Some r ->
  pre = "" \/ pre = "0b" ->
  PyStr.is_bits I -> PyStr.is_bits F ->
  2 ^ PyStr.len I * 10 ^ PyStr.len F <= 10 ^ prec ->
  no_word_start rest ->
  exists u d,
    UFixedToDecimal (fixed_groups I F) = Some u
    /\ FixedToDecimal (fixed_groups I F) = Some d
    /\ UfxToDec_item r (pre ++ I ++ "." ++ F ++ rest) = Some (Dec.to_string u)
    /\ SfxToDec_item r (pre ++ I ++ "." ++ F ++ rest) = Some (Dec.to_string d).
Proof.
  intros Hr Hpre HI HF _ Hrest.
  destruct (match_fxd_literal r pre I F rest Hr Hpre HI HF Hrest) as (m & Hm & Hg).
  destruct (fixed_total I F HI) as [(u & Hu) (d & Hd)].
  exists u, d. split; [exact Hu |]. split; [exact Hd |].
  unfold UfxToDec_item, SfxToDec_item. rewrite Hm. cbn [mbind option_bind].
  rewrite Hg, Hu, Hd. split; reflexivity.
Qed.

Lemma fixed_literal_converts_witness :
  exists r u d,
    SRC_FXD = Some r
    /\ UFixedToDecimal (fixed_groups "101" "110") = Some u
    /\ FixedToDecimal (fixed_groups "101" "110") = Some d
    /\ UfxToDec_item r ("" ++ "101" ++ "." ++ "110" ++ ";") = Some (Dec.to_string u)
    /\ SfxToDec_item r ("" ++ "101" ++ "." ++ "110" ++ ";") = Some (Dec.to_string d).
Proof.
  destruct SRC_FXD as [r |] eqn:E; [| discriminate].
  destruct (fixed_literal_converts r "" "101" "110" ";") as (u & d & H);
    [exact E | left; reflexivity | split; [discriminate | reflexivity]
     | split; [discriminate | reflexivity] | vm_compute; discriminate | reflexivity |].
  exists r, u, d. split; [reflexivity | exact H].
Defined.

(** ** The results stay within the precision *)

Lemma ndigits_aux_bound (fuel : nat) :
  forall n, 1 <= n < 2 ^ Z.of_nat (S fuel) ->
            1 <= Dec.ndigits_aux fuel n /\ n < 10 ^ Dec.ndigits_aux fuel n.
Proof.
  induction fuel as [| f IH]; intros n Hn.
  - cbn [Dec.ndigits_aux]. change (2 ^ Z.of_nat 1) with 2 in Hn. cbn. lia.
  - cbn [Dec.ndigits_aux]. destruct (Z.ltb_spec n 10) as [Hlt | Hge]; [cbn; lia |].
    assert (Hq : 1 <= n / 10 < 2 ^ Z.of_nat (S f)).
    { split; [apply Z.div_le_lower_bound; lia |].
      rewrite (Nat2Z.inj_succ (S f)), Z.pow_succ_r in Hn by lia.
      apply Z.div_lt_upper_bound; [lia |].
      assert (0 < 2 ^ Z.of_nat (S f)) by (apply Z.pow_pos_nonneg; lia). nia. }
    destruct (IH _ Hq) as [H1 H2]. split; [lia |].
    rewrite Z.pow_add_r by lia. change (10 ^ 1) with 10.
    pose proof (Z.div_mod n 10 ltac:(lia)) as Hdm.
    pose proof (Z.mod_pos_bound n 10 ltac:(lia)). lia.
Qed.

Lemma ndigits_bound (n : Z) : 1 <= n -> 1 <= Dec.ndigits n /\ n < 10 ^ Dec.ndigits n.
Proof.
  intros Hn. unfold Dec.ndigits. apply ndigits_aux_bound.
  split; [exact Hn |].
  rewrite Nat2Z.inj_succ, Z2Nat.id by apply Z.log2_nonneg.
  apply Z.log2_spec. lia.
Qed.

Lemma abs_sgn_nonzero (x : Z) : x <> 0 -> Z.abs (Z.sgn x) = 1.
Proof. destruct x; [congruence | reflexivity | reflexivity]. Qed.

(** [_fix] leaves at most [p] digits. *)
Lemma fix_bound (p : Z) (d : Dec.Decimal) :
  0 < p -> Z.abs (Dec.coeff (Dec.fix_ p d)) < 10 ^ p.
Proof.
  intros Hp. unfold Dec.fix_.
  destruct (Z.ltb_spec (Z.abs (Dec.coeff d)) (10 ^ p)) as [Hlt | Hge]; [exact Hlt |].
  set (a := Z.abs (Dec.coeff d)) in *.
  assert (Hpp : 0 < 10 ^ p) by (apply Z.pow_pos_nonneg; lia).
  destruct (ndigits_bound a) as [Hn1 Hn2]; [lia |].
  set (nd := Dec.ndigits a) in *.
  assert (Hshift : p < nd).
  { destruct (Z_lt_le_dec p nd) as [H | H]; [exact H |].
    assert (10 ^ nd <= 10 ^ p) by (apply Z.pow_le_mono_r; lia). lia. }
  assert (HP : 0 < 10 ^ (nd - p)) by (apply Z.pow_pos_nonneg; lia).
  assert (Hsplit : 10 ^ nd = 10 ^ p * 10 ^ (nd - p)).
  { rewrite <- Z.pow_add_r by lia. f_equal. lia. }
  assert (Hq : 0 <= a / 10 ^ (nd - p) < 10 ^ p).
  { split; [apply Z.div_pos; lia |]. apply Z.div_lt_upper_bound; [lia |]. lia. }
  assert (Hr : 0 <= Dec.round_half_even a (nd - p) <= 10 ^ p).
  { unfold Dec.round_half_even.
    destruct (2 * (a mod 10 ^ (nd - p)) <? 10 ^ (nd - p)); [lia |].
    destruct (10 ^ (nd - p) <? 2 * (a mod 10 ^ (nd - p))); [lia |].
    destruct (Z.even (a / 10 ^ (nd - p))); lia. }
  assert (Hsgn : Z.abs (Z.sgn (Dec.coeff d)) = 1).
  { apply abs_sgn_nonzero. intros E. unfold a in Hge. rewrite E in Hge.
    change (Z.abs 0) with 0 in Hge. lia. }
  destruct (Z.eqb_spec (Dec.round_half_even a (nd - p)) (10 ^ p)) as [Heq | Hne];
    cbn [Dec.coeff]; rewrite Z.abs_mul, Hsgn, Z.mul_1_l.
  - assert (0 < 10 ^ (p - 1)) by (apply Z.pow_pos_nonneg; lia).
    rewrite Z.abs_eq by lia. apply Z.pow_lt_mono_r; lia.
  - rewrite Z.abs_eq by lia. lia.
Qed.

Lemma add_bound (p : Z) (a b : Dec.Decimal) :
  0 < p -> Z.abs (Dec.coeff (Dec.add p a b)) < 10 ^ p.
Proof.
  intros Hp. unfold Dec.add.
  destruct ((Dec.coeff a =? 0) && (Dec.coeff b =? 0))%bool; [apply fix_bound; exact Hp |].
  destruct (Dec.coeff a =? 0); [apply fix_bound; exact Hp |].
  destruct (Dec.coeff b =? 0); apply fix_bound; exact Hp.
Qed.

(** X12: Whatever digits the groups hold, a result of [UFixedToDecimal] or of
    [FixedToDecimal] has at most 128 significant digits. *)
Theorem results_within_precision (matches : gmap string string) (d : Dec.Decimal) :
  UFixedToDecimal matches = Some d \/ FixedToDecimal matches = Some d ->
  Z.abs (Dec.coeff d) < 10 ^ 128.
Proof.
  assert (Hu : forall m u, UFixedToDecimal m = Some u -> Z.abs (Dec.coeff u) < 10 ^ prec).
  { intros m u H. unfold UFixedToDecimal in H.
    destruct (m !! "int") as [I |]; [| discriminate]. cbn [mbind option_bind] in H.
    destruct (PyStr.int I 2) as [n |]; [| discriminate]. cbn [mbind option_bind] in H.
    destruct (m !! "frac") as [F |]; [| discriminate]. cbn [mbind option_bind] in H.
    injection H as <-. apply add_bound. reflexivity. }
  intros [H | H]; [exact (Hu _ _ H) |].
  unfold FixedToDecimal in H.
  destruct (matches !! "int") as [I |]; [| discriminate]. cbn [mbind option_bind] in H.
  destruct (PyStr.head I) as [c |]; [| discriminate]. cbn [mbind option_bind] in H.
  destruct (Ascii.eqb c "0"); [exact (Hu _ _ H) |].
  destruct (UFixedToDecimal _) as [u |]; [| discriminate]. cbn [mbind option_bind] in H.
  injection H as <-. apply add_bound. reflexivity.
Qed.

Lemma results_within_precision_witness :
  exists d,
    UFixedToDecimal (fixed_groups "1" (zeros_one 129)) = Some d
    /\ Z.abs (Dec.coeff d) < 10 ^ 128.
Proof.
  destruct (UFixedToDecimal (fixed_groups "1" (zeros_one 129))) as [d |] eqn:E;
    [| vm_compute in E; discriminate].
  exists d. split; [reflexivity |].
  apply (results_within_precision (fixed_groups "1" (zeros_one 129)) d).
  left. exact E.
Defined.

(** ** The integer part of a fixed-point result *)

Lemma fixed_units_twos (I F : string) :
  PyStr.is_bits I ->
  2 ^ PyStr.len I * 10 ^ PyStr.len F <= 10 ^ prec ->
  exists d t,
    FixedToDecimal (fixed_groups I F) = Some d
    /\ twos_complement I (PyStr.len I) 2 = Some t
    /\ - PyStr.len F <= Dec.expo d <= 0
    /\ units (PyStr.len F) d = t * 10 ^ PyStr.len F + frac_units (PyStr.len F) 0 F
    /\ 0 <= frac_units (PyStr.len F) 0 F < 10 ^ PyStr.len F.
Proof.
  intros HI Hfit. destruct I as [| c rest]; [destruct HI; congruence |].
  assert (Hk0 : 0 <= PyStr.len F) by (unfold PyStr.len; lia).
  assert (H10 : 0 < 10 ^ PyStr.len F) by (apply Z.pow_pos_nonneg; lia).
  assert (Hp0 : 0 <= PyStr.len rest) by (unfold PyStr.len; lia).
  assert (H2 : 0 < 2 ^ PyStr.len rest) by (apply Z.pow_pos_nonneg; lia).
  assert (Hpow : 2 ^ PyStr.len (String c rest) = 2 * 2 ^ PyStr.len rest).
  { replace (PyStr.len (String c rest)) with (Z.succ (PyStr.len rest))
      by (unfold PyStr.len; cbn [String.length]; lia).
    apply Z.pow_succ_r. exact Hp0. }
  destruct (int_zero_tail c rest HI) as (n & Hn & Hrange).
  pose proof (twos_complement_split c rest n HI Hn Hrange) as Htc.
  destruct (ufixed_units (fixed_groups (String "0" rest) F) (String "0" rest) F n)
    as (u & Hu & Heu & Huu & Hfu);
    [apply fixed_groups_int | apply fixed_groups_frac | exact Hn | lia | nia |].
  assert (Hc : c = "0"%char \/ c = "1"%char).
  { destruct HI as [_ Hb]. cbn [PyStr.all_bits] in Hb. apply andb_true_iff in Hb as [Hb _].
    apply orb_true_iff in Hb as [Hb | Hb]; apply Ascii.eqb_eq in Hb; auto. }
  destruct Hc as [-> | ->].
  - exists u, n. split.
    { rewrite (fixed_leading_zero _ (String "0" rest));
        [exact Hu | apply fixed_groups_int | reflexivity]. }
    split; [exact Htc |]. split; [exact Heu |]. split; [exact Huu | exact Hfu].
  - destruct (fixed_signed_units (String "1" rest) F HI eq_refl Hfit)
      as (d & u' & n' & Hd & Hu' & _ & _ & _ & Hed & Hud).
    cbn [PyStr.tail] in Hu'. assert (u' = u) by congruence. subst u'.
    replace (PyStr.len (String "1" rest) - 1) with (PyStr.len rest) in Hud
      by (unfold PyStr.len; cbn [String.length]; lia).
    exists d, (n - 2 ^ PyStr.len rest). split; [exact Hd |]. split; [exact Htc |].
    split; [exact Hed |]. split; [| exact Hfu].
    rewrite Hud, Huu. ring.
Qed.

Lemma twos_complement_range_aux (I : string) (t : Z) :
  PyStr.is_bits I -> twos_complement I (PyStr.len I) 2 = Some t ->
  - 2 ^ (PyStr.len I - 1) <= t <= 2 ^ (PyStr.len I - 1) - 1.
Proof.
  intros HI Ht. destruct (twos_complement_bits I HI) as (val & _ & Hr & Htc).
  pose proof (len_pos I (proj1 HI)) as Hn.
  rewrite Htc in Ht. injection Ht as <-.
  assert (Hp : 2 ^ PyStr.len I = 2 * 2 ^ (PyStr.len I - 1)).
  { replace (PyStr.len I) with (Z.succ (PyStr.len I - 1)) at 1 by lia.
    apply Z.pow_succ_r. lia. }
  rewrite (testbit_top val (PyStr.len I) Hn Hr).
  destruct (Z.leb_spec (2 ^ (PyStr.len I - 1)) val); lia.
Qed.

Lemma units_between (k : Z) (d : Dec.Decimal) (t fu : Z) :
  0 <= k -> - k <= Dec.expo d <= 0 ->
  units k d = t * 10 ^ k + fu -> 0 <= fu < 10 ^ k ->
  (inject_Z t <= Dec.to_Q d /\ Dec.to_Q d < inject_Z t + 1)%Q.
Proof.
  intros Hk He Hu Hfu.
  assert (HT : (0 < inject_Z (10 ^ k))%Q).
  { change 0%Q with (inject_Z 0). rewrite <- Zlt_Qlt. apply Z.pow_pos_nonneg; lia. }
  pose proof (to_Q_units k d He) as Hq. rewrite Hu in Hq.
  split.
  - apply (Qmult_le_r _ _ _ HT). rewrite Hq, <- inject_Z_mult, <- Zle_Qle. lia.
  - apply (Qmult_lt_r _ _ _ HT). rewrite Hq.
    change 1%Q with (inject_Z 1). rewrite <- inject_Z_plus, <- inject_Z_mult, <- Zlt_Qlt.
    lia.
Qed.

(** X13: Within the precision, the result of [UFixedToDecimal] lies between the
    integer [I] stands for and the next integer, and the result of
    [FixedToDecimal] between the two's complement of [I] and the next integer:
    the fractional digits add less than one, and the signed result stays in
    [- 2 ^ (len(I) - 1) .. 2 ^ (len(I) - 1)]. *)
Theorem fixed_point_integer_part (I F : string) :
  PyStr.is_bits I ->
  2 ^ PyStr.len I * 10 ^ PyStr.len F <= 10 ^ prec ->
  exists u n d t,
    UFixedToDecimal (fixed_groups I F) = Some u
    /\ PyStr.int I 2 = Some n
    /\ (inject_Z n <= Dec.to_Q u /\ Dec.to_Q u < inject_Z n + 1)%Q
    /\ FixedToDecimal (fixed_groups I F) = Some d
    /\ twos_complement I (PyStr.len I) 2 = Some t
    /\ (inject_Z t <= Dec.to_Q d /\ Dec.to_Q d < inject_Z t + 1)%Q
    /\ (- inject_Z (2 ^ (PyStr.len I - 1)) <= Dec.to_Q d
        /\ Dec.to_Q d < inject_Z (2 ^ (PyStr.len I - 1)))%Q.
Proof.
  intros HI Hfit.
  assert (Hk0 : 0 <= PyStr.len F) by (unfold PyStr.len; lia).
  assert (H10 : 0 < 10 ^ PyStr.len F) by (apply Z.pow_pos_nonneg; lia).
  destruct (int_bits I HI) as (n & Hn & Hnr).
  destruct (ufixed_units (fixed_groups I F) I F n) as (u & Hu & Heu & Huu & Hfu);
    [apply fixed_groups_int | apply fixed_groups_frac | exact Hn | lia | nia |].
  destruct (fixed_units_twos I F HI Hfit) as (d & t & Hd & Ht & Hed & Hud & _).
  pose proof (units_between _ u n _ Hk0 Heu Huu Hfu) as Hbu.
  pose proof (units_between _ d t _ Hk0 Hed Hud Hfu) as [Hlo Hhi].
  destruct (twos_complement_range_aux I t HI Ht) as [Htlo Hthi].
  exists u, n, d, t. repeat split; try assumption; try apply Hbu.
  - eapply Qle_trans; [| exact Hlo]. rewrite <- inject_Z_opp, <- Zle_Qle. lia.
  - eapply Qlt_le_trans; [exact Hhi |].
    change 1%Q with (inject_Z 1). rewrite <- inject_Z_plus, <- Zle_Qle. lia.
Qed.

Lemma fixed_point_integer_part_witness :
  exists u n d t,
    UFixedToDecimal (fixed_groups "101" "110") = Some u
    /\ PyStr.int "101" 2 = Some n
    /\ (inject_Z n <= Dec.to_Q u /\ Dec.to_Q u < inject_Z n + 1)%Q
    /\ FixedToDecimal (fixed_groups "101" "110") = Some d
    /\ twos_complement "101" (PyStr.len "101") 2 = Some t
    /\ (inject_Z t <= Dec.to_Q d /\ Dec.to_Q d < inject_Z t + 1)%Q
    /\ (- inject_Z (2 ^ (PyStr.len "101" - 1)) <= Dec.to_Q d
        /\ Dec.to_Q d < inject_Z (2 ^ (PyStr.len "101" - 1)))%Q.
Proof.
  apply (fixed_point_integer_part "101" "110").
  - split; [discriminate | reflexivity].
  - vm_compute. discriminate.
Defined.

(** ** Sign extension *)

Lemma parse_bits_leading (c : ascii) (rest : string) :
  PyStr.is_bits (String c rest) ->
  exists d v,
    PyStr.digit_val c = Some d /\ (d = 0 \/ d = 1)
    /\ PyStr.parse_digits 2 rest 0 = Some v /\ 0 <= v < 2 ^ PyStr.len rest
    /\ PyStr.parse_digits 2 (String c rest) 0 = Some (v + d * 2 ^ PyStr.len rest).
Proof.
  intros [_ Hb]. cbn [PyStr.all_bits] in Hb. apply andb_true_iff in Hb as [Hc Hr].
  destruct (digit_val_bit c Hc) as (d & Hd & Hrange & _).
  destruct (parse_digits_bits rest Hr 0) as (v & Hv & Hvr).
  exists d, v. split; [exact Hd |]. split; [lia |]. split; [exact Hv |]. split; [lia |].
  cbn [PyStr.parse_digits]. rewrite Hd.
  replace (d <? 2) with true by (symmetry; apply Z.ltb_lt; lia).
  change (0 * 2 + d) with (0 + d). apply parse_digits_shift; assumption.
Qed.

(** X14: Repeating the leading bit of a run of binary digits does not change
    its two's complement. *)
Theorem twos_complement_widening (c : ascii) (rest : string) :
  PyStr.is_bits (String c rest) ->
  twos_complement (String c (String c rest)) (PyStr.len (String c (String c rest))) 2
  = twos_complement (String c rest) (PyStr.len (String c rest)) 2.
Proof.
  intros HD.
  assert (HD2 : PyStr.is_bits (String c (String c rest))).
  { destruct HD as [_ Hb]. split; [discriminate |]. cbn [PyStr.all_bits] in *.
    apply andb_true_iff in Hb as [Hc Hr]. rewrite Hc, Hr. reflexivity. }
  destruct (twos_complement_bits _ HD) as (v1 & Hv1 & Hr1 & ->).
  destruct (twos_complement_bits _ HD2) as (v2 & Hv2 & Hr2 & ->).
  rewrite (testbit_top v1 _ (len_pos _ (proj1 HD)) Hr1).
  rewrite (testbit_top v2 _ (len_pos _ (proj1 HD2)) Hr2).
  rewrite (int_bits_parse _ HD) in Hv1. rewrite (int_bits_parse _ HD2) in Hv2.
  destruct (parse_bits_leading c rest HD) as (d & v & Hd & Hd01 & _ & Hvr & Hp1).
  destruct (parse_bits_leading c (String c rest) HD2) as (d' & v' & Hd' & _ & Hv' & _ & Hp2).
  assert (d' = d) by congruence. subst d'.
  assert (v' = v1) by congruence. subst v'.
  assert (E1 : v1 = v + d * 2 ^ PyStr.len rest) by congruence.
  assert (E2 : v2 = v1 + d * 2 ^ PyStr.len (String c rest)) by congruence.
  assert (HL : PyStr.len (String c rest) = Z.succ (PyStr.len rest))
    by (unfold PyStr.len; cbn [String.length]; lia).
  assert (HL2 : PyStr.len (String c (String c rest)) = Z.succ (PyStr.len (String c rest)))
    by (unfold PyStr.len; cbn [String.length]; lia).
  assert (Hp0 : 0 <= PyStr.len rest) by (unfold PyStr.len; lia).
  assert (H2 : 0 < 2 ^ PyStr.len rest) by (apply Z.pow_pos_nonneg; lia).
  replace (PyStr.len (String c (String c rest)) - 1) with (PyStr.len (String c rest)) by lia.
  replace (PyStr.len (String c rest) - 1) with (PyStr.len rest) by lia.
  assert (Hpow1 : 2 ^ PyStr.len (String c rest) = 2 * 2 ^ PyStr.len rest)
    by (rewrite HL; apply Z.pow_succ_r; lia).
  assert (Hpow2 : 2 ^ PyStr.len (String c (String c rest)) = 4 * 2 ^ PyStr.len rest)
    by (rewrite HL2, Z.pow_succ_r, Hpow1 by lia; ring).
  f_equal.
  destruct Hd01 as [-> | ->].
  - replace (2 ^ PyStr.len rest <=? v1) with false by (symmetry; apply Z.leb_gt; lia).
    replace (2 ^ PyStr.len (String c rest) <=? v2) with false
      by (symmetry; apply Z.leb_gt; lia).
    lia.
  - replace (2 ^ PyStr.len rest <=? v1) with true by (symmetry; apply Z.leb_le; lia).
    replace (2 ^ PyStr.len (String c rest) <=? v2) with true
      by (symmetry; apply Z.leb_le; lia).
    lia.
Qed.

Lemma twos_complement_widening_witness :
  twos_complement "1101" (PyStr.len "1101") 2 = twos_complement "101" (PyStr.len "101") 2.
Proof.
  apply (twos_complement_widening "1" "01"). split; [discriminate | reflexivity].
Defined.

(** ** Padding a fixed-point literal *)

Lemma frac_loop_app (F pad : string) :
  forall (i : Z) (value : Dec.Decimal),
    frac_loop i (F ++ pad) value = frac_loop (i + PyStr.len F) pad (frac_loop i F value).
Proof.
  induction F as [| c r IH]; intros i value.
  - cbn [frac_loop]. unfold PyStr.len. cbn [String.length Z.of_nat].
    rewrite Z.add_0_r. reflexivity.
  - change (String c r ++ pad) with (String c (r ++ pad)). cbn [frac_loop]. rewrite IH.
    f_equal. unfold PyStr.len. cbn [String.length]. lia.
Qed.

Lemma frac_loop_zeros (pad : string) :
  Forall (fun c => c <> "1"%char) (list_ascii_of_string pad) ->
  forall (i : Z) (value : Dec.Decimal), frac_loop i pad value = value.
Proof.
  induction pad as [| c r IH]; intros Hall i value; [reflexivity |].
  cbn [list_ascii_of_string] in Hall. inversion Hall as [| ? ? Hc Hr]; subst.
  cbn [frac_loop]. replace (Ascii.eqb c "1") with false
    by (symmetry; apply Ascii.eqb_neq; exact Hc).
  apply IH. exact Hr.
Qed.

(** X15: A zero in front of the integer digits and zeros behind the fractional
    digits change nothing: [UFixedToDecimal] returns the same [Decimal], and
    so does [FixedToDecimal] for the zeros behind, at every length. *)
Theorem fixed_point_padding (I F pad : string) :
  PyStr.is_bits I ->
  Forall (fun c => c = "0"%char) (list_ascii_of_string pad) ->
  UFixedToDecimal (fixed_groups (String "0" I) (F ++ pad)) = UFixedToDecimal (fixed_groups I F)
  /\ FixedToDecimal (fixed_groups I (F ++ pad)) = FixedToDecimal (fixed_groups I F).
Proof.
  intros HI Hpad.
  assert (Hpad' : Forall (fun c => c <> "1"%char) (list_ascii_of_string pad)).
  { eapply List.Forall_impl; [| exact Hpad]. intros c ->. discriminate. }
  assert (Hu : forall J, UFixedToDecimal (fixed_groups J (F ++ pad))
                         = UFixedToDecimal (fixed_groups J F)).
  { intros J. unfold UFixedToDecimal. rewrite !fixed_groups_int. cbn [mbind option_bind].
    destruct (PyStr.int J 2) as [n |]; [| reflexivity]. cbn [mbind option_bind].
    rewrite !fixed_groups_frac. cbn [mbind option_bind].
    rewrite frac_loop_app, frac_loop_zeros by exact Hpad'. reflexivity. }
  split.
  - rewrite Hu. unfold UFixedToDecimal. rewrite !fixed_groups_int. cbn [mbind option_bind].
    assert (HzI : PyStr.is_bits (String "0" I)).
    { split; [discriminate |]. cbn [PyStr.all_bits]. rewrite (proj2 HI). reflexivity. }
    rewrite (int_bits_parse _ HzI), (int_bits_parse _ HI). reflexivity.
  - destruct I as [| c rest]; [destruct HI; congruence |].
    destruct (Ascii.eqb_spec c "0") as [-> | Hc].
    + rewrite !(fixed_leading_zero _ (String "0" rest)) by
        (try apply fixed_groups_int; reflexivity).
      apply Hu.
    + rewrite !(fixed_leading_one _ (String c rest) c) by
        (try apply fixed_groups_int; try reflexivity; exact Hc).
      rewrite !fixed_groups_replace, Hu. reflexivity.
Qed.

Lemma fixed_point_padding_witness :
  UFixedToDecimal (fixed_groups (String "0" "101") ("11" ++ "00"))
  = UFixedToDecimal (fixed_groups "101" "11")
  /\ FixedToDecimal (fixed_groups "101" ("11" ++ "00")) = FixedToDecimal (fixed_groups "101" "11").
Proof.
  apply (fixed_point_padding "101" "11" "00").
  - split; [discriminate | reflexivity].
  - repeat constructor.
Defined.

(** ** Splitting a batch *)





(** ** The normalising loops: what they return, and when they do not *)

Lemma div10_succ_r (k : nat) (x : float) : div10 (S k) x = div10 k (PrimFloat.div x 10).
Proof. unfold div10. exact (Nat.iter_succ_r k (fun b => PrimFloat.div b 10) x). Qed.

Lemma mul10_succ_r (k : nat) (x : float) : mul10 (S k) x = mul10 k (PrimFloat.mul x 10).
Proof. unfold mul10. exact (Nat.iter_succ_r k (fun b => PrimFloat.mul b 10) x). Qed.

Lemma shrink_returns (fuel : nat) :
  forall (x b : float) (e e' : Z),
    Exp.shrink fuel x e = Some (b, e') ->
    exists i : nat,
      e' = e + Z.of_nat i /\ b = div10 i x
      /\ PrimFloat.ltb 10 b = false
      /\ (forall k : nat, (k < i)%nat -> PrimFloat.ltb 10 (div10 k x) = true).
Proof.
  induction fuel as [| f IH]; intros x b e e' H; [discriminate |].
  cbn [Exp.shrink] in H. destruct (PrimFloat.ltb 10 x) eqn:Hx.
  - destruct (IH _ _ _ _ H) as (i & He & Hb & Hstop & Hall).
    exists (S i). split; [lia |]. split; [rewrite div10_succ_r; exact Hb |].
    split; [exact Hstop |].
    intros [| k] Hk; [exact Hx |]. rewrite div10_succ_r. apply Hall. lia.
  - injection H as <- <-. exists 0%nat. split; [lia |]. split; [reflexivity |].
    split; [exact Hx |]. intros k Hk. lia.
Qed.

Lemma grow_returns (fuel : nat) :
  forall (x b : float) (e e' : Z),
    Exp.grow fuel x e = Some (b, e') ->
    exists j : nat,
      e' = e - Z.of_nat j /\ b = mul10 j x
      /\ PrimFloat.ltb b 1 = false
      /\ (forall k : nat, (k < j)%nat -> PrimFloat.ltb (mul10 k x) 1 = true).
Proof.
  induction fuel as [| f IH]; intros x b e e' H; [discriminate |].
  cbn [Exp.grow] in H. destruct (PrimFloat.ltb x 1) eqn:Hx.
  - destruct (IH _ _ _ _ H) as (j & He & Hb & Hstop & Hall).
    exists (S j). split; [lia |]. split; [rewrite mul10_succ_r; exact Hb |].
    split; [exact Hstop |].
    intros [| k] Hk; [exact Hx |]. rewrite mul10_succ_r. apply Hall. lia.
  - injection H as <- <-. exists 0%nat. split; [lia |]. split; [reflexivity |].
    split; [exact Hx |]. intros k Hk. lia.
Qed.

(** X17: Whenever the loops of [DecToExpCommand] return, the exponent is the number
    [i] of divisions by ten minus the number [j] of multiplications by ten, the
    mantissa is the value after these [i] divisions and [j] multiplications,
    the value was above 10 before each division and below 1 before each
    multiplication, and the mantissa is not below 1. *)
Theorem normalize_returns (fuel : nat) (x b : float) (e : Z) :
  Exp.normalize fuel x = Some (b, e) ->
  exists i j : nat,
    e = Z.of_nat i - Z.of_nat j
    /\ b = mul10 j (div10 i x)
    /\ (forall k : nat, (k < i)%nat -> PrimFloat.ltb 10 (div10 k x) = true)
    /\ PrimFloat.ltb 10 (div10 i x) = false
    /\ (forall k : nat, (k < j)%nat -> PrimFloat.ltb (mul10 k (div10 i x)) 1 = true)
    /\ PrimFloat.ltb b 1 = false.
Proof.
  unfold Exp.normalize. intros H.
  destruct (Exp.shrink fuel x 0) as [[b1 e1] |] eqn:Hs; [| discriminate].
  destruct (shrink_returns _ _ _ _ _ Hs) as (i & He1 & Hb1 & Hstop1 & Hall1).
  destruct (grow_returns _ _ _ _ _ H) as (j & He & Hb & Hstop & Hall).
  subst b1. exists i, j. repeat split; try assumption. lia.
Qed.

Lemma normalize_returns_witness :
  exists i j : nat,
    3 = Z.of_nat i - Z.of_nat j
    /\ PrimFloat.div 142 100 = mul10 j (div10 i 1420)
    /\ (forall k : nat, (k < i)%nat -> PrimFloat.ltb 10 (div10 k 1420) = true)
    /\ PrimFloat.ltb 10 (div10 i 1420) = false
    /\ (forall k : nat, (k < j)%nat -> PrimFloat.ltb (mul10 k (div10 i 1420)) 1 = true)
    /\ PrimFloat.ltb (PrimFloat.div 142 100) 1 = false.
Proof.
  apply (normalize_returns 4 1420 (PrimFloat.div 142 100) 3). vm_compute. reflexivity.
Defined.

Lemma shrink_stuck (fuel : nat) :
  forall (x : float) (e : Z),
    PrimFloat.ltb 10 x = true -> PrimFloat.div x 10 = x -> Exp.shrink fuel x e = None.
Proof.
  induction fuel as [| f IH]; intros x e Hx Hfix; [reflexivity |].
  cbn [Exp.shrink]. rewrite Hx, Hfix. apply IH; assumption.
Qed.

Lemma grow_stuck (fuel : nat) :
  forall (n : nat) (x : float) (e : Z),
    (forall k : nat, (k <= n)%nat -> PrimFloat.ltb (mul10 k x) 1 = true) ->
    PrimFloat.mul (mul10 n x) 10 = mul10 n x ->
    Exp.grow fuel x e = None.
Proof.
  induction fuel as [| f IH]; intros n x e Hall Hfix; [reflexivity |].
  cbn [Exp.grow].
  assert (H0 : PrimFloat.ltb x 1 = true) by (apply (Hall 0%nat); lia).
  rewrite H0.
  destruct n as [| n].
  - assert (Hx : PrimFloat.mul x 10 = x) by exact Hfix.
    rewrite Hx. apply (IH 0%nat); [intros k Hk | exact Hfix]. apply Hall. exact Hk.
  - apply (IH n).
    + intros k Hk. rewrite <- mul10_succ_r. apply Hall. lia.
    + rewrite <- mul10_succ_r. exact Hfix.
Qed.

(** X18: The loops of [DecToExpCommand] never return on a value above 10 that the
    division by ten leaves unchanged (infinity), nor on a value that is not
    above 10, is below 1 and stays below 1 under the multiplications by ten
    until one of them leaves it unchanged (zero, and every negative value:
    they end at minus infinity). *)
Theorem normalize_hangs (x : float) :
  (PrimFloat.ltb 10 x = true /\ PrimFloat.div x 10 = x)
  \/ (PrimFloat.ltb 10 x = false
      /\ exists n : nat,
           (forall k : nat, (k <= n)%nat -> PrimFloat.ltb (mul10 k x) 1 = true)
           /\ PrimFloat.mul (mul10 n x) 10 = mul10 n x) ->
  forall fuel : nat, Exp.normalize fuel x = None.
Proof.
  intros [[Hx Hfix] | [Hx (n & Hall & Hfix)]] fuel; unfold Exp.normalize.
  - rewrite shrink_stuck by assumption. reflexivity.
  - destruct fuel as [| f]; [reflexivity |].
    cbn [Exp.shrink]. rewrite Hx. apply (grow_stuck (S f) n); assumption.
Qed.

Lemma normalize_hangs_witness :
  (forall fuel : nat, Exp.normalize fuel infinity = None)
  /\ (forall fuel : nat, Exp.normalize fuel (-5)%float = None).
Proof.
  split.
  - apply (normalize_hangs infinity). left. split; reflexivity.
  - apply (normalize_hangs (-5)%float). right. split; [reflexivity |].
    exists 400%nat. split.
    + intros k _. apply below_one.
    + unfold mul10. change 400%nat with (400 + 0)%nat.
      rewrite (minus_infinity_late 0). reflexivity.
Defined.

(** ** Hexadecimal literals in a selection *)

Lemma hex_class_digit (c : ascii) :
  Re.in_class false [("0", "9"); ("a", "f"); ("A", "F")]%char c = hex_digit c.
Proof. destruct c as [[] [] [] [] [] [] [] []]; vm_compute; reflexivity. Qed.

Lemma hex_digit_word (c : ascii) : hex_digit c = true -> Re.is_word (Some c) = true.
Proof. destruct c as [[] [] [] [] [] [] [] []]; vm_compute; intros H; congruence. Qed.

Lemma hex_digit_val (c : ascii) :
  hex_digit c = true -> exists d, PyStr.digit_val c = Some d /\ 0 <= d < 16.
Proof.
  unfold hex_digit. destruct (PyStr.digit_val c) as [d |] eqn:E; [| discriminate].
  intros H. exists d. split; [reflexivity |]. apply Z.ltb_lt in H. split; [| exact H].
  unfold PyStr.digit_val in E.
  repeat match type of E with
         | (if ?b then _ else _) = _ => destruct b eqn:?; [injection E as <-; lia |]
         end.
  discriminate.
Qed.

Lemma hex_chars (D : string) :
  all_hex D = true ->
  Forall (fun c => Re.in_class false [("0", "9"); ("a", "f"); ("A", "F")]%char c = true)
    (list_ascii_of_string D).
Proof.
  induction D as [| c r IH]; cbn [all_hex list_ascii_of_string]; [constructor |].
  intros H. apply andb_true_iff in H as [Hc Hr].
  constructor; [rewrite hex_class_digit; exact Hc | apply IH; exact Hr].
Qed.

Lemma parse_digits_hex (s : string) :
  all_hex s = true ->
  forall acc, exists v,
    PyStr.parse_digits 16 s acc = Some v
    /\ acc * 16 ^ PyStr.len s <= v < (acc + 1) * 16 ^ PyStr.len s.
Proof.
  induction s as [| c r IH]; intros Hb acc.
  - exists acc. split; [reflexivity |]. unfold PyStr.len. simpl. lia.
  - cbn [all_hex] in Hb. apply andb_true_iff in Hb as [Hc Hr].
    destruct (hex_digit_val c Hc) as (d & Hd & Hrange).
    destruct (IH Hr (acc * 16 + d)) as (v & Hv & Hlo).
    exists v. split.
    + cbn [PyStr.parse_digits]. rewrite Hd.
      replace (d <? 16) with true by (symmetry; apply Z.ltb_lt; lia).
      exact Hv.
    + unfold PyStr.len in *. cbn [String.length]. rewrite Nat2Z.inj_succ, Z.pow_succ_r by lia.
      nia.
Qed.

(** On a string of hexadecimal digits [int] meets neither a sign nor a prefix. *)
Lemma int_hex_parse (s : string) :
  is_hex s -> PyStr.int s 16 = PyStr.parse_digits 16 s 0.
Proof.
  intros [Hne Hb]. destruct s as [| c r]; [congruence |].
  cbn [all_hex] in Hb. apply andb_true_iff in Hb as [Hc Hr].
  assert (Hint : PyStr.int (String c r) 16 = PyStr.parse_unsigned 16 (String c r)).
  { destruct c as [[] [] [] [] [] [] [] []]; try reflexivity; discriminate Hc. }
  rewrite Hint. unfold PyStr.parse_unsigned.
  assert (Hstrip : PyStr.strip_prefix 16 (String c r) = String c r).
  { destruct r as [| p r']; [destruct c as [[] [] [] [] [] [] [] []]; reflexivity |].
    cbn [all_hex] in Hr. apply andb_true_iff in Hr as [Hp _].
    destruct c as [[] [] [] [] [] [] [] []]; try reflexivity.
    destruct p as [[] [] [] [] [] [] [] []]; try reflexivity; discriminate Hp. }
  rewrite Hstrip. reflexivity.
Qed.

Lemma int_hex (s : string) :
  is_hex s -> exists v, PyStr.int s 16 = Some v /\ 0 <= v < 16 ^ PyStr.len s.
Proof.
  intros H. rewrite (int_hex_parse s H).
  destruct (parse_digits_hex s (proj2 H) 0) as (v & Hv & Hr).
  exists v. split; [exact Hv | lia].
Qed.

(** The hexadecimal source pattern on hexadecimal digits, behind an optional
    [0x], in front of an optional [h] and then of the end of the text or of a
    non-word character: the group 1 is the digits. *)
Lemma match_hex_literal (r : Re.Pattern) (pre D suf rest : string) :
  SRC_HEX = Some r ->
  pre = "" \/ pre = "0x" -> suf = "" \/ suf = "h" ->
  is_hex D -> no_word_start rest ->
  exists m, Re.match_ r (pre ++ D ++ suf ++ rest) = Some m /\ Re.group m 1 = Some D.
Proof.
  intros Hr Hpre Hsuf [Hne Hhex] Hrest. injection Hr as <-.
  unfold Re.match_. cbn [Re.syntax].
  rewrite !chars_app.
  remember (list_ascii_of_string D) as xs eqn:Exs.
  remember (list_ascii_of_string rest) as rs eqn:Ers.
  assert (HD : D = string_of_list_ascii xs)
    by (subst xs; symmetry; apply string_of_list_ascii_of_string).
  assert (Hxs : xs <> []) by (subst xs; apply chars_nonempty; exact Hne).
  assert (Hcls : Forall (fun c =>
            Re.in_class false [("0", "9"); ("a", "f"); ("A", "F")]%char c = true) xs).
  { subst xs. apply hex_chars. exact Hhex. }
  assert (Hw : Forall (fun c => Re.is_word (Some c) = true) xs).
  { eapply List.Forall_impl; [| exact Hcls]. intros c Hc. apply hex_digit_word.
    rewrite <- hex_class_digit. exact Hc. }
  assert (Hnw : Re.is_word (List.head rs) = false) by (subst rs; apply head_no_word; exact Hrest).
  assert (Hnx : forall y t, rs = y :: t ->
            Re.in_class false [("0", "9"); ("a", "f"); ("A", "F")]%char y = false
            /\ y <> "h"%char).
  { intros y t ->. cbn [List.head] in Hnw. split.
    - rewrite hex_class_digit. destruct (hex_digit y) eqn:E; [| reflexivity].
      apply hex_digit_word in E. congruence.
    - intros ->. discriminate Hnw. }
  assert (Hgroup : forall cons,
    Re.rmatch
      (Re.Group 1 None
         (Re.Seq Re.Empty
            (Re.Plus (Re.Class false [("0", "9"); ("a", "f"); ("A", "F")]%char))))
      (Re.rmatch (Re.Opt (Re.Chr "h")) (Re.rmatch Re.WordB Some))
      (Re.mkState cons (xs ++ list_ascii_of_string suf ++ rs) [])
    = Some (Re.mkState (rev (list_ascii_of_string suf) ++ rev xs ++ cons) rs [(1%nat, D)])).
  { intros cons. rewrite rmatch_group, rmatch_seq, rmatch_empty, rmatch_plus.
    apply plus_class_run; [exact Hxs | exact Hcls | | |].
    - destruct Hsuf as [-> | ->]; cbn [list_ascii_of_string app]; [| reflexivity].
      destruct rs as [| y t]; [exact I |]. apply (Hnx y t eq_refl).
    - cbn [Re.ahead]. rewrite length_app. lia.
    - unfold Re.close_group. cbn [Re.consumed Re.ahead Re.caps].
      rewrite between_run, <- HD.
      destruct Hsuf as [-> | ->]; cbn [list_ascii_of_string app rev].
      + rewrite rmatch_opt_none.
        * rewrite rmatch_wordb.
          rewrite (boundary_after_run xs cons rs [(1%nat, D)] Hxs Hw Hnw). reflexivity.
        * cbn [Re.rmatch]. unfold Re.step. cbn [Re.ahead].
          destruct rs as [| y t]; [reflexivity |].
          destruct (Ascii.eqb_spec "h"%char y) as [<- | _]; [| reflexivity].
          exfalso. apply (proj2 (Hnx _ _ eq_refl)). reflexivity.
      + apply rmatch_opt_some.
        cbn [Re.rmatch]. unfold Re.step. cbn [Re.ahead Re.consumed Re.caps].
        rewrite Ascii.eqb_refl.
        unfold Re.at_boundary. cbn [Re.consumed Re.ahead List.head]. rewrite Hnw.
        reflexivity. }
  destruct Hpre as [-> | ->].
  - cbn [list_ascii_of_string app].
    assert (Hstart : Re.at_boundary
                       (Re.mkState [] (xs ++ list_ascii_of_string suf ++ rs) []) = true).
    { destruct xs as [| c xs']; [congruence |]. inversion Hw; subst.
      unfold Re.at_boundary. cbn [Re.consumed Re.ahead List.head app].
      rewrite H1. reflexivity. }
    assert (Hno : forall t, (xs ++ list_ascii_of_string suf ++ rs)%list
                            <> "0"%char :: "x"%char :: t).
    { intros t Ht. destruct xs as [| c1 [| c2 xs']]; [congruence | |].
      - cbn [app] in Ht.
        destruct Hsuf as [-> | ->]; cbn [list_ascii_of_string app] in Ht; [| discriminate].
        destruct rs as [| y rs']; [discriminate |].
        injection Ht as _ -> _. cbn [List.head] in Hnw. discriminate Hnw.
      - cbn [app] in Ht. injection Ht as _ -> _.
        inversion Hcls as [| ? ? _ H2]; subst. inversion H2 as [| ? ? Hb _]; subst.
        discriminate Hb. }
    match goal with
    | |- context [Re.rmatch ?R Some ?S] =>
        assert (Hrun : Re.rmatch R Some S
                       = Some (Re.mkState (rev (list_ascii_of_string suf) ++ rev xs ++ [])
                                 rs [(1%nat, D)]))
    end.
    { rewrite !rmatch_seq, rmatch_empty, rmatch_wordb, Hstart.
      rewrite rmatch_opt_none by (apply rmatch_lit2_fail; exact Hno).
      apply Hgroup. }
    rewrite Hrun. eexists. split; reflexivity.
  - cbn [list_ascii_of_string app].
    match goal with
    | |- context [Re.rmatch ?R Some ?S] =>
        assert (Hrun : Re.rmatch R Some S
                       = Some (Re.mkState
                                 (rev (list_ascii_of_string suf) ++ rev xs ++ ["x"; "0"]%char)
                                 rs [(1%nat, D)]))
    end.
    { rewrite !rmatch_seq, rmatch_empty, rmatch_wordb.
      change (Re.at_boundary
                (Re.mkState [] ("0"%char :: "x"%char
                                  :: (xs ++ list_ascii_of_string suf ++ rs)%list) []))
        with true.
      cbv iota. apply rmatch_opt_some. rewrite rmatch_lit2. apply Hgroup. }
    rewrite Hrun. eexists. split; reflexivity.
Qed.

(** X7: On a run [D] of at most 3500 hexadecimal digits of either case (a
    value of fewer than 4300 decimal digits, which [str] renders), behind an optional
    [0x], in front of an optional [h] and then of the end of the selection or
    of a non-word character, [HexToDecCommand] writes [str(int(D, 16))] and
    [HexToBinCommand] formats [int(D, 16)]: the forms [10], [0x10], [10h] and
    [0x10h] of the comment of the source. *)
Theorem hex_literal_converts (dst_format : string) (r : Re.Pattern)
  (pre D suf rest : string) :
  SRC_HEX = Some r ->
  pre = "" \/ pre = "0x" -> suf = "" \/ suf = "h" ->
  is_hex D -> PyStr.len D <= 3500 -> no_word_start rest ->
  exists n,
    PyStr.int D 16 = Some n /\ 0 <= n < 16 ^ PyStr.len D
    /\ HexToDec_item r (pre ++ D ++ suf ++ rest) = Some (PyFmt.str n)
    /\ HexToBin_item dst_format r (pre ++ D ++ suf ++ rest) = PyFmt.format dst_format n.
Proof.
  intros Hr Hpre Hsuf HD _ Hrest.
  destruct (match_hex_literal r pre D suf rest Hr Hpre Hsuf HD Hrest) as (m & Hm & Hg).
  destruct (int_hex D HD) as (n & Hn & Hrange).
  exists n. split; [exact Hn |]. split; [exact Hrange |].
  unfold HexToDec_item, HexToBin_item. rewrite Hm. cbn [mbind option_bind].
  rewrite Hg. cbn [mbind option_bind]. rewrite Hn. split; reflexivity.
Qed.

Lemma hex_literal_converts_witness :
  exists r n,
    SRC_HEX = Some r
    /\ PyStr.int "fF" 16 = Some n /\ 0 <= n < 16 ^ PyStr.len "fF"
    /\ HexToDec_item r "0xfFh;" = Some (PyFmt.str n)
    /\ HexToBin_item "{0:b}" r "0xfFh;" = PyFmt.format "{0:b}" n.
Proof.
  destruct SRC_HEX as [r |] eqn:E; [| discriminate E].
  destruct (hex_literal_converts "{0:b}" r "0x" "fF" "h" ";") as (n & H);
    [exact E | right; reflexivity | right; reflexivity
    | split; [discriminate | reflexivity] | vm_compute; discriminate | reflexivity |].
  exists r, n. split; [reflexivity | exact H].
Defined.

(** X8: A selection that does not start with a hexadecimal digit is skipped by
    [HexToDecCommand] and [HexToBinCommand]: so is the form [h10] that the
    comment of the source lists as valid. *)
Theorem hex_needs_leading_digit (dst_format : string) (r : Re.Pattern) (text : string) :
  SRC_HEX = Some r -> no_hex_start text ->
  HexToDec_item r text = None /\ HexToBin_item dst_format r text = None.
Proof.
  intros Hr Htext. injection Hr as <-.
  assert (Hm : Re.match_
                 (Re.mkPattern "\b(?:0x)?([0-9a-fA-F]+)h?\b"
                    (Re.Seq
                       (Re.Seq
                          (Re.Seq
                             (Re.Seq (Re.Seq Re.Empty Re.WordB)
                                (Re.Opt (Re.Seq (Re.Seq Re.Empty (Re.Chr "0")) (Re.Chr "x"))))
                             (Re.Group 1 None
                                (Re.Seq Re.Empty
                                   (Re.Plus
                                      (Re.Class false
                                         [("0", "9"); ("a", "f"); ("A", "F")]%char)))))
                          (Re.Opt (Re.Chr "h")))
                       Re.WordB)) text = None).
  { unfold Re.match_. cbn [Re.syntax].
    rewrite !rmatch_seq, rmatch_empty, rmatch_wordb.
    destruct (Re.at_boundary _); [| reflexivity].
    rewrite rmatch_opt_none.
    - rewrite rmatch_group, rmatch_seq, rmatch_empty, rmatch_plus, plus_loop_S, rmatch_class.
      unfold Re.step. cbn [Re.ahead].
      destruct text as [| c t]; [reflexivity |].
      cbn [list_ascii_of_string no_hex_start] in *.
      rewrite hex_class_digit, Htext. reflexivity.
    - apply rmatch_lit2_fail. intros t Ht.
      destruct text as [| c t']; [discriminate |].
      cbn [list_ascii_of_string no_hex_start] in *. injection Ht as -> _.
      discriminate Htext. }
  unfold HexToDec_item, HexToBin_item. rewrite Hm. split; reflexivity.
Qed.

Lemma hex_needs_leading_digit_witness :
  exists r,
    SRC_HEX = Some r
    /\ HexToDec_item r "h10" = None /\ HexToBin_item "{0:b}" r "h10" = None.
Proof.
  destruct SRC_HEX as [r |] eqn:E; [| discriminate E].
  exists r. split; [reflexivity |].
  apply (hex_needs_leading_digit "{0:b}" r "h10"); [exact E | reflexivity].
Defined.

(** ** Exponential literals in a selection *)

Lemma dec_class_digit (c : ascii) :
  Re.in_class false [("0", "9")]%char c = dec_digit c.
Proof. destruct c as [[] [] [] [] [] [] [] []]; vm_compute; reflexivity. Qed.

Lemma dec_digit_word (c : ascii) : dec_digit c = true -> Re.is_word (Some c) = true.
Proof. destruct c as [[] [] [] [] [] [] [] []]; vm_compute; intros H; congruence. Qed.

Lemma digits_chars (D : string) :
  all_digits D = true ->
  Forall (fun c => Re.in_class false [("0", "9")]%char c = true) (list_ascii_of_string D).
Proof.
  induction D as [| c r IH]; cbn [all_digits list_ascii_of_string]; [constructor |].
  intros H. apply andb_true_iff in H as [Hc Hr].
  constructor; [rewrite dec_class_digit; exact Hc | apply IH; exact Hr].
Qed.

Lemma rmatch_chr c k cons xs caps :
  Re.rmatch (Re.Chr c) k (Re.mkState cons (c :: xs) caps)
  = k (Re.mkState (c :: cons) xs caps).
Proof.
  cbn [Re.rmatch]. unfold Re.step. cbn [Re.ahead Re.consumed Re.caps].
  rewrite Ascii.eqb_refl. reflexivity.
Qed.

Lemma rmatch_chr_inv c k s r :
  Re.rmatch (Re.Chr c) k s = Some r -> exists xs, Re.ahead s = c :: xs.
Proof.
  destruct s as [cons ahead caps]. cbn [Re.rmatch]. unfold Re.step. cbn [Re.ahead].
  destruct ahead as [| x xs]; [discriminate |].
  destruct (Ascii.eqb_spec c x) as [<- | _]; [| discriminate].
  intros _. exists xs. reflexivity.
Qed.

(** The text consumed between two states is what the second has consumed on
    top of the first. *)
Lemma between_rev (zs cons a a' : list ascii) (caps caps' : list (nat * string)) :
  Re.between (Re.mkState cons a caps) (Re.mkState (zs ++ cons) a' caps')
  = string_of_list_ascii (rev zs).
Proof.
  unfold Re.between. cbn [Re.consumed]. rewrite length_app.
  replace (length zs + length cons - length cons)%nat with (length zs) by lia.
  rewrite firstn_app, Nat.sub_diag, firstn_all. cbn [firstn].
  rewrite app_nil_r. reflexivity.
Qed.

(** The exponential source pattern on a mantissa [A.B] and an exponent [S C],
    with runs of digits [A], [B], [C] and an optional sign [S], around one of
    the three characters of the class [[e,E]], in front of the end of the text
    or of a non-word character: the groups are the mantissa and the
    exponent. *)
Lemma match_exp_literal (r : Re.Pattern) (A B S C rest : string) (sep : ascii) :
  SRC_EXP = Some r ->
  is_digits A -> is_digits B -> is_digits C ->
  sep = "e"%char \/ sep = ","%char \/ sep = "E"%char ->
  S = "" \/ S = "-" \/ S = "+" ->
  no_word_start rest ->
  exists m, Re.match_ r (A ++ "." ++ B ++ String sep (S ++ C ++ rest)) = Some m
            /\ Re.group m 1 = Some (A ++ "." ++ B)
            /\ Re.group m 2 = Some (S ++ C).
Proof.
  intros Hr [HAne HAd] [HBne HBd] [HCne HCd] Hsep HS Hrest. injection Hr as <-.
  unfold Re.match_. cbn [Re.syntax].
  rewrite !chars_app. cbn [list_ascii_of_string]. rewrite !chars_app.
  remember (list_ascii_of_string A) as xs eqn:Exs.
  remember (list_ascii_of_string B) as ys eqn:Eys.
  remember (list_ascii_of_string C) as zs eqn:Ezs.
  remember (list_ascii_of_string S) as sg eqn:Esg.
  remember (list_ascii_of_string rest) as rs eqn:Ers.
  cbn [app].
  assert (HA : A = string_of_list_ascii xs) by (apply chars_of_string; congruence).
  assert (HB : B = string_of_list_ascii ys) by (apply chars_of_string; congruence).
  assert (HC : C = string_of_list_ascii zs) by (apply chars_of_string; congruence).
  assert (HSs : S = string_of_list_ascii sg) by (apply chars_of_string; congruence).
  assert (Hxs : xs <> []) by (subst xs; apply chars_nonempty; exact HAne).
  assert (Hys : ys <> []) by (subst ys; apply chars_nonempty; exact HBne).
  assert (Hzs : zs <> []) by (subst zs; apply chars_nonempty; exact HCne).
  assert (Hxc : Forall (fun c => Re.in_class false [("0", "9")]%char c = true) xs)
    by (subst xs; apply digits_chars; exact HAd).
  assert (Hyc : Forall (fun c => Re.in_class false [("0", "9")]%char c = true) ys)
    by (subst ys; apply digits_chars; exact HBd).
  assert (Hzc : Forall (fun c => Re.in_class false [("0", "9")]%char c = true) zs)
    by (subst zs; apply digits_chars; exact HCd).
  assert (Hxw : Forall (fun c => Re.is_word (Some c) = true) xs).
  { eapply List.Forall_impl; [| exact Hxc]. intros c Hc. apply dec_digit_word.
    rewrite <- dec_class_digit. exact Hc. }
  assert (Hzw : Forall (fun c => Re.is_word (Some c) = true) zs).
  { eapply List.Forall_impl; [| exact Hzc]. intros c Hc. apply dec_digit_word.
    rewrite <- dec_class_digit. exact Hc. }
  assert (Hnw : Re.is_word (List.head rs) = false) by (subst rs; apply head_no_word; exact Hrest).
  assert (Hnd : match rs with
                | [] => True
                | y :: _ => Re.in_class false [("0", "9")]%char y = false
                end).
  { destruct rs as [| y t]; [exact I |]. cbn [List.head] in Hnw.
    rewrite dec_class_digit. destruct (dec_digit y) eqn:E; [| reflexivity].
    apply dec_digit_word in E. congruence. }
  assert (Hsg : sg = [] \/ sg = ["-"%char] \/ sg = ["+"%char]).
  { subst sg. destruct HS as [-> | [-> | ->]]; auto. }
  assert (Hstart : Re.at_boundary
                     (Re.mkState [] (xs ++ "."%char :: ys ++ sep :: sg ++ zs ++ rs) []) = true).
  { destruct xs as [| c xs']; [congruence |]. inversion Hxw; subst.
    unfold Re.at_boundary. cbn [Re.consumed Re.ahead List.head app].
    rewrite H1. reflexivity. }
  match goal with
  | |- context [Re.rmatch ?R Some ?S0] =>
      assert (Hrun : Re.rmatch R Some S0
                     = Some (Re.mkState
                               (rev zs ++ rev sg ++ sep :: rev ys ++ "."%char :: rev xs ++ [])
                               rs [(2%nat, S ++ C); (1%nat, A ++ "." ++ B)]))
  end.
  { rewrite !rmatch_seq, rmatch_empty, rmatch_wordb, Hstart.
    rewrite rmatch_group, !rmatch_seq, rmatch_empty, rmatch_plus.
    apply plus_class_run; [exact Hxs | exact Hxc | reflexivity | |].
    { cbn [Re.ahead]. rewrite length_app. lia. }
    rewrite rmatch_chr, rmatch_plus.
    apply plus_class_run; [exact Hys | exact Hyc | | |].
    { destruct Hsep as [-> | [-> | ->]]; reflexivity. }
    { cbn [Re.ahead]. rewrite length_app. lia. }
    unfold Re.close_group at 1. cbn [Re.consumed Re.ahead Re.caps].
    assert (Hg1 : forall a a' caps caps',
              Re.between (Re.mkState [] a caps)
                (Re.mkState (rev ys ++ "."%char :: rev xs ++ []) a' caps')
              = A ++ "." ++ B).
    { intros a a' caps caps'.
      replace (rev ys ++ "."%char :: rev xs ++ [])%list
        with ((rev ys ++ "."%char :: rev xs) ++ [])%list
        by (rewrite <- app_assoc; reflexivity).
      rewrite between_rev, rev_app_distr. cbn [rev].
      rewrite !rev_involutive, <- app_assoc, string_of_app.
      cbn [app string_of_list_ascii].
      rewrite <- HA, <- HB. reflexivity. }
    rewrite Hg1.
    rewrite rmatch_class. unfold Re.step. cbn [Re.ahead Re.consumed Re.caps].
    replace (Re.in_class false [("e", "e"); (",", ","); ("E", "E")]%char sep) with true
      by (destruct Hsep as [-> | [-> | ->]]; reflexivity).
    rewrite rmatch_group, !rmatch_seq, rmatch_empty.
    assert (Hdigits : forall cons caps,
      Re.rmatch (Re.Plus (Re.Class false [("0", "9")]%char))
        (fun s' => Re.rmatch Re.WordB Some
           (Re.close_group 2
              (Re.mkState (sep :: rev ys ++ "."%char :: rev xs ++ []) (sg ++ zs ++ rs) caps)
              s'))
        (Re.mkState (rev sg ++ cons) (zs ++ rs) caps)
      = Some (Re.mkState (rev zs ++ rev sg ++ cons) rs
                ((2%nat,
                  Re.between
                    (Re.mkState (sep :: rev ys ++ "."%char :: rev xs ++ []) (sg ++ zs ++ rs) caps)
                    (Re.mkState (rev zs ++ rev sg ++ cons) rs caps)) :: caps))).
    { intros cons caps. rewrite rmatch_plus.
      apply plus_class_run; [exact Hzs | exact Hzc | exact Hnd | |].
      { cbn [Re.ahead]. rewrite length_app. lia. }
      rewrite rmatch_wordb. unfold Re.close_group. cbn [Re.consumed Re.ahead Re.caps].
      rewrite (boundary_after_run zs (rev sg ++ cons) rs _ Hzs Hzw Hnw). reflexivity. }
    assert (Hg2 : forall a a' caps caps',
              Re.between
                (Re.mkState (sep :: rev ys ++ "."%char :: rev xs ++ []) a caps)
                (Re.mkState (rev zs ++ rev sg ++ sep :: rev ys ++ "."%char :: rev xs ++ [])
                   a' caps')
              = S ++ C).
    { intros a a' caps caps'.
      rewrite app_assoc, between_rev, rev_app_distr, !rev_involutive, string_of_app.
      rewrite <- HSs, <- HC. reflexivity. }
    destruct Hsg as [Es | Es].
    - rewrite Es in *. cbn [app rev] in *.
      rewrite rmatch_opt_none.
      + rewrite (Hdigits (sep :: rev ys ++ "."%char :: rev xs ++ [])%list). cbn [app].
        rewrite (Hg2 _ _ _ _). reflexivity.
      + rewrite rmatch_class. unfold Re.step. cbn [Re.ahead].
        destruct zs as [| z zs']; [congruence |]. cbn [app].
        inversion Hzc as [| ? ? Hz _]; subst.
        destruct z as [[] [] [] [] [] [] [] []]; try reflexivity; discriminate Hz.
    - apply rmatch_opt_some. rewrite rmatch_class. unfold Re.step.
      cbn [Re.ahead Re.consumed Re.caps].
      destruct Es as [Es | Es]; rewrite Es in *; cbn [app rev] in *;
        match goal with
        | |- context [Re.in_class ?n ?rg ?c] =>
            change (Re.in_class n rg c) with true; cbv iota
        end;
        [ rewrite (Hdigits (sep :: rev ys ++ "."%char :: rev xs ++ [])%list
                     [(1%nat, A ++ "." ++ B)] : _ = _)
        | rewrite (Hdigits (sep :: rev ys ++ "."%char :: rev xs ++ [])%list
                     [(1%nat, A ++ "." ++ B)] : _ = _) ];
        cbn [app]; rewrite (Hg2 _ _ _ _); reflexivity. }
  rewrite Hrun. eexists. split; [reflexivity |]. split; reflexivity.
Qed.

Section Exponential.

Variable float_of_text : string -> option float.
Variable pow10 : float -> option float.
Variable round18 : float -> option float.
Variable text_of_float : float -> string.

(** X19: On a mantissa [A.B] and an exponent [S C] (runs of digits [A], [B], [C],
    an optional sign [S]) around [e], [E] or a comma, in front of the end of
    the selection or of a non-word character, [ExpToDecCommand] converts
    [float(A.B) * 10 ** float(S C)].  The comma of the class [[e,E]] of the
    pattern is an exponent marker like the two letters, so that [1.42,3] is
    converted like [1.42e3], and the text behind the literal is replaced with
    it and lost. *)
Theorem exp_literal_converts (r : Re.Pattern) (A B S C rest : string) (sep : ascii) :
  SRC_EXP = Some r ->
  is_digits A -> is_digits B -> is_digits C ->
  sep = "e"%char \/ sep = ","%char \/ sep = "E"%char ->
  S = "" \/ S = "-" \/ S = "+" ->
  no_word_start rest ->
  Exp.ExpToDec_item float_of_text pow10 round18 text_of_float r
    (A ++ "." ++ B ++ String sep (S ++ C ++ rest))
  = (mantissa ← float_of_text (A ++ "." ++ B);
     exponent ← float_of_text (S ++ C);
     power ← pow10 exponent;
     result ← round18 (PrimFloat.mul mantissa power);
     Some (PyFmt.rstrip (Ascii.eqb ".")
             (PyFmt.rstrip (Ascii.eqb "0") (text_of_float result))))
  /\ Exp.ExpToDec_item float_of_text pow10 round18 text_of_float r
       (A ++ "." ++ B ++ String sep (S ++ C ++ rest))
     = Exp.ExpToDec_item float_of_text pow10 round18 text_of_float r
         (A ++ "." ++ B ++ String "e" (S ++ C)).
Proof.
  intros Hr HA HB HC Hsep HS Hrest.
  destruct (match_exp_literal r A B S C rest sep Hr HA HB HC Hsep HS Hrest)
    as (m & Hm & Hg1 & Hg2).
  destruct (match_exp_literal r A B S C "" "e" Hr HA HB HC (or_introl eq_refl) HS I)
    as (m' & Hm' & Hg1' & Hg2').
  rewrite append_empty_r in Hm'.
  unfold Exp.ExpToDec_item. rewrite Hm, Hm'. cbn [mbind option_bind].
  rewrite Hg1, Hg1'. cbn [mbind option_bind].
  destruct (float_of_text (A ++ "." ++ B)) as [mantissa |]; cbn [mbind option_bind];
    [| split; reflexivity].
  rewrite Hg2, Hg2'. split; reflexivity.
Qed.

Lemma no_point_after_digits (xs : list ascii) :
  forall ys ts r : list ascii,
    Forall (fun c => Re.in_class false [("0", "9")]%char c = true) xs ->
    Forall (fun c => Re.in_class false [("0", "9")]%char c = true) ys ->
    match ts with
    | [] => True
    | c :: _ => Re.in_class false [("0", "9")]%char c = false /\ c <> "."%char
    end ->
    (xs ++ ts)%list <> (ys ++ "."%char :: r)%list.
Proof.
  induction xs as [| a xs IH]; intros ys ts r Hxs Hys Hts E.
  - cbn [app] in E. subst ts. destruct ys as [| b ys']; cbn [app] in Hts.
    + apply (proj2 Hts). reflexivity.
    + inversion Hys as [| ? ? Hb _]; subst. destruct Hts as [Hts _]. congruence.
  - inversion Hxs as [| ? ? Ha Hxs']; subst.
    destruct ys as [| b ys']; cbn [app] in E; injection E as -> E.
    + discriminate Ha.
    + inversion Hys as [| ? ? _ Hys']; subst. apply (IH ys' ts r Hxs' Hys' Hts E).
Qed.

(** X20: [ExpToDecCommand] skips a selection whose leading digits are not followed
    by a point: a mantissa without a fraction, as in [1e3], is not
    converted. *)
Theorem exp_needs_point (r : Re.Pattern) (A t : string) :
  SRC_EXP = Some r ->
  all_digits A = true ->
  match t with
  | EmptyString => True
  | String c _ => dec_digit c = false /\ c <> "."%char
  end ->
  Exp.ExpToDec_item float_of_text pow10 round18 text_of_float r (A ++ t) = None.
Proof.
  intros Hr HA Ht. injection Hr as <-.
  unfold Exp.ExpToDec_item, Re.match_. cbn [Re.syntax].
  match goal with
  | |- context [Re.rmatch ?R Some ?S0] => destruct (Re.rmatch R Some S0) as [s |] eqn:E
  end; [exfalso | reflexivity].
  rewrite !rmatch_seq, rmatch_empty, rmatch_wordb in E.
  destruct (Re.at_boundary _); [| discriminate E].
  rewrite rmatch_group, !rmatch_seq, rmatch_empty, rmatch_plus in E.
  apply plus_class_inv in E as (ys & rest & Ha & _ & Hys & Hk).
  apply rmatch_chr_inv in Hk as (r' & Hr'). cbn [Re.ahead] in Ha, Hr'. subst rest.
  rewrite chars_app in Ha.
  apply (no_point_after_digits (list_ascii_of_string A) ys (list_ascii_of_string t) r');
    [apply digits_chars; exact HA | exact Hys | | exact Ha].
  destruct t as [| c t']; [exact I |]. cbn [list_ascii_of_string].
  rewrite dec_class_digit. exact Ht.
Qed.

End Exponential.

Lemma exp_literal_converts_witness :
  exists r,
    SRC_EXP = Some r
    /\ Exp.ExpToDec_item
         (fun s => if String.eqb s "1.5" then Some 1.5%float
                   else if String.eqb s "3" then Some 3%float else None)
         (fun _ => Some 1000%float) Some (fun _ => "1500.0") r "1.5,3 Hz"
       = Some "1500"
    /\ Exp.ExpToDec_item
         (fun s => if String.eqb s "1.5" then Some 1.5%float
                   else if String.eqb s "3" then Some 3%float else None)
         (fun _ => Some 1000%float) Some (fun _ => "1500.0") r "1.5,3 Hz"
       = Exp.ExpToDec_item
           (fun s => if String.eqb s "1.5" then Some 1.5%float
                     else if String.eqb s "3" then Some 3%float else None)
           (fun _ => Some 1000%float) Some (fun _ => "1500.0") r "1.5e3".
Proof.
  destruct SRC_EXP as [r |] eqn:E; [| discriminate E].
  exists r. split; [reflexivity |].
  apply (exp_literal_converts
           (fun s => if String.eqb s "1.5" then Some 1.5%float
                     else if String.eqb s "3" then Some 3%float else None)
           (fun _ => Some 1000%float) Some (fun _ => "1500.0")
           r "1" "5" "" "3" " Hz" ",");
    [exact E | split; [discriminate | reflexivity] | split; [discriminate | reflexivity]
    | split; [discriminate | reflexivity] | right; left; reflexivity | left; reflexivity
    | reflexivity].
Defined.

Lemma exp_needs_point_witness :
  exists r,
    SRC_EXP = Some r
    /\ Exp.ExpToDec_item (fun _ => Some 1%float) (fun _ => Some 1000%float) Some
         (fun _ => "1000.0") r "1e3" = None.
Proof.
  destruct SRC_EXP as [r |] eqn:E; [| discriminate E].
  exists r. split; [reflexivity |].
  apply (exp_needs_point (fun _ => Some 1%float) (fun _ => Some 1000%float) Some
           (fun _ => "1000.0") r "1" "e3");
    [exact E | reflexivity | split; [reflexivity | discriminate]].
Defined.

(** ** The exponential commands against their specification *)

Lemma String_neq_empty (c : ascii) (s : string) : String c s = "" -> False.
Proof. discriminate. Qed.

(** C4 fails on the text [1.5e20]: the product [1.5 * 10 ** 20.0] is the
    binary64 value [1.5e20], which [str] renders as [1.5e+20], and
    [rstrip('0')] takes the last digit of the exponent: [ExpToDecCommand]
    writes [1.5e+2], which is not the value [1.5 * 10 ^ 20]. *)
Theorem ExpToDec_trims_exponent (float_of_text : string -> option float)
  (pow10 round18 : float -> option float) (text_of_float : float -> string)
  (r : Re.Pattern) :
  SRC_EXP = Some r ->
  float_of_text "1.5" = Some 1.5%float ->
  float_of_text "20" = Some 20%float ->
  pow10 20%float = Some 1e20%float ->
  round18 1.5e20%float = Some 1.5e20%float ->
  text_of_float 1.5e20%float = "1.5e+20" ->
  PrimFloat.mul 1.5 1e20 = 1.5e20%float
  /\ Exp.ExpToDec_item float_of_text pow10 round18 text_of_float r "1.5e20"
     = Some "1.5e+2".
Proof.
  intros Hr Hm He Hp Hround Hstr.
  assert (Hmul : PrimFloat.mul 1.5 1e20 = 1.5e20%float) by (vm_compute; reflexivity).
  split; [exact Hmul |].
  destruct (match_exp_literal r "1" "5" "" "20" "" "e" Hr
              (conj (fun H => String_neq_empty _ _ H) eq_refl)
              (conj (fun H => String_neq_empty _ _ H) eq_refl)
              (conj (fun H => String_neq_empty _ _ H) eq_refl)
              (or_introl eq_refl) (or_introl eq_refl) I) as (m & Hmatch & Hg1 & Hg2).
  change ("1" ++ "." ++ "5" ++ String "e" ("" ++ "20" ++ "")) with "1.5e20" in Hmatch.
  change ("1" ++ "." ++ "5") with "1.5" in Hg1.
  change ("" ++ "20") with "20" in Hg2.
  unfold Exp.ExpToDec_item. rewrite Hmatch. cbn [mbind option_bind].
  rewrite Hg1. cbn [mbind option_bind]. rewrite Hm. cbn [mbind option_bind].
  rewrite Hg2. cbn [mbind option_bind]. rewrite He. cbn [mbind option_bind].
  rewrite Hp. cbn [mbind option_bind]. rewrite Hmul, Hround. cbn [mbind option_bind].
  rewrite Hstr. reflexivity.
Qed.

Lemma ExpToDec_trims_exponent_witness :
  exists r,
    SRC_EXP = Some r
    /\ PrimFloat.mul 1.5 1e20 = 1.5e20%float
    /\ Exp.ExpToDec_item
         (fun s => if String.eqb s "1.5" then Some 1.5%float
                   else if String.eqb s "20" then Some 20%float else None)
         (fun _ => Some 1e20%float) Some (fun _ => "1.5e+20") r "1.5e20"
       = Some "1.5e+2".
Proof.
  destruct SRC_EXP as [r |] eqn:E; [| discriminate E].
  exists r. split; [reflexivity |].
  apply (ExpToDec_trims_exponent
           (fun s => if String.eqb s "1.5" then Some 1.5%float
                     else if String.eqb s "20" then Some 20%float else None)
           (fun _ => Some 1e20%float) Some (fun _ => "1.5e+20") r);
    [exact E | reflexivity | reflexivity | reflexivity | reflexivity | reflexivity].
Defined.

(** C5 fails on the value [-5.0]: its magnitude is neither above 10 nor below
    1, so that no shift is due, but the loops of [DecToExpCommand] compare the
    value itself: [-5.0 < 1] holds, and holds after every multiplication by
    10, and the loops have not returned after any number of iterations. *)
Theorem normalize_compares_signed_value :
  PrimFloat.ltb 10 (PrimFloat.abs (-5)%float) = false
  /\ PrimFloat.ltb (PrimFloat.abs (-5)%float) 1 = false
  /\ PrimFloat.ltb (-5)%float 1 = true
  /\ forall fuel : nat, Exp.normalize fuel (-5)%float = None.
Proof.
  split; [vm_compute; reflexivity |]. split; [vm_compute; reflexivity |].
  split; [vm_compute; reflexivity |].
  intros fuel. unfold Exp.normalize. destruct fuel as [| f]; [reflexivity |].
  cbn [Exp.shrink]. change (PrimFloat.ltb 10 (-5)) with false. cbv iota.
  apply (grow_negative (S f) 0).
Qed.

(** ** Batches, command by command *)




Section DecToExp.

Variable float_of_text : string -> option float.
Variable text_of_float : float -> string.
Variable fuel : nat.
Variable dst_pattern : string.



End DecToExp.







